(** * PerturbViz: annotation, label selection and ranking of a gene network

    A shallow embedding of [perturbed-overlap-network.py].  Gene identifiers
    and category names are Python strings, Python dictionaries are
    association lists kept in insertion order, fold-changes are Python
    floats (a rational, an infinity, or NaN), and a [networkx.Graph] is its
    adjacency dictionary.  The library routines whose result the script
    does not determine are parameters: the networkx layouts and
    betweenness, and the pandas sort on one key, whose order of tied rows
    is the library's. *)

From Stdlib Require Import List String Bool Arith Lia ZArith QArith Qabs.
From Stdlib Require Import Permutation Sorted.
Import ListNotations.

Local Close Scope Q_scope.
Local Open Scope string_scope.
Local Open Scope list_scope.

(** ** Python floats, as far as the script compares them

    A finite float is the rational it denotes; the script only compares
    fold-changes, takes absolute values and formats them, so no rounding
    enters. *)

Module PyFloat.

Inductive float : Type :=
| NaN
| NegInf
| Fin (q : Q)
| PosInf.

Definition Qltb (x y : Q) : bool := negb (Qle_bool y x).

(** [a < b]; every comparison with NaN is false. *)
Definition flt (a b : float) : bool :=
  match a, b with
  | NaN, _ | _, NaN => false
  | NegInf, NegInf => false
  | NegInf, _ => true
  | Fin _, NegInf => false
  | Fin x, Fin y => Qltb x y
  | Fin _, PosInf => true
  | PosInf, _ => false
  end.

(** [a > b] *)
Definition fgt (a b : float) : bool := flt b a.

(** [a <= b] *)
Definition fle (a b : float) : bool :=
  match a, b with
  | NaN, _ | _, NaN => false
  | NegInf, _ => true
  | Fin _, NegInf => false
  | Fin x, Fin y => Qle_bool x y
  | Fin _, PosInf => true
  | PosInf, PosInf => true
  | PosInf, _ => false
  end.

(** [a == b] *)
Definition feq (a b : float) : bool :=
  match a, b with
  | NegInf, NegInf | PosInf, PosInf => true
  | Fin x, Fin y => Qeq_bool x y
  | _, _ => false
  end.

(** [pd.isna] *)
Definition isna (a : float) : bool :=
  match a with NaN => true | _ => false end.

(** [abs] *)
Definition fabs (a : float) : float :=
  match a with
  | NaN => NaN
  | NegInf | PosInf => PosInf
  | Fin q => Fin (Qabs q)
  end.

Definition of_Z (z : Z) : float := Fin (inject_Z z).

(** The builtin [min(a, b)] and [max(a, b)]: the first argument is kept
    unless the second is strictly smaller (larger). *)
Definition min2 (a b : float) : float := if flt b a then b else a.
Definition max2 (a b : float) : float := if fgt b a then b else a.

(** The builtin [min(l)] and [max(l)] of a list: [None] stands for the
    [ValueError] on an empty list. *)
Definition py_min (l : list float) : option float :=
  match l with
  | [] => None
  | x :: r => Some (fold_left min2 r x)
  end.

Definition py_max (l : list float) : option float :=
  match l with
  | [] => None
  | x :: r => Some (fold_left max2 r x)
  end.

End PyFloat.
Import PyFloat.

(** ** Python dictionaries with string keys, in insertion order *)

Module PyDict.
Section Dict.
Context {V : Type}.

Definition dict : Type := list (string * V).

Fixpoint get (k : string) (d : dict) : option V :=
  match d with
  | [] => None
  | (k', v) :: r => if String.eqb k k' then Some v else get k r
  end.

(** [d[k] = v]: an existing key keeps its place, a new one goes last. *)
Fixpoint set (k : string) (v : V) (d : dict) : dict :=
  match d with
  | [] => [(k, v)]
  | (k', v') :: r =>
      if String.eqb k k' then (k', v) :: r else (k', v') :: set k v r
  end.

(** [k in d] *)
Definition mem (k : string) (d : dict) : bool :=
  match get k d with Some _ => true | None => false end.

Definition keys (d : dict) : list string := map fst d.
Definition values (d : dict) : list V := map snd d.
Definition items (d : dict) : list (string * V) := d.

(** [dict(pairs)]: later pairs overwrite earlier ones. *)
Definition of_pairs (l : list (string * V)) : dict :=
  fold_left (fun d kv => set (fst kv) (snd kv) d) l [].

End Dict.
Arguments dict V : clear implicits.
End PyDict.

(** [x in l] for a list of strings *)
Definition str_in (x : string) (l : list string) : bool :=
  existsb (String.eqb x) l.

(** ** networkx.Graph *)

Module Nx.

(** The adjacency dictionary: its keys are the nodes in insertion order,
    the value of a node lists its neighbours in insertion order. *)
Definition Graph : Type := PyDict.dict (list string).

Definition empty : Graph := [].

Definition nodes (G : Graph) : list string := PyDict.keys G.

Definition number_of_nodes (G : Graph) : nat := List.length (nodes G).

Definition has_node (G : Graph) (n : string) : bool := PyDict.mem n G.

Definition add_node (n : string) (G : Graph) : Graph :=
  if PyDict.mem n G then G else PyDict.set n [] G.

(** [G._adj[u][v] = {}] *)
Definition add_nbr (u v : string) (G : Graph) : Graph :=
  match PyDict.get u G with
  | Some ns => PyDict.set u (if str_in v ns then ns else ns ++ [v]) G
  | None => G
  end.

(** One step of [add_edges_from]. *)
Definition add_edge (u v : string) (G : Graph) : Graph :=
  add_nbr v u (add_nbr u v (add_node v (add_node u G))).

Definition add_edges_from (E : list (string * string)) (G : Graph) : Graph :=
  fold_left (fun g e => add_edge (fst e) (snd e) g) E G.

(** [nx.from_pandas_edgelist(df, 'source', 'target')] on the rows
    [zip(df['source'], df['target'])]. *)
Definition from_pandas_edgelist (E : list (string * string)) : Graph :=
  add_edges_from E empty.

(** [G.has_edge(u, v)] *)
Definition has_edge (G : Graph) (u v : string) : bool :=
  match PyDict.get u G with
  | Some ns => str_in v ns
  | None => false
  end.

(** [G.degree(n)]: a self-loop counts twice. *)
Definition degree (G : Graph) (n : string) : nat :=
  match PyDict.get n G with
  | Some ns => List.length ns + (if str_in n ns then 1 else 0)
  | None => 0
  end.

(** [nx.degree_centrality(G)]: degree over [n - 1], kept as an exact
    fraction; 1 for every node when the graph has at most one node. *)
Definition degree_centrality (G : Graph) : PyDict.dict Q :=
  if Nat.leb (number_of_nodes G) 1
  then map (fun n => (n, 1%Q)) (nodes G)
  else map (fun n => (n, (inject_Z (Z.of_nat (degree G n))
                          / inject_Z (Z.of_nat (number_of_nodes G - 1)))%Q))
           (nodes G).

End Nx.

(** ** pandas: the differential-expression table and its sorting *)

Module Pandas.

(** The DEG table after [load_degs]: a [gene] column and, when one was
    found, a [log2FC] column of the same height. *)
Record DataFrame : Type := mkDataFrame {
  col_gene : list string;
  col_log2FC : option (list float)
}.

(** [zip(df['gene'], df['log2FC'])] *)
Definition zip_gene_fc (df : DataFrame) (fcs : list float)
  : list (string * float) :=
  combine (col_gene df) fcs.

Section StableSort.
Context {A : Type}.
(** [before a b] holds when [a] may stand in front of [b]. *)
Variable before : A -> A -> bool.

Fixpoint insert (x : A) (l : list A) : list A :=
  match l with
  | [] => [x]
  | y :: r => if before x y then x :: y :: r else y :: insert x r
  end.

(** [sort_values] on a list of keys, as a stable insertion sort: pandas
    sorts several keys with a lexsort, which leaves rows that compare equal
    in the order they had. *)
Definition sort_values (l : list A) : list A := fold_right insert [] l.
End StableSort.

(** Descending order of a numeric key with [na_position='last']. *)
Definition desc_na_last (a b : float) : bool :=
  match a, b with
  | _, NaN => true
  | NaN, _ => false
  | _, _ => fle b a
  end.

(** [sort_values(key, ascending=False)] on ONE key is another routine of
    the library: it runs numpy's argsort with pandas' default
    [kind='quicksort'], which is not stable, and the scripts do not choose
    another kind.  What the call promises is that the rows come back
    rearranged, none in front of a row with a larger key, the rows without
    a key last; which of the rows that tie comes first is up to the
    library. *)
Definition sorts_descending {A : Type} (key : A -> float)
    (sort : list A -> list A) : Prop :=
  forall l,
    Permutation (sort l) l /\
    StronglySorted (fun a b => desc_na_last (key a) (key b) = true) (sort l).

End Pandas.
Import Pandas.

(** ** The script *)

Definition cat_other : string := "other".
Definition cat_perturbed : string := "perturbed".
Definition cat_up : string := "up".
Definition cat_down : string := "down".

(** [categorize_genes(perturbed_genes, degs_df, G)] *)
Definition categorize_genes (perturbed_genes : list string)
    (degs_df : option DataFrame) (G : Nx.Graph) : PyDict.dict string :=
  let gene_categories :=
    fold_left (fun gc node => PyDict.set node cat_other gc) (Nx.nodes G) [] in
  let gene_categories :=
    fold_left (fun gc gene =>
                 if str_in gene (Nx.nodes G)
                 then PyDict.set gene cat_perturbed gc else gc)
              perturbed_genes gene_categories in
  match degs_df with
  | Some df =>
      match col_log2FC df with
      | Some fcs =>
          let gene_to_fc := PyDict.of_pairs (zip_gene_fc df fcs) in
          fold_left
            (fun gc gene =>
               match PyDict.get gene gene_to_fc with
               | Some fc =>
                   if negb (str_in gene perturbed_genes) then
                     if isna fc then gc
                     else if fgt fc (of_Z 1) then PyDict.set gene cat_up gc
                     else if flt fc (of_Z (-1)) then PyDict.set gene cat_down gc
                     else gc
                   else gc
               | None => gc
               end)
            (Nx.nodes G) gene_categories
      | None => gene_categories
      end
  | None => gene_categories
  end.

(** The [fold_changes] dictionary built at the start of
    [visualize_network]. *)
Definition fold_changes_of (G : Nx.Graph) (degs_df : option DataFrame)
  : PyDict.dict float :=
  match degs_df with
  | Some df =>
      match col_log2FC df with
      | Some fcs =>
          let fc_dict := PyDict.of_pairs (zip_gene_fc df fcs) in
          fold_left
            (fun fold_changes node =>
               match PyDict.get node fc_dict with
               | Some fc_value =>
                   if negb (isna fc_value)
                   then PyDict.set node fc_value fold_changes
                   else fold_changes
               | None => fold_changes
               end)
            (Nx.nodes G) []
      | None => []
      end
  | None => []
  end.

(** [node_categories]: the four lists, filled in the order of
    [gene_categories.items()].  A category outside the four keys is a
    [KeyError], rendered as [None]. *)
Definition node_categories_init : PyDict.dict (list string) :=
  [(cat_perturbed, []); (cat_up, []); (cat_down, []); (cat_other, [])].

Definition organize (gene_categories : PyDict.dict string)
  : option (PyDict.dict (list string)) :=
  fold_left
    (fun acc item =>
       match acc with
       | None => None
       | Some nc =>
           match PyDict.get (snd item) nc with
           | Some l => Some (PyDict.set (snd item) (l ++ [fst item]) nc)
           | None => None
           end
       end)
    (PyDict.items gene_categories) (Some node_categories_init).

(** [node_categories[c]] for one of the four keys *)
Definition nc_at (nc : PyDict.dict (list string)) (c : string) : list string :=
  match PyDict.get c nc with Some l => l | None => [] end.

(** What [nx.draw_networkx_nodes] is asked to paint: a node list and
    either a named colour or per-node values sent through a colormap with
    the domain [vmin .. vmax]. *)
Inductive node_color : Type :=
| Named (name : string)
| Mapped (values : list float) (cmap : string) (vmin vmax : float).

Record draw_nodes : Type := mkDraw {
  nodelist : list string;
  color : node_color
}.

Definition nonempty {A : Type} (l : list A) : bool :=
  match l with [] => false | _ :: _ => true end.

(** [vmin = min(min(perturbed_fc), -1)], [vmax = max(max(perturbed_fc), 1)],
    reached only under [if perturbed_fc:]. *)
Definition color_domain (perturbed_fc : list float) : option (float * float) :=
  match py_min perturbed_fc, py_max perturbed_fc with
  | Some lo, Some hi => Some (min2 lo (of_Z (-1)), max2 hi (of_Z 1))
  | _, _ => None
  end.

(** The loop filling [perturbed_fc] and [valid_perturbed] side by side. *)
Definition perturbed_with_fc (perturbed : list string)
    (fold_changes : PyDict.dict float) : list (string * float) :=
  flat_map (fun g => match PyDict.get g fold_changes with
                     | Some fc => [(g, fc)]
                     | None => []
                     end) perturbed.

Definition valid_perturbed perturbed fold_changes : list string :=
  map fst (perturbed_with_fc perturbed fold_changes).
Definition perturbed_fc perturbed fold_changes : list float :=
  map snd (perturbed_with_fc perturbed fold_changes).

Definition draw_if_any (l : list string) (c : string) : list draw_nodes :=
  if nonempty l then [mkDraw l (Named c)] else [].

(** The node-drawing calls of [visualize_network], in program order. *)
Definition draw_primary (nc : PyDict.dict (list string))
    (fold_changes : PyDict.dict float) : list draw_nodes :=
  draw_if_any (nc_at nc cat_other) "lightgray"
  ++ draw_if_any (nc_at nc cat_down) "blue"
  ++ draw_if_any (nc_at nc cat_up) "red"
  ++ (if nonempty (nc_at nc cat_perturbed) && nonempty fold_changes then
        let fcs := perturbed_fc (nc_at nc cat_perturbed) fold_changes in
        match color_domain fcs with
        | Some (vmin, vmax) =>
            [mkDraw (valid_perturbed (nc_at nc cat_perturbed) fold_changes)
                    (Mapped fcs "RdBu_r" vmin vmax)]
        | None => [mkDraw (nc_at nc cat_perturbed) (Named "purple")]
        end
      else [mkDraw (nc_at nc cat_perturbed) (Named "purple")]).

(** The colorbar of the primary view, present exactly when the mapped
    draw call is. *)
Definition colorbar_primary (nc : PyDict.dict (list string))
    (fold_changes : PyDict.dict float) : option (float * float) :=
  if nonempty (nc_at nc cat_perturbed) && nonempty fold_changes
  then color_domain (perturbed_fc (nc_at nc cat_perturbed) fold_changes)
  else None.

(** [important_nodes] of [visualize_network] *)
Definition important_nodes (nc : PyDict.dict (list string)) : list string :=
  nc_at nc cat_perturbed ++ nc_at nc cat_up ++ nc_at nc cat_down.

(** [if gene not in nodes_to_label: nodes_to_label.append(gene)] *)
Definition append_new (acc : list string) (gene : string) : list string :=
  if str_in gene acc then acc else acc ++ [gene].

Section LabelChoice.

(** [degs_df.sort_values('abs_log2FC', ascending=False)] on the rows
    (gene, log2FC): the library's sort on one key, whose order of tied rows
    the script does not fix. *)
Variable sort_by_abs_log2FC : list (string * float) -> list (string * float).

(** [top_fc_genes['gene']] after [isin(genes_in_network)] and [head(10)] *)
Definition top_fc_genes (G : Nx.Graph) (rows : list (string * float))
  : list string :=
  map fst (firstn 10 (filter (fun r => str_in (fst r) (Nx.nodes G))
                             (sort_by_abs_log2FC rows))).

(** [nodes_to_label] of [visualize_network] *)
Definition nodes_to_label (G : Nx.Graph) (nc : PyDict.dict (list string))
    (degs_df : option DataFrame) : list string :=
  if Nat.leb (List.length (Nx.nodes G)) 50 then Nx.nodes G
  else
    match degs_df with
    | Some df =>
        match col_log2FC df with
        | Some fcs =>
            fold_left append_new (top_fc_genes G (zip_gene_fc df fcs))
                      (important_nodes nc)
        | None => important_nodes nc
        end
    | None => important_nodes nc
    end.

End LabelChoice.

(** [[node for node, cat in gene_categories.items() if cat == category]] *)
Definition nodes_of_category (gene_categories : PyDict.dict string)
    (category : string) : list string :=
  map fst (filter (fun item => String.eqb (snd item) category)
                  (PyDict.items gene_categories)).

(** The node-drawing calls of [create_labeled_network]. *)
Definition draw_labeled (gene_categories : PyDict.dict string)
  : list draw_nodes :=
  flat_map (fun cc => draw_if_any (nodes_of_category gene_categories (fst cc))
                                  (snd cc))
           [(cat_other, "lightgray"); (cat_down, "blue");
            (cat_up, "red"); (cat_perturbed, "purple")].

(** The colorbar of the labeled view: a [ScalarMappable] over the same
    domain rule; no node is painted with it. *)
Definition colorbar_labeled (gene_categories : PyDict.dict string)
    (fold_changes : PyDict.dict float) : option (float * float) :=
  if nonempty (nodes_of_category gene_categories cat_perturbed)
     && nonempty fold_changes
  then
    let perturbed_nodes :=
      filter (fun n => PyDict.mem n fold_changes)
             (nodes_of_category gene_categories cat_perturbed) in
    color_domain (perturbed_fc perturbed_nodes fold_changes)
  else None.

(** A row of the important-gene table.  [Degree] is [None] when the gene is
    not a node (networkx then hands back a view, not a number); [log2FC] is
    [None] for the placeholder ['NA']. *)
Record Row : Type := mkRow {
  Gene : string;
  Category : string;
  Degree : option nat;
  Centrality : Q;
  Betweenness : Q;
  log2FC : option float
}.

Definition is_important (cat : string) : bool :=
  str_in cat [cat_perturbed; cat_up; cat_down].

(** [pd.to_numeric(table_df['log2FC'], errors='coerce')] *)
Definition log2FC_num (r : Row) : float :=
  match log2FC r with Some fc => fc | None => NaN end.

(** [not all(table_df['log2FC'] == 'NA')] *)
Definition some_numeric (rows : list Row) : bool :=
  negb (forallb (fun r => match log2FC r with None => true | Some _ => false end)
                rows).

(** [sort_values(['Category', 'log2FC_num'], ascending=[True, False])] *)
Definition before_by_fc (r1 r2 : Row) : bool :=
  String.ltb (Category r1) (Category r2)
  || (String.eqb (Category r1) (Category r2)
      && desc_na_last (log2FC_num r1) (log2FC_num r2)).

(** [sort_values(['Category', 'Centrality'], ascending=[True, False])] *)
Definition before_by_centrality (r1 r2 : Row) : bool :=
  String.ltb (Category r1) (Category r2)
  || (String.eqb (Category r1) (Category r2)
      && Qle_bool (Centrality r2) (Centrality r1)).

Inductive layout_choice : Type :=
| spring
| kamada_kawai
| circular
| spectral.

Record Output (Coord : Type) : Type := mkOutput {
  out_pos : PyDict.dict Coord;
  out_fold_changes : PyDict.dict float;
  out_primary_nodes : list draw_nodes;
  out_primary_colorbar : option (float * float);
  out_nodes_to_label : list string;
  out_primary_labels : list string;
  out_labeled_nodes : list draw_nodes;
  out_labeled_colorbar : option (float * float);
  out_labeled_labels : list string;
  out_table : option (list Row)
}.
Arguments mkOutput {Coord}.
Arguments out_pos {Coord}.
Arguments out_fold_changes {Coord}.
Arguments out_primary_nodes {Coord}.
Arguments out_primary_colorbar {Coord}.
Arguments out_nodes_to_label {Coord}.
Arguments out_primary_labels {Coord}.
Arguments out_labeled_nodes {Coord}.
Arguments out_labeled_colorbar {Coord}.
Arguments out_labeled_labels {Coord}.
Arguments out_table {Coord}.

Section Pipeline.

(** The networkx routines the script calls and does not define.  A layout
    that raises is [None]. *)
Variable Coord : Type.
Variable spring_layout : Nx.Graph -> Q -> nat -> nat -> PyDict.dict Coord.
Variable kamada_kawai_layout : Nx.Graph -> option (PyDict.dict Coord).
Variable circular_layout : Nx.Graph -> PyDict.dict Coord.
Variable spectral_layout : Nx.Graph -> option (PyDict.dict Coord).
Variable betweenness_centrality : Nx.Graph -> PyDict.dict Q.

(** The pandas routine behind
    [degs_df.sort_values('abs_log2FC', ascending=False)]. *)
Variable sort_by_abs_log2FC : list (string * float) -> list (string * float).

(** [nx.spring_layout(G, k=0.3, iterations=50, seed=42)] *)
Definition default_spring (G : Nx.Graph) : PyDict.dict Coord :=
  spring_layout G (3 # 10)%Q 50%nat 42%nat.

(** The [if args.layout == ...] chain of [visualize_network]. *)
Definition generate_layout (layout : layout_choice) (G : Nx.Graph)
  : PyDict.dict Coord :=
  match layout with
  | spring => default_spring G
  | kamada_kawai =>
      match kamada_kawai_layout G with
      | Some pos => pos
      | None => default_spring G
      end
  | circular => circular_layout G
  | spectral =>
      match spectral_layout G with
      | Some pos => pos
      | None => default_spring G
      end
  end.

(** The rows of [table_data], in the order of [gene_categories.items()];
    [gene_categories[gene]] is the category of the item being read. *)
Definition table_data (G : Nx.Graph) (gene_categories : PyDict.dict string)
    (fold_changes : PyDict.dict float) : list Row :=
  let degree_centrality := Nx.degree_centrality G in
  let betweenness := betweenness_centrality G in
  map (fun item =>
         let gene := fst item in
         {| Gene := gene;
            Category := snd item;
            Degree := if Nx.has_node G gene
                      then Some (Nx.degree G gene) else None;
            Centrality := match PyDict.get gene degree_centrality with
                          | Some c => c | None => 0%Q end;
            Betweenness := match PyDict.get gene betweenness with
                           | Some b => b | None => 0%Q end;
            log2FC := PyDict.get gene fold_changes |})
      (filter (fun item => is_important (snd item))
              (PyDict.items gene_categories)).

(** [create_gene_table]: the rows written to the CSV file, or [None] when
    the [except] branch is taken.  With no important gene the frame has no
    columns and [sort_values(['Category', 'Centrality'])] raises. *)
Definition create_gene_table (G : Nx.Graph)
    (gene_categories : PyDict.dict string)
    (fold_changes : PyDict.dict float) : option (list Row) :=
  match table_data G gene_categories fold_changes with
  | [] => None
  | rows =>
      if some_numeric rows
      then Some (sort_values before_by_fc rows)
      else Some (sort_values before_by_centrality rows)
  end.

(** [visualize_network(G, gene_categories, degs_df, output_prefix, args)];
    [None] is the uncaught [KeyError] of a category outside the four. *)
Definition visualize_network (G : Nx.Graph)
    (gene_categories : PyDict.dict string) (degs_df : option DataFrame)
    (layout : layout_choice) : option (Output Coord) :=
  let pos := generate_layout layout G in
  let fold_changes := fold_changes_of G degs_df in
  match organize gene_categories with
  | None => None
  | Some nc =>
      let to_label := nodes_to_label sort_by_abs_log2FC G nc degs_df in
      let important :=
        flat_map (nodes_of_category gene_categories)
                 [cat_perturbed; cat_up; cat_down] in
      Some {| out_pos := pos;
              out_fold_changes := fold_changes;
              out_primary_nodes := draw_primary nc fold_changes;
              out_primary_colorbar := colorbar_primary nc fold_changes;
              out_nodes_to_label := to_label;
              out_primary_labels :=
                filter (fun n => PyDict.mem n pos) to_label;
              out_labeled_nodes := draw_labeled gene_categories;
              out_labeled_colorbar :=
                colorbar_labeled gene_categories fold_changes;
              out_labeled_labels :=
                filter (fun n => PyDict.mem n pos) important;
              out_table :=
                create_gene_table G gene_categories fold_changes |}
  end.

(** [main] after the files are read. *)
Definition main (G : Nx.Graph) (perturbed_genes : list string)
    (degs_df : option DataFrame) (layout : layout_choice)
  : option (Output Coord) :=
  let gene_categories := categorize_genes perturbed_genes degs_df G in
  visualize_network G gene_categories degs_df layout.

End Pipeline.

(** The declarative reading of "the value the table gives a gene": the
    value of its last row. *)
Definition last_occurrence {V : Type} (rows : list (string * V))
    (g : string) (v : V) : Prop :=
  exists l1 l2, rows = l1 ++ (g, v) :: l2 /\ ~ In g (map fst l2).

(** A loop [for x in l: if upd x gives v: d[x] = v]. *)
Definition set_each {V : Type} (upd : string -> option V)
    (l : list string) (d : PyDict.dict V) : PyDict.dict V :=
  fold_left (fun acc x => match upd x with
                          | Some v => PyDict.set x v acc
                          | None => acc
                          end) l d.

(** The keys of [node_categories]. *)
Definition four_categories : list string :=
  [cat_perturbed; cat_up; cat_down; cat_other].

(** The identifiers that stand at either end of a row of the edge list. *)
Definition endpoints (E : list (string * string)) : list string :=
  flat_map (fun e => [fst e; snd e]) E.

(** The key [sort_values('abs_log2FC')] looks at, and its comparison:
    [r1] may stand in front of [r2]. *)
Definition abs_log2FC (r : string * float) : float := fabs (snd r).

Definition before_by_abs_log2FC (r1 r2 : string * float) : bool :=
  desc_na_last (abs_log2FC r1) (abs_log2FC r2).

(** One sort the library may run: the stable one, which leaves the rows
    that tie in table order.  This is the order the specification words;
    it stands in for the library on the sample inputs. *)
Definition stable_sort_by_abs_log2FC (rows : list (string * float))
  : list (string * float) :=
  sort_values before_by_abs_log2FC rows.

(** Another one: the stable sort of the table read from the bottom, which
    leaves the rows that tie in reverse table order. *)
Definition reverse_sort_by_abs_log2FC (rows : list (string * float))
  : list (string * float) :=
  sort_values before_by_abs_log2FC (rev rows).

(** [a] is strictly ahead of [b]: it may stand in front of [b], and [b]
    may not stand in front of it. *)
Definition strictly_ahead {A : Type} (before : A -> A -> bool) (a b : A)
  : bool :=
  before a b && negb (before b a).

(** The row is about a gene of the graph. *)
Definition member_row (G : Nx.Graph) (a : string * float) : bool :=
  str_in (fst a) (Nx.nodes G).

(** How many rows about graph members have a larger absolute fold-change
    than row [b] (or have one when [b] has none). *)
Definition members_ahead (G : Nx.Graph) (rows : list (string * float))
    (b : string * float) : nat :=
  List.length
    (filter (fun a => member_row G a
                      && strictly_ahead before_by_abs_log2FC a b) rows).

(** How many rows about graph members have an absolute fold-change that is
    not smaller than that of row [b]: [b] and the rows that tie with it
    are counted. *)
Definition members_not_behind (G : Nx.Graph) (rows : list (string * float))
    (b : string * float) : nat :=
  List.length
    (filter (fun a => member_row G a && before_by_abs_log2FC a b) rows).

(** The genes of the first ten rows about graph members of a ranked
    table. *)
Definition first_ten_members (G : Nx.Graph) (ranked : list (string * float))
  : list string :=
  map fst (firstn 10 (filter (member_row G) ranked)).

(** The fold-change column as rows, when the table has one. *)
Definition table_of (degs_df : option DataFrame)
  : option (list (string * float)) :=
  match degs_df with
  | Some df =>
      match col_log2FC df with
      | Some fcs => Some (zip_gene_fc df fcs)
      | None => None
      end
  | None => None
  end.

(** The classification rule for one node, written as the precedence list
    reads: perturbed first, then up above 1, then down below -1, else
    other; a missing value decides nothing. *)
Definition classify (perturbed_genes : list string)
    (rows : option (list (string * float))) (g : string) : string :=
  if str_in g perturbed_genes then cat_perturbed
  else
    match rows with
    | Some rows =>
        match PyDict.get g (PyDict.of_pairs rows) with
        | Some fc =>
            if isna fc then cat_other
            else if fgt fc (of_Z 1) then cat_up
            else if flt fc (of_Z (-1)) then cat_down
            else cat_other
        | None => cat_other
        end
    | None => cat_other
    end.

(** The three loops of [categorize_genes], each as the update it makes
    for one key. *)
Definition upd_other : string -> option string := fun _ => Some cat_other.

Definition upd_perturbed (G : Nx.Graph) : string -> option string :=
  fun gene => if str_in gene (Nx.nodes G) then Some cat_perturbed else None.

Definition upd_deg (perturbed_genes : list string)
    (gene_to_fc : PyDict.dict float) : string -> option string :=
  fun gene =>
    match PyDict.get gene gene_to_fc with
    | Some fc =>
        if negb (str_in gene perturbed_genes) then
          if isna fc then None
          else if fgt fc (of_Z 1) then Some cat_up
          else if flt fc (of_Z (-1)) then Some cat_down
          else None
        else None
    | None => None
    end.

(** The loop filling [fold_changes]. *)
Definition upd_fc (fc_dict : PyDict.dict float) : string -> option float :=
  fun node =>
    match PyDict.get node fc_dict with
    | Some fc_value => if negb (isna fc_value) then Some fc_value else None
    | None => None
    end.

(** [lo] is a least element of [l], [hi] a greatest one. *)
Definition is_min (lo : float) (l : list float) : Prop :=
  In lo l /\ forall x, In x l -> fle lo x = true.

Definition is_max (hi : float) (l : list float) : Prop :=
  In hi l /\ forall x, In x l -> fle x hi = true.

(** The membership rule of the fold-change map read row by row: a graph
    node with some row of the table that carries a value. *)
Definition fold_change_map_as_written (G : Nx.Graph)
    (degs_df : option DataFrame) : Prop :=
  forall g,
    In g (PyDict.keys (fold_changes_of G degs_df)) <->
    In g (Nx.nodes G) /\
    exists rows v, table_of degs_df = Some rows /\
                   In (g, v) rows /\ isna v = false.

(** A fixed-colour call paints one whole category list. *)
Definition flat_draw (gene_categories : PyDict.dict string)
    (d : draw_nodes) (c col : string) : Prop :=
  d = mkDraw (nodes_of_category gene_categories c) (Named col).

(** The mapped call paints the perturbed nodes that have a fold-change. *)
Definition mapped_draw (gene_categories : PyDict.dict string)
    (fold_changes : PyDict.dict float) (d : draw_nodes) : Prop :=
  let ps := nodes_of_category gene_categories cat_perturbed in
  exists vmin vmax,
    color_domain (perturbed_fc ps fold_changes) = Some (vmin, vmax) /\
    d = mkDraw (valid_perturbed ps fold_changes)
               (Mapped (perturbed_fc ps fold_changes) "RdBu_r" vmin vmax).

(** The selection beyond the important nodes as the specification words
    it: of the rows about graph members not already selected, ranked by
    absolute fold-change with ties in table order, the first ten distinct
    genes. *)
Definition claimed_top10 (G : Nx.Graph) (selected : list string)
    (rows : list (string * float)) : list string :=
  firstn 10
    (fold_left append_new
       (map fst
          (filter (fun r => str_in (fst r) (Nx.nodes G)
                            && negb (str_in (fst r) selected))
                  (stable_sort_by_abs_log2FC rows)))
       []).

Definition claimed_nodes_to_label (G : Nx.Graph)
    (gene_categories : PyDict.dict string) (degs_df : option DataFrame)
  : list string :=
  if Nat.leb (List.length (Nx.nodes G)) 50 then Nx.nodes G
  else
    let selected :=
      nodes_of_category gene_categories cat_perturbed
      ++ nodes_of_category gene_categories cat_up
      ++ nodes_of_category gene_categories cat_down in
    match table_of degs_df with
    | Some rows => selected ++ claimed_top10 G selected rows
    | None => selected
    end.

(** The order of the written table: categories in ascending lexical
    order; inside a category, when some row of the table has a numeric
    fold-change, fold-changes descending with the rows that have none
    last, and otherwise degree centrality descending. *)
Definition has_known_fc (tbl : list Row) : Prop :=
  exists r, In r tbl /\ log2FC r <> None.

Definition fc_descending (r1 r2 : Row) : Prop :=
  match log2FC r1, log2FC r2 with
  | _, None => True
  | None, Some _ => False
  | Some a, Some b => fle b a = true
  end.

Definition table_order (tbl : list Row) (r1 r2 : Row) : Prop :=
  String.ltb (Category r1) (Category r2) = true \/
  (Category r1 = Category r2 /\
   ((has_known_fc tbl /\ fc_descending r1 r2) \/
    (~ has_known_fc tbl /\ (Centrality r2 <= Centrality r1)%Q))).

(** The place of a category name in lexical order. *)
Definition cat_rank (c : string) : nat :=
  if String.eqb c cat_down then 0
  else if String.eqb c cat_perturbed then 1
  else 2.

Definition important_categories : list string :=
  [cat_perturbed; cat_up; cat_down].

(** A row of an important gene. *)
Definition P_important (r : Row) : Prop :=
  In (Category r) important_categories.

(** [nx.degree_centrality(G)[g]] for a node [g]. *)
Definition centrality_of (G : Nx.Graph) (g : string) : Q :=
  if Nat.leb (Nx.number_of_nodes G) 1 then 1%Q
  else (inject_Z (Z.of_nat (Nx.degree G g))
        / inject_Z (Z.of_nat (Nx.number_of_nodes G - 1)))%Q.

(** ** Sample inputs *)

(** The path A - B - C with the isolated node D. *)
Definition sample_graph : Nx.Graph :=
  Nx.add_node "D" (Nx.from_pandas_edgelist [("A", "B"); ("B", "C")]).

(** The path A - B - C as the edge list gives it. *)
Definition chain_graph : Nx.Graph :=
  Nx.from_pandas_edgelist [("A", "B"); ("B", "C")].

(** A table whose gene A is both perturbed and strongly up. *)
Definition sample_degs : option DataFrame :=
  Some (mkDataFrame ["A"; "B"; "C"]
                    (Some [of_Z 5; of_Z 2; of_Z (-3)])).

(** A table with a value on the boundary. *)
Definition boundary_degs : option DataFrame :=
  Some (mkDataFrame ["B"; "C"] (Some [of_Z 1; of_Z (-1)])).

(** A table that lists gene A twice, the second time without a value. *)
Definition repeated_degs : option DataFrame :=
  Some (mkDataFrame ["A"; "A"] (Some [of_Z 2; NaN])).

(** A path of 51 genes, g00 - g01 - ... - g50. *)
Definition gene_name (i : nat) : string :=
  String.append "g"
    (String (Ascii.ascii_of_nat (48 + i / 10))
       (String (Ascii.ascii_of_nat (48 + i mod 10)) EmptyString)).

Definition big_graph : Nx.Graph :=
  Nx.from_pandas_edgelist
    (map (fun i => (gene_name i, gene_name (S i))) (seq 0 50)).

(** Ten rows above 1, two of them for g00, then a milder row for g10. *)
Definition big_degs : option DataFrame :=
  Some (mkDataFrame
          ("g00" :: "g00" :: map gene_name (seq 1 8) ++ ["g10"])
          (Some (of_Z 5 :: of_Z 5 :: repeat (of_Z 4) 8 ++ [Fin (9 # 10)]))).

(** Ten rows for g01 .. g10 with the fold-changes 20, 19, .. 11, then a
    milder row for g11: no two rows have the same absolute fold-change. *)
Definition ranked_degs : option DataFrame :=
  Some (mkDataFrame
          (map gene_name (seq 1 10) ++ ["g11"])
          (Some (map (fun i => of_Z (Z.of_nat (21 - i))) (seq 1 10)
                 ++ [Fin (9 # 10)]))).

(** Eleven rows for g00 .. g10, all with the fold-change 1/2. *)
Definition tied_degs : option DataFrame :=
  Some (mkDataFrame (map gene_name (seq 0 11))
                    (Some (repeat (Fin (1 # 2)) 11))).

(** Stand-ins for the networkx routines, to run the script on the sample
    inputs: a spring layout that puts every node at the origin, layouts
    that raise, and a betweenness of zero. *)
Definition sample_spring (G : Nx.Graph) (k : Q) (iterations seed : nat)
  : PyDict.dict (Q * Q) :=
  map (fun n => (n, (0%Q, 0%Q))) (Nx.nodes G).

Definition failing_layout (G : Nx.Graph) : option (PyDict.dict (Q * Q)) :=
  None.

Definition sample_circular (G : Nx.Graph) : PyDict.dict (Q * Q) :=
  map (fun n => (n, (1%Q, 0%Q))) (Nx.nodes G).

Definition sample_betweenness (G : Nx.Graph) : PyDict.dict Q :=
  map (fun n => (n, 0%Q)) (Nx.nodes G).

Definition sample_run_with
    (sort_by_abs_log2FC : list (string * float) -> list (string * float))
    (G : Nx.Graph) (perturbed_genes : list string)
    (degs_df : option DataFrame) (layout : layout_choice)
  : option (Output (Q * Q)) :=
  main (Q * Q)%type sample_spring failing_layout sample_circular
       failing_layout sample_betweenness sort_by_abs_log2FC
       G perturbed_genes degs_df layout.

(** The sample runs sort with the stable stand-in. *)
Definition sample_run : Nx.Graph -> list string -> option DataFrame ->
                        layout_choice -> option (Output (Q * Q)) :=
  sample_run_with stable_sort_by_abs_log2FC.

(** ** Further readings of the script, used by the facts beyond the claims *)

(** The category of a node recomputed from the fold-change map alone. *)
Definition category_from_map (perturbed_genes : list string)
    (fold_changes : PyDict.dict float) (g : string) : string :=
  if str_in g perturbed_genes then cat_perturbed
  else
    match PyDict.get g fold_changes with
    | Some fc =>
        if fgt fc (of_Z 1) then cat_up
        else if flt fc (of_Z (-1)) then cat_down
        else cat_other
    | None => cat_other
    end.

(** [category_counts] of [categorize_genes]: how often each of the four
    names occurs among the values. *)
Definition category_counts (gene_categories : PyDict.dict string)
  : PyDict.dict nat :=
  map (fun cat =>
         (cat, List.length (filter (String.eqb cat)
                                   (PyDict.values gene_categories))))
      [cat_perturbed; cat_up; cat_down; cat_other].

(** [gene_counts] of [visualize_network], the fragments of the title: the
    size of each non-empty category list with its word. *)
Definition gene_counts (nc : PyDict.dict (list string))
  : list (nat * string) :=
  flat_map (fun cw =>
              if nonempty (nc_at nc (fst cw))
              then [(List.length (nc_at nc (fst cw)), snd cw)]
              else [])
           [(cat_perturbed, "perturbed"); (cat_up, "upregulated");
            (cat_down, "downregulated"); (cat_other, "other")].

Definition sum_counts (l : list (nat * string)) : nat :=
  fold_right (fun c acc => fst c + acc) 0 l.

(** The fixed colour of a category in the labeled figure. *)
Definition labeled_colour (category : string) : string :=
  if String.eqb category cat_other then "lightgray"
  else if String.eqb category cat_down then "blue"
  else if String.eqb category cat_up then "red"
  else "purple".

(** ** Python strings, as sequences of code points below 256 *)

Module PyStr.

(** [c.isspace()] *)
Definition isspace (c : Ascii.ascii) : bool :=
  let n := Ascii.nat_of_ascii c in
  (Nat.leb 9 n && Nat.leb n 13) || (Nat.leb 28 n && Nat.leb n 32)
  || Nat.eqb n 133 || Nat.eqb n 160.

(** [s.lstrip()] *)
Fixpoint lstrip (s : string) : string :=
  match s with
  | EmptyString => EmptyString
  | String c r => if isspace c then lstrip r else s
  end.

(** [s.rstrip()] *)
Fixpoint rstrip (s : string) : string :=
  match s with
  | EmptyString => EmptyString
  | String c r =>
      match rstrip r with
      | EmptyString => if isspace c then EmptyString else String c EmptyString
      | String c' r' => String c (String c' r')
      end
  end.

(** [s.strip()] *)
Definition strip (s : string) : string := rstrip (lstrip s).

(** [c in s] for a single character *)
Fixpoint contains_char (c : Ascii.ascii) (s : string) : bool :=
  match s with
  | EmptyString => false
  | String a r => Ascii.eqb a c || contains_char c r
  end.

(** [s.count(c)] for a single character *)
Fixpoint count_char (c : Ascii.ascii) (s : string) : nat :=
  match s with
  | EmptyString => 0
  | String a r => (if Ascii.eqb a c then 1 else 0) + count_char c r
  end.

(** [s.split(c)] for a single character *)
Fixpoint split (c : Ascii.ascii) (s : string) : list string :=
  match s with
  | EmptyString => [EmptyString]
  | String a r =>
      if Ascii.eqb a c then EmptyString :: split c r
      else
        match split c r with
        | [] => [String a EmptyString]
        | piece :: pieces => String a piece :: pieces
        end
  end.

(** [sep.join(l)] *)
Definition join (sep : string) (l : list string) : string :=
  String.concat sep l.

(** [bool(s)] *)
Definition nonempty_str (s : string) : bool :=
  match s with EmptyString => false | String _ _ => true end.

End PyStr.

Definition comma : Ascii.ascii := Ascii.ascii_of_nat 44.

(** [load_gene_list(gene_input)].  [read_lines path] stands for opening
    the file and iterating over its lines, [None] when that raises; the
    result [None] is [sys.exit(1)]. *)
Definition load_gene_list (read_lines : string -> option (list string))
    (gene_input : string) : option (list string) :=
  if PyStr.contains_char comma gene_input then
    Some (map PyStr.strip (PyStr.split comma gene_input))
  else
    match read_lines gene_input with
    | Some lines =>
        Some (map PyStr.strip
                  (filter (fun line => PyStr.nonempty_str (PyStr.strip line))
                          lines))
    | None => None
    end.

(** A file system with one gene file, three names and a blank line. *)
Definition sample_files (path : string) : option (list string) :=
  if String.eqb path "genes.txt"
  then Some [String.append "TP53" (String (Ascii.ascii_of_nat 10) "");
             String (Ascii.ascii_of_nat 10) "";
             String.append "  BRCA1 " (String (Ascii.ascii_of_nat 10) "");
             "MYC"]
  else None.

(** ** pandas frames as read from a file: labelled columns in order.
    [read_csv] makes the labels pairwise distinct. *)

Module Frame.
Section Columns.
Context {D : Type}.

Definition t : Type := list (string * D).

(** [df.columns] *)
Definition columns (df : t) : list string := map fst df.

(** [df.rename(columns=mapping)] *)
Definition rename (mapping : PyDict.dict string) (df : t) : t :=
  map (fun c => (match PyDict.get (fst c) mapping with
                 | Some new => new
                 | None => fst c
                 end, snd c)) df.

(** [df[name]] for a label that may occur once, several times or never. *)
Inductive selection : Type :=
| KeyError
| Column (data : D)
| SubFrame (labels : list string).

Definition getitem (name : string) (df : t) : selection :=
  match filter (fun c => String.eqb (fst c) name) df with
  | [] => KeyError
  | [c] => Column (snd c)
  | cs => SubFrame (map fst cs)
  end.

End Columns.
Arguments t D : clear implicits.
Arguments selection D : clear implicits.
End Frame.

(** [zip(df['source'], df['target'])]: iterating a column gives its cells,
    iterating a sub-frame gives its labels. *)
Definition iter_selection (s : Frame.selection (list string))
  : option (list string) :=
  match s with
  | Frame.KeyError => None
  | Frame.Column cells => Some cells
  | Frame.SubFrame labels => Some labels
  end.

(** [load_network], from the frame [read_csv] returned; [None] is
    [sys.exit(1)]. *)
Definition load_network (df : Frame.t (list string)) : option Nx.Graph :=
  let renamed :=
    if negb (str_in "source" (Frame.columns df))
       || negb (str_in "target" (Frame.columns df))
    then
      match df with
      | c0 :: c1 :: _ =>
          Some (Frame.rename
                  (PyDict.of_pairs [(fst c0, "source"); (fst c1, "target")])
                  df)
      | _ => None
      end
    else Some df in
  match renamed with
  | Some df =>
      match iter_selection (Frame.getitem "source" df),
            iter_selection (Frame.getitem "target" df) with
      | Some sources, Some targets =>
          Some (Nx.from_pandas_edgelist (combine sources targets))
      | _, _ => None
      end
  | None => None
  end.

(** An edge file whose header does not name its columns. *)
Definition sample_edge_frame : Frame.t (list string) :=
  [("protein1", ["A"; "B"]); ("protein2", ["B"; "C"]);
   ("combined_score", ["900"; "400"])].

(** [s.lower()] and [pat in s] *)
Definition lower_char (c : Ascii.ascii) : Ascii.ascii :=
  let n := Ascii.nat_of_ascii c in
  if (Nat.leb 65 n && Nat.leb n 90)
     || (Nat.leb 192 n && Nat.leb n 222 && negb (Nat.eqb n 215))
  then Ascii.ascii_of_nat (n + 32)
  else c.

Fixpoint lower (s : string) : string :=
  match s with
  | EmptyString => EmptyString
  | String c r => String (lower_char c) (lower r)
  end.

Fixpoint contains_sub (pat s : string) : bool :=
  String.prefix pat s
  || match s with
     | EmptyString => false
     | String _ r => contains_sub pat r
     end.

(** What [rename(columns={old: new})] does to one label. *)
Definition relabel (old new l : string) : string :=
  if String.eqb l old then new else l.

(** [column_mapping] of [load_degs] *)
Definition column_mapping : list (string * string) :=
  [("index", "gene"); ("log2FoldChange", "log2FC");
   ("padj", "padj"); ("pvalue", "pvalue")].

(** [for old_name, new_name in column_mapping.items(): ...] *)
Definition apply_column_mapping {D : Type} (df : Frame.t D) : Frame.t D :=
  fold_left (fun df m =>
               if str_in (fst m) (Frame.columns df)
               then Frame.rename [(fst m, snd m)] df
               else df)
            column_mapping df.

(** ['log2' in col.lower() and 'fold' in col.lower()] *)
Definition looks_like_log2fc (col : string) : bool :=
  contains_sub "log2" (lower col) && contains_sub "fold" (lower col).

(** [load_degs], from the frame [read_csv] returned.  [empty] is a column
    without cells; the frame [gene, log2FC] without rows is what the
    [except] branch returns, also when a statement of the body raises (no
    first column; a column set from a sub-frame). *)
Definition load_degs {D : Type} (empty : D) (df : Frame.t D) : Frame.t D :=
  let minimal := [("gene", empty); ("log2FC", empty)] in
  let df := apply_column_mapping df in
  let with_gene :=
    if str_in "gene" (Frame.columns df) then Some df
    else
      match df with
      | [] => None
      | c0 :: _ => Some (Frame.rename [(fst c0, "gene")] df)
      end in
  match with_gene with
  | None => minimal
  | Some df =>
      if str_in "log2FC" (Frame.columns df) then df
      else
        match find (fun c => looks_like_log2fc (fst c)) df with
        | Some c =>
            match Frame.getitem (fst c) df with
            | Frame.Column data => df ++ [("log2FC", data)]
            | _ => minimal
            end
        | None => df
        end
  end.

(** The frame has been through [load_degs] once: the labels the mapping
    replaces are gone, a gene column is there, and a fold-change column is
    there unless no label looks like one. *)
Definition normalised {D : Type} (df : Frame.t D) : Prop :=
  ~ In "index" (Frame.columns df) /\
  ~ In "log2FoldChange" (Frame.columns df) /\
  In "gene" (Frame.columns df) /\
  (In "log2FC" (Frame.columns df) \/
   find (fun c => looks_like_log2fc (fst c)) df = None).

(** A DESeq2 table read with its row names as the column [index]. *)
Definition sample_deseq_frame : Frame.t (list string) :=
  [("index", ["TP53"; "MYC"]); ("baseMean", ["10"; "20"]);
   ("log2FoldChange", ["2.5"; "-1.5"]); ("padj", ["0.01"; "0.2"])].

(** ** generate_string_network.py *)

(** A cell of a frame: text or a number. *)
Inductive cell : Type :=
| Str (s : string)
| Num (x : float).

(** The cells of a numeric column; [None] for a column with text in it,
    on which [.abs()] raises. *)
Fixpoint numeric (cells : list cell) : option (list float) :=
  match cells with
  | [] => Some []
  | Num x :: r =>
      match numeric r with
      | Some xs => Some (x :: xs)
      | None => None
      end
  | Str _ :: _ => None
  end.

(** The comparison of [sort_values('abs_log2FC', ascending=False)] on
    rows of any gene type: [r1] may stand in front of [r2]. *)
Definition before_by_abs {A : Type} (r1 r2 : A * float) : bool :=
  desc_na_last (fabs (snd r1)) (fabs (snd r2)).

(** [sorted_df[mask].head(top_n)['gene'].tolist()] *)
Definition top_genes {A : Type} (mask : float -> bool) (top_n : nat)
    (sorted_rows : list (A * float)) : list A :=
  map fst (firstn top_n (filter (fun r => mask (snd r)) sorted_rows)).

(** [load_deg_genes(deg_file, top_n)], from the frame [read_csv]
    returned.  Every exception of the body ends in [return [], []].
    [sort_by_abs] is the library's [sort_values('abs_log2FC',
    ascending=False)], a sort on one key as in the other script. *)
Definition load_deg_genes
    (sort_by_abs : list (cell * float) -> list (cell * float))
    (df : Frame.t (list cell)) (top_n : nat)
  : list cell * list cell :=
  let relabelled :=
    if negb (str_in "gene" (Frame.columns df))
       || negb (str_in "log2FC" (Frame.columns df))
    then
      match df with
      | c0 :: c1 :: rest =>
          Some (("gene", snd c0) :: ("log2FC", snd c1) :: rest)
      | _ => None
      end
    else Some df in
  match relabelled with
  | None => ([], [])
  | Some df =>
      match Frame.getitem "log2FC" df, Frame.getitem "gene" df with
      | Frame.Column fcs, Frame.Column genes =>
          match numeric fcs with
          | Some log2FC =>
              let sorted_df := sort_by_abs (combine genes log2FC) in
              (top_genes (fun fc => fgt fc (of_Z 0)) top_n sorted_df,
               top_genes (fun fc => flt fc (of_Z 0)) top_n sorted_df)
          | None => ([], [])
          end
      | _, _ => ([], [])
      end
  end.

(** How many rows that pass the mask have a larger absolute fold-change
    than row [b] (or have one when [b] has none). *)
Definition rows_ahead {A : Type} (mask : float -> bool)
    (rows : list (A * float)) (b : A * float) : nat :=
  List.length
    (filter (fun a => mask (snd a) && strictly_ahead before_by_abs a b) rows).

(** How many rows that pass the mask have an absolute fold-change that is
    not smaller than that of row [b]: [b] and its ties are counted. *)
Definition rows_not_behind {A : Type} (mask : float -> bool)
    (rows : list (A * float)) (b : A * float) : nat :=
  List.length (filter (fun a => mask (snd a) && before_by_abs a b) rows).

(** The stable sort, standing in for the library on the sample frame,
    and the stable sort of the table read from the bottom. *)
Definition stable_sort_by_abs {A : Type} (rows : list (A * float))
  : list (A * float) :=
  sort_values before_by_abs rows.

Definition reverse_sort_by_abs {A : Type} (rows : list (A * float))
  : list (A * float) :=
  sort_values before_by_abs (rev rows).

(** Four genes, A and B at 1/4, C and D at 1/2. *)
Definition tied_deg_frame : Frame.t (list cell) :=
  [("gene", [Str "A"; Str "B"; Str "C"; Str "D"]);
   ("log2FC", [Num (Fin (1 # 4)); Num (Fin (1 # 4)); Num (Fin (1 # 2));
               Num (Fin (1 # 2))])].

(** A table of four genes, one without a value and one at zero. *)
Definition sample_deg_frame : Frame.t (list cell) :=
  [("symbol", [Str "A"; Str "B"; Str "C"; Str "D"; Str "E"]);
   ("lfc", [Num (of_Z 2); Num (of_Z (-3)); Num NaN; Num (of_Z 0);
            Num (of_Z 5)])].

(** ** The text of a label *)

From Stdlib Require Import Qround Lqa DecimalString.

(** Rounding to the nearest integer, a tie going to the even one. *)
Definition round_half_even (y : Q) : Z :=
  let f := Qfloor y in
  match Qcompare (y - inject_Z f) (1 # 2) with
  | Lt => f
  | Gt => (f + 1)%Z
  | Eq => if Z.even f then f else (f + 1)%Z
  end.

Definition decimal (n : Z) : string :=
  NilZero.string_of_uint (Nat.to_uint (Z.to_nat n)).

(** The digits of a number of hundredths: integer part, point, two
    decimals. *)
Definition hundredths_text (h : Z) : string :=
  String.append (decimal (h / 100))
    (String.append "."
       (String.append (decimal ((h mod 100) / 10)) (decimal (h mod 10)))).

(** [f"{x:.2f}"] *)
Definition format_2f (x : float) : string :=
  match x with
  | NaN => "nan"
  | PosInf => "inf"
  | NegInf => "-inf"
  | Fin q =>
      String.append (if Qltb q 0 then "-" else "")
                    (hundredths_text (round_half_even (Qabs q * 100)))
  end.

(** The glyph in front of the value: the up arrow or the down arrow. *)
Inductive direction : Type :=
| ArrowUp
| ArrowDown.

(** [label_text]: the node name and, for a node with a fold-change, a
    second line made of the glyph and [abs(fc)] with two decimals. *)
Record label_text : Type := mkLabel {
  label_name : string;
  label_value : option (direction * string)
}.

Definition make_label (fold_changes : PyDict.dict float) (node : string)
  : label_text :=
  match PyDict.get node fold_changes with
  | Some fc =>
      mkLabel node
        (Some (if fgt fc (of_Z 0) then ArrowUp else ArrowDown,
               format_2f (fabs fc)))
  | None => mkLabel node None
  end.

(** * Facts about the Python containers *)

Lemma str_in_In (x : string) (l : list string) :
  str_in x l = true <-> In x l.
Proof.
  unfold str_in. rewrite existsb_exists. split.
  - intros [y [Hy Heq]]. apply String.eqb_eq in Heq. now subst.
  - intros H. exists x. split; [assumption | apply String.eqb_refl].
Qed.

Lemma str_in_false (x : string) (l : list string) :
  str_in x l = false <-> ~ In x l.
Proof.
  rewrite <- str_in_In. destruct (str_in x l); split; congruence.
Qed.

Module PyDictFacts.
Import PyDict.

Section Facts.
Context {V : Type}.
Implicit Types (d : dict V) (k : string) (v : V).

Lemma get_set_eq k v d : get k (set k v d) = Some v.
Proof.
  induction d as [|[k' v'] r IH]; simpl.
  - now rewrite String.eqb_refl.
  - destruct (String.eqb k k') eqn:E; simpl; rewrite E; auto.
Qed.

Lemma get_set_neq k k' v d : k <> k' -> get k' (set k v d) = get k' d.
Proof.
  intros Hne. induction d as [|[k0 v0] r IH]; simpl.
  - apply String.eqb_neq in Hne. rewrite String.eqb_sym, Hne. reflexivity.
  - destruct (String.eqb k k0) eqn:E; simpl.
    + apply String.eqb_eq in E. subst k0.
      assert (String.eqb k' k = false) as ->
          by (apply String.eqb_neq; congruence).
      reflexivity.
    + now rewrite IH.
Qed.

Lemma keys_set_In k v d x :
  In x (keys (set k v d)) <-> x = k \/ In x (keys d).
Proof.
  unfold keys. induction d as [|[k' v'] r IH]; simpl.
  - intuition.
  - destruct (String.eqb k k') eqn:E; simpl.
    + apply String.eqb_eq in E. subst. intuition.
    + rewrite IH. intuition.
Qed.

Lemma keys_set_NoDup k v d : NoDup (keys d) -> NoDup (keys (set k v d)).
Proof.
  unfold keys. induction d as [|[k' v'] r IH]; simpl; intros Hnd.
  - constructor; [intros [] | constructor].
  - inversion Hnd as [|? ? Hnin Hr]; subst.
    destruct (String.eqb k k') eqn:E; simpl.
    + constructor; assumption.
    + constructor; [| now apply IH].
      intros Hin. apply (keys_set_In k v r k') in Hin.
      destruct Hin as [-> | Hin]; [| contradiction].
      now rewrite String.eqb_refl in E.
Qed.

Lemma get_None_keys k d : get k d = None <-> ~ In k (keys d).
Proof.
  unfold keys. induction d as [|[k' v'] r IH]; simpl.
  - intuition.
  - destruct (String.eqb k k') eqn:E.
    + apply String.eqb_eq in E. subst. split; [discriminate | intuition].
    + apply String.eqb_neq in E. rewrite IH. intuition congruence.
Qed.

Lemma mem_keys k d : mem k d = true <-> In k (keys d).
Proof.
  unfold mem. destruct (get k d) eqn:E.
  - split; [intros _ | reflexivity].
    destruct (in_dec string_dec k (keys d)) as [|Hn]; [assumption |].
    apply get_None_keys in Hn. congruence.
  - apply get_None_keys in E. split; [discriminate | contradiction].
Qed.

Lemma get_In k v d : get k d = Some v -> In (k, v) d.
Proof.
  induction d as [|[k' v'] r IH]; simpl; [discriminate |].
  destruct (String.eqb k k') eqn:E.
  - apply String.eqb_eq in E. intros [= ->]. subst. now left.
  - intros H. right. now apply IH.
Qed.

Lemma In_get_NoDup k v d : NoDup (keys d) -> In (k, v) d -> get k d = Some v.
Proof.
  unfold keys. induction d as [|[k' v'] r IH]; simpl; [intros _ [] |].
  intros Hnd [Heq | Hin]; inversion Hnd as [|? ? Hnin Hr]; subst.
  - injection Heq as -> ->. now rewrite String.eqb_refl.
  - destruct (String.eqb k k') eqn:E.
    + apply String.eqb_eq in E. subst. exfalso. apply Hnin.
      change k' with (fst (k', v)). now apply in_map.
    + now apply IH.
Qed.

(** [set_each]: what a key holds after the loop. *)
Lemma get_set_each (upd : string -> option V) l d k :
  get k (set_each upd l d) =
  if str_in k l
  then match upd k with Some v => Some v | None => get k d end
  else get k d.
Proof.
  unfold set_each. revert d. induction l as [|x l IH]; intros d; simpl.
  - reflexivity.
  - rewrite IH. destruct (String.eqb k x) eqn:E; simpl.
    + apply String.eqb_eq in E. subst x.
      destruct (upd k) as [v|] eqn:U.
      * rewrite get_set_eq. now destruct (str_in k l).
      * now destruct (str_in k l).
    + apply String.eqb_neq in E.
      destruct (upd x) as [v|]; [| reflexivity].
      rewrite get_set_neq by congruence. reflexivity.
Qed.

Lemma keys_set_each_In (upd : string -> option V) l d k :
  In k (keys (set_each upd l d)) <->
  In k (keys d) \/ (In k l /\ upd k <> None).
Proof.
  unfold set_each. revert d. induction l as [|x l IH]; intros d; simpl.
  - intuition.
  - rewrite IH. destruct (upd x) as [v|] eqn:U.
    + rewrite keys_set_In. split.
      * intros [[-> | H] | [H1 H2]]; auto.
        right. split; [now left | congruence].
      * intros [H | [[-> | H1] H2]]; auto.
    + split.
      * intros [H | [H1 H2]]; auto.
      * intros [H | [[-> | H1] H2]]; auto. congruence.
Qed.

Lemma keys_set_each_NoDup (upd : string -> option V) l d :
  NoDup (keys d) -> NoDup (keys (set_each upd l d)).
Proof.
  unfold set_each. revert d. induction l as [|x l IH]; intros d Hnd; simpl.
  - assumption.
  - apply IH. destruct (upd x); [now apply keys_set_NoDup | assumption].
Qed.

End Facts.
End PyDictFacts.

Lemma fold_left_ext {A B : Type} (f g : A -> B -> A) (l : list B) (a : A) :
  (forall a x, f a x = g a x) -> fold_left f l a = fold_left g l a.
Proof.
  intros H. revert a. induction l as [|x l IH]; intros a; simpl.
  - reflexivity.
  - now rewrite H, IH.
Qed.

Module OfPairs.
Import PyDict PyDictFacts.

Section Facts.
Context {V : Type}.
Implicit Types (d : dict V) (k : string) (v : V).

Lemma get_app k d1 d2 :
  get k (d1 ++ d2) =
  match get k d1 with Some v => Some v | None => get k d2 end.
Proof.
  induction d1 as [|[k' v'] r IH]; simpl; [reflexivity |].
  now destruct (String.eqb k k').
Qed.

Lemma get_fold_pairs k (l : list (string * V)) d :
  get k (fold_left (fun d kv => set (fst kv) (snd kv) d) l d) =
  match get k (rev l) with Some v => Some v | None => get k d end.
Proof.
  revert d. induction l as [|[k0 v0] l IH]; intros d; simpl.
  - reflexivity.
  - rewrite IH, get_app. destruct (get k (rev l)); [reflexivity |].
    simpl. destruct (String.eqb k k0) eqn:E.
    + apply String.eqb_eq in E. subst. apply get_set_eq.
    + apply String.eqb_neq in E. apply get_set_neq. congruence.
Qed.

Lemma get_of_pairs_rev k (l : list (string * V)) :
  get k (of_pairs l) = get k (rev l).
Proof.
  unfold of_pairs. rewrite get_fold_pairs. now destruct (get k (rev l)).
Qed.

Lemma get_split k v d :
  get k d = Some v ->
  exists d1 d2, d = d1 ++ (k, v) :: d2 /\ ~ In k (keys d1).
Proof.
  induction d as [|[k' v'] r IH]; simpl; [discriminate |].
  destruct (String.eqb k k') eqn:E.
  - apply String.eqb_eq in E. intros [= ->]. subst.
    exists [], r. split; [reflexivity | intros []].
  - intros H. destruct (IH H) as (d1 & d2 & -> & Hn).
    exists ((k', v') :: d1), d2. split; [reflexivity |].
    simpl. intros [<- | Hin]; [| contradiction].
    now rewrite String.eqb_refl in E.
Qed.

(** [dict(zip(...))] keeps, for each gene, the value of its last row. *)
Lemma get_of_pairs_last k v (l : list (string * V)) :
  get k (of_pairs l) = Some v <-> last_occurrence l k v.
Proof.
  rewrite get_of_pairs_rev. split.
  - intros H. destruct (get_split _ _ _ H) as (d1 & d2 & Hrev & Hn).
    exists (rev d2), (rev d1). split.
    + rewrite <- (rev_involutive l), Hrev, rev_app_distr. simpl.
      now rewrite <- app_assoc.
    + intros Hin. apply Hn. unfold keys.
      rewrite map_rev in Hin. now apply in_rev in Hin.
  - intros (l1 & l2 & -> & Hn).
    rewrite rev_app_distr. simpl. rewrite <- app_assoc, get_app.
    assert (get k (rev l2) = None) as ->.
    { apply get_None_keys. unfold keys. rewrite map_rev.
      intros Hin. apply Hn. now apply in_rev. }
    simpl. now rewrite String.eqb_refl.
Qed.

Lemma get_of_pairs_None k (l : list (string * V)) :
  get k (of_pairs l) = None <-> ~ In k (map fst l).
Proof.
  rewrite get_of_pairs_rev, get_None_keys. unfold keys.
  rewrite map_rev. split; intros H Hin; apply H.
  - now apply in_rev in Hin.
  - now apply in_rev.
Qed.

End Facts.
End OfPairs.

(** * The category classifier *)

Module Classifier.
Import PyDict PyDictFacts OfPairs.

Lemma loop_other_eq (l : list string) (d : dict string) :
  fold_left (fun gc node => set node cat_other gc) l d =
  set_each upd_other l d.
Proof. reflexivity. Qed.

Lemma loop_perturbed_eq (G : Nx.Graph) (P : list string) (d : dict string) :
  fold_left (fun gc gene =>
               if str_in gene (Nx.nodes G)
               then set gene cat_perturbed gc else gc) P d =
  set_each (upd_perturbed G) P d.
Proof.
  apply fold_left_ext. intros a x. unfold upd_perturbed.
  now destruct (str_in x (Nx.nodes G)).
Qed.

Lemma loop_deg_eq (P : list string) (gene_to_fc : dict float)
    (l : list string) (d : dict string) :
  fold_left
    (fun gc gene =>
       match get gene gene_to_fc with
       | Some fc =>
           if negb (str_in gene P) then
             if isna fc then gc
             else if fgt fc (of_Z 1) then set gene cat_up gc
             else if flt fc (of_Z (-1)) then set gene cat_down gc
             else gc
           else gc
       | None => gc
       end) l d =
  set_each (upd_deg P gene_to_fc) l d.
Proof.
  apply fold_left_ext. intros a x. unfold upd_deg.
  destruct (get x gene_to_fc) as [fc|]; [| reflexivity].
  destruct (negb (str_in x P)); [| reflexivity].
  destruct (isna fc); [reflexivity |].
  destruct (fgt fc (of_Z 1)); [reflexivity |].
  now destruct (flt fc (of_Z (-1))).
Qed.

Lemma categorize_genes_loops P degs G :
  categorize_genes P degs G =
  match table_of degs with
  | Some rows =>
      set_each (upd_deg P (of_pairs rows)) (Nx.nodes G)
        (set_each (upd_perturbed G) P (set_each upd_other (Nx.nodes G) []))
  | None => set_each (upd_perturbed G) P (set_each upd_other (Nx.nodes G) [])
  end.
Proof.
  unfold categorize_genes, table_of. cbv zeta.
  rewrite loop_other_eq, loop_perturbed_eq.
  destruct degs as [df|]; [| reflexivity].
  destruct (col_log2FC df) as [fcs|]; [| reflexivity].
  apply loop_deg_eq.
Qed.

(** The loops of [categorize_genes] compute, node by node, the rule
    [classify]. *)
Lemma categorize_genes_get P degs G g :
  get g (categorize_genes P degs G) =
  if str_in g (Nx.nodes G) then Some (classify P (table_of degs) g) else None.
Proof.
  rewrite categorize_genes_loops. unfold classify.
  destruct (table_of degs) as [rows|]; rewrite !get_set_each;
    unfold upd_deg, upd_perturbed, upd_other; cbn [get];
    destruct (str_in g (Nx.nodes G)) eqn:HG;
    destruct (str_in g P) eqn:HP; cbn [negb]; try reflexivity.
  - now destruct (get g (of_pairs rows)).
  - destruct (get g (of_pairs rows)) as [fc|]; [| reflexivity].
    destruct (isna fc); [reflexivity |].
    destruct (fgt fc (of_Z 1)); [reflexivity |].
    now destruct (flt fc (of_Z (-1))).
Qed.

Lemma categorize_genes_keys P degs G g :
  In g (keys (categorize_genes P degs G)) <-> In g (Nx.nodes G).
Proof.
  rewrite <- mem_keys. unfold mem. rewrite categorize_genes_get.
  destruct (str_in g (Nx.nodes G)) eqn:E.
  - apply str_in_In in E. tauto.
  - apply str_in_false in E. split; [discriminate | contradiction].
Qed.

Lemma categorize_genes_NoDup P degs G :
  NoDup (keys (categorize_genes P degs G)).
Proof.
  rewrite categorize_genes_loops.
  destruct (table_of degs); repeat apply keys_set_each_NoDup; constructor.
Qed.

Lemma classify_cases P rows g :
  classify P rows g = cat_perturbed \/ classify P rows g = cat_up \/
  classify P rows g = cat_down \/ classify P rows g = cat_other.
Proof.
  unfold classify. destruct (str_in g P); [now left |].
  destruct rows as [rows|]; [| now do 3 right].
  destruct (get g (of_pairs rows)) as [fc|]; [| now do 3 right].
  destruct (isna fc); [now do 3 right |].
  destruct (fgt fc (of_Z 1)); [now right; left |].
  destruct (flt fc (of_Z (-1))); [now right; right; left | now do 3 right].
Qed.

End Classifier.

(** * Facts about float comparisons *)

Module PyFloatFacts.

Lemma Qltb_lt (x y : Q) : Qltb x y = true <-> (x < y)%Q.
Proof.
  unfold Qltb. rewrite negb_true_iff. split.
  - intros H. apply Qnot_le_lt. intros Hle.
    apply Qle_bool_iff in Hle. congruence.
  - intros H. destruct (Qle_bool y x) eqn:E; [| reflexivity].
    apply Qle_bool_iff in E. exfalso. now apply (Qlt_not_le x y).
Qed.

Lemma flt_Fin (x y : Q) : flt (Fin x) (Fin y) = true <-> (x < y)%Q.
Proof. apply Qltb_lt. Qed.

Lemma fle_Fin (x y : Q) : fle (Fin x) (Fin y) = true <-> (x <= y)%Q.
Proof. apply Qle_bool_iff. Qed.

Lemma fgt_one_Fin (q : Q) : fgt (Fin q) (of_Z 1) = true <-> (1 < q)%Q.
Proof. unfold fgt, of_Z. apply flt_Fin. Qed.

Lemma flt_minus_one_Fin (q : Q) :
  flt (Fin q) (of_Z (-1)) = true <-> (q < -1)%Q.
Proof. unfold of_Z. apply flt_Fin. Qed.

Lemma flt_irrefl_eq (x y : Q) : (x == y)%Q -> flt (Fin x) (Fin y) = false.
Proof.
  intros H. destruct (flt (Fin x) (Fin y)) eqn:E; [| reflexivity].
  apply flt_Fin in E. rewrite H in E. exfalso. now apply (Qlt_irrefl y).
Qed.

Lemma isna_false_cases (a : float) :
  isna a = false -> a = NegInf \/ (exists q, a = Fin q) \/ a = PosInf.
Proof.
  destruct a; simpl; intros H; try discriminate; eauto.
Qed.

Lemma fle_refl (a : float) : isna a = false -> fle a a = true.
Proof.
  destruct a; simpl; try discriminate; try reflexivity.
  intros _. apply Qle_bool_iff. apply Qle_refl.
Qed.

Lemma fle_total (a b : float) :
  isna a = false -> isna b = false -> fle a b = true \/ fle b a = true.
Proof.
  destruct a, b; simpl; try discriminate; auto.
  intros _ _. rewrite !Qle_bool_iff.
  destruct (Qlt_le_dec q q0) as [H|H]; [left; now apply Qlt_le_weak | now right].
Qed.

Lemma fle_trans (a b c : float) :
  fle a b = true -> fle b c = true -> fle a c = true.
Proof.
  destruct a, b, c; simpl; try discriminate; auto.
  rewrite !Qle_bool_iff. apply Qle_trans.
Qed.

Lemma flt_false_fle (a b : float) :
  isna a = false -> isna b = false -> flt a b = false -> fle b a = true.
Proof.
  destruct a, b; simpl; try discriminate; auto.
  intros _ _. unfold Qltb. now rewrite negb_false_iff.
Qed.

Lemma flt_fle (a b : float) : flt a b = true -> fle a b = true.
Proof.
  destruct a, b; simpl; try discriminate; auto.
  rewrite Qltb_lt, Qle_bool_iff. apply Qlt_le_weak.
Qed.

Lemma desc_na_last_total (a b : float) :
  desc_na_last a b = true \/ desc_na_last b a = true.
Proof.
  destruct a, b; simpl; auto.
  rewrite !Qle_bool_iff.
  destruct (Qlt_le_dec q q0) as [H|H]; [right; now apply Qlt_le_weak | now left].
Qed.

Lemma desc_na_last_trans (a b c : float) :
  desc_na_last a b = true -> desc_na_last b c = true ->
  desc_na_last a c = true.
Proof.
  destruct a, b, c; simpl; try discriminate; auto.
  rewrite !Qle_bool_iff. intros H1 H2. now apply Qle_trans with q0.
Qed.

End PyFloatFacts.
Import PyFloatFacts.

(** * Claims about the classifier *)

Section ClassifierClaims.
Import PyDict PyDictFacts OfPairs Classifier.

Variable perturbed_genes : list string.
Variable degs_df : option DataFrame.
Variable G : Nx.Graph.

(** C5 (totality of the category map).  The dictionary returned by
    [categorize_genes] has no repeated key, its keys are exactly the nodes
    of the graph, and every node is mapped to one category, one of
    perturbed, up, down and other, and to no second one. *)
Theorem categorize_genes_total :
  let gene_categories := categorize_genes perturbed_genes degs_df G in
  NoDup (keys gene_categories) /\
  (forall g, In g (keys gene_categories) <-> In g (Nx.nodes G)) /\
  (forall g, In g (Nx.nodes G) ->
     exists c, get g gene_categories = Some c /\
               In c [cat_perturbed; cat_up; cat_down; cat_other] /\
               forall c', In (g, c') (items gene_categories) -> c' = c).
Proof.
  cbv zeta. split; [apply categorize_genes_NoDup |].
  split; [apply categorize_genes_keys |].
  intros g Hg.
  exists (classify perturbed_genes (table_of degs_df) g).
  assert (Hget : get g (categorize_genes perturbed_genes degs_df G) =
                 Some (classify perturbed_genes (table_of degs_df) g)).
  { rewrite categorize_genes_get. apply str_in_In in Hg. now rewrite Hg. }
  split; [exact Hget |]. split.
  - destruct (classify_cases perturbed_genes (table_of degs_df) g)
      as [-> | [-> | [-> | ->]]]; simpl; auto.
  - intros c' Hin.
    apply (In_get_NoDup _ _ _ (categorize_genes_NoDup _ _ _)) in Hin.
    congruence.
Qed.

(** C2 (precedence).  A node of the graph that is listed among the
    perturbed genes has category perturbed, whatever table is given and
    whatever fold-change the table holds for it. *)
Theorem perturbed_takes_precedence (g : string) :
  In g (Nx.nodes G) -> In g perturbed_genes ->
  get g (categorize_genes perturbed_genes degs_df G) = Some cat_perturbed.
Proof.
  intros Hg Hp. rewrite categorize_genes_get.
  apply str_in_In in Hg. apply str_in_In in Hp.
  rewrite Hg. unfold classify. now rewrite Hp.
Qed.

(** C4 (strict boundary).  For a node outside the perturbed list: when
    the table gives it a fold-change equal to 1 or to -1, its category is
    other; category up is given only when the table gives it a fold-change
    strictly above 1, category down only when strictly below -1. *)
Theorem strict_boundary (g : string) :
  In g (Nx.nodes G) -> ~ In g perturbed_genes ->
  let gene_categories := categorize_genes perturbed_genes degs_df G in
  (forall rows q,
     table_of degs_df = Some rows -> last_occurrence rows g (Fin q) ->
     (q == 1 \/ q == -1)%Q ->
     get g gene_categories = Some cat_other) /\
  (get g gene_categories = Some cat_up ->
   exists rows fc, table_of degs_df = Some rows /\
                   last_occurrence rows g fc /\
                   fgt fc (of_Z 1) = true) /\
  (get g gene_categories = Some cat_down ->
   exists rows fc, table_of degs_df = Some rows /\
                   last_occurrence rows g fc /\
                   flt fc (of_Z (-1)) = true).
Proof.
  intros Hg Hp. cbv zeta. rewrite categorize_genes_get.
  apply str_in_In in Hg. apply str_in_false in Hp.
  rewrite Hg. unfold classify. rewrite Hp.
  split; [| split].
  - intros rows q -> Hlast Hq.
    apply get_of_pairs_last in Hlast. rewrite Hlast. cbn [isna].
    assert (fgt (Fin q) (of_Z 1) = false) as ->.
    { destruct (fgt (Fin q) (of_Z 1)) eqn:E; [| reflexivity].
      apply fgt_one_Fin in E. exfalso.
      destruct Hq as [Hq | Hq]; rewrite Hq in E; revert E; now compute. }
    assert (flt (Fin q) (of_Z (-1)) = false) as ->.
    { destruct (flt (Fin q) (of_Z (-1))) eqn:E; [| reflexivity].
      apply flt_minus_one_Fin in E. exfalso.
      destruct Hq as [Hq | Hq]; rewrite Hq in E; revert E; now compute. }
    reflexivity.
  - destruct (table_of degs_df) as [rows|]; [| discriminate].
    destruct (get g (of_pairs rows)) as [fc|] eqn:E; [| discriminate].
    destruct (isna fc); [discriminate |].
    destruct (fgt fc (of_Z 1)) eqn:E1.
    + intros _. exists rows, fc. apply get_of_pairs_last in E. auto.
    + destruct (flt fc (of_Z (-1))); discriminate.
  - destruct (table_of degs_df) as [rows|]; [| discriminate].
    destruct (get g (of_pairs rows)) as [fc|] eqn:E; [| discriminate].
    destruct (isna fc); [discriminate |].
    destruct (fgt fc (of_Z 1)) eqn:E1; [discriminate |].
    destruct (flt fc (of_Z (-1))) eqn:E2; [| discriminate].
    intros _. exists rows, fc. apply get_of_pairs_last in E. auto.
Qed.

End ClassifierClaims.

Lemma perturbed_takes_precedence_witness :
  PyDict.get "A" (categorize_genes ["A"] sample_degs sample_graph)
  = Some cat_perturbed.
Proof.
  apply perturbed_takes_precedence; simpl; auto.
Defined.

Lemma strict_boundary_witness :
  PyDict.get "B" (categorize_genes [] boundary_degs sample_graph)
  = Some cat_other.
Proof.
  destruct (strict_boundary [] boundary_degs sample_graph "B") as [H _].
  - simpl; auto.
  - simpl; tauto.
  - apply (H [("B", of_Z 1); ("C", of_Z (-1))] 1%Q).
    + reflexivity.
    + exists [], [("C", of_Z (-1))]. split; [reflexivity |].
      simpl. intros [Hc | []]. discriminate.
    + left. reflexivity.
Defined.

(** * The fold-change map *)

Module FoldChanges.
Import PyDict PyDictFacts OfPairs.

Lemma fold_changes_loop G degs :
  fold_changes_of G degs =
  match table_of degs with
  | Some rows => set_each (upd_fc (of_pairs rows)) (Nx.nodes G) []
  | None => []
  end.
Proof.
  unfold fold_changes_of, table_of.
  destruct degs as [df|]; [| reflexivity].
  destruct (col_log2FC df) as [fcs|]; [| reflexivity].
  apply fold_left_ext. intros a x. unfold upd_fc.
  destruct (get x (of_pairs (zip_gene_fc df fcs))) as [v|]; [| reflexivity].
  now destruct (negb (isna v)).
Qed.

Lemma fold_changes_get G degs g :
  get g (fold_changes_of G degs) =
  if str_in g (Nx.nodes G) then
    match table_of degs with
    | Some rows => upd_fc (of_pairs rows) g
    | None => None
    end
  else None.
Proof.
  rewrite fold_changes_loop.
  destruct (table_of degs) as [rows|].
  - rewrite get_set_each. cbn [get].
    destruct (str_in g (Nx.nodes G)); [| reflexivity].
    now destruct (upd_fc (of_pairs rows) g).
  - now destruct (str_in g (Nx.nodes G)).
Qed.

Lemma fold_changes_NoDup G degs : NoDup (keys (fold_changes_of G degs)).
Proof.
  rewrite fold_changes_loop. destruct (table_of degs).
  - apply keys_set_each_NoDup. constructor.
  - constructor.
Qed.

Lemma fold_changes_get_Some G degs g v :
  get g (fold_changes_of G degs) = Some v <->
  In g (Nx.nodes G) /\
  exists rows, table_of degs = Some rows /\
               last_occurrence rows g v /\ isna v = false.
Proof.
  rewrite fold_changes_get. split.
  - destruct (str_in g (Nx.nodes G)) eqn:Hg; [| discriminate].
    apply str_in_In in Hg.
    destruct (table_of degs) as [rows|]; [| discriminate].
    unfold upd_fc. destruct (get g (of_pairs rows)) as [w|] eqn:E;
      [| discriminate].
    destruct (isna w) eqn:Hw; [discriminate |].
    intros [= <-]. split; [assumption |]. exists rows.
    apply get_of_pairs_last in E. auto.
  - intros [Hg (rows & -> & Hlast & Hv)].
    apply str_in_In in Hg. rewrite Hg. unfold upd_fc.
    apply get_of_pairs_last in Hlast. now rewrite Hlast, Hv.
Qed.

Lemma fold_changes_not_nan G degs g v :
  get g (fold_changes_of G degs) = Some v -> isna v = false.
Proof.
  intros H. apply fold_changes_get_Some in H.
  now destruct H as [_ (rows & _ & _ & Hv)].
Qed.

End FoldChanges.

Section FoldChangeClaims.
Import PyDict PyDictFacts OfPairs Classifier FoldChanges.

(** C7, as written, fails: gene A is a node and has a row with the value 2,
    but its last row has no value, so A is not in the fold-change map. *)
Lemma fold_change_map_as_written_fails :
  ~ fold_change_map_as_written sample_graph repeated_degs.
Proof.
  intros H. destruct (H "A") as [_ Hback].
  assert (Hin : In "A" (keys (fold_changes_of sample_graph repeated_degs))).
  { apply Hback. split; [simpl; auto |].
    exists [("A", of_Z 2); ("A", NaN)], (of_Z 2).
    split; [reflexivity |]. split; [simpl; auto | reflexivity]. }
  vm_compute in Hin. exact Hin.
Qed.

(** C7, amended.  A node is in the fold-change map exactly when it is a
    graph node whose last row in the table has a value that is not NaN;
    the value recorded for it is the one of its last row; no NaN is ever
    recorded; and a node whose last row holds NaN is neither in the map
    nor categorized up or down. *)
Theorem fold_change_map_construction
    (G : Nx.Graph) (degs_df : option DataFrame)
    (perturbed_genes : list string) (g : string) :
  let fold_changes := fold_changes_of G degs_df in
  let gene_categories := categorize_genes perturbed_genes degs_df G in
  (In g (keys fold_changes) <->
   In g (Nx.nodes G) /\
   exists rows v, table_of degs_df = Some rows /\
                  last_occurrence rows g v /\ isna v = false) /\
  (forall v, get g fold_changes = Some v ->
     exists rows, table_of degs_df = Some rows /\ last_occurrence rows g v) /\
  (forall v, get g fold_changes = Some v -> isna v = false) /\
  (forall rows, table_of degs_df = Some rows -> last_occurrence rows g NaN ->
     ~ In g (keys fold_changes) /\
     get g gene_categories <> Some cat_up /\
     get g gene_categories <> Some cat_down).
Proof.
  cbv zeta. split; [| split; [| split]].
  - rewrite <- mem_keys. unfold mem. split.
    + destruct (get g (fold_changes_of G degs_df)) as [v|] eqn:E;
        [| discriminate].
      intros _. apply fold_changes_get_Some in E.
      destruct E as [Hg (rows & Ht & Hl & Hv)].
      split; [assumption |]. now exists rows, v.
    + intros [Hg (rows & v & Ht & Hl & Hv)].
      assert (E : get g (fold_changes_of G degs_df) = Some v).
      { apply fold_changes_get_Some. split; [assumption |]. now exists rows. }
      now rewrite E.
  - intros v E. apply fold_changes_get_Some in E.
    destruct E as [_ (rows & Ht & Hl & _)]. now exists rows.
  - intros v. apply fold_changes_not_nan.
  - intros rows Ht Hl. apply get_of_pairs_last in Hl. split; [| split].
    + apply get_None_keys. rewrite fold_changes_get, Ht.
      unfold upd_fc. rewrite Hl. now destruct (str_in g (Nx.nodes G)).
    + rewrite categorize_genes_get, Ht. unfold classify. rewrite Hl.
      destruct (str_in g (Nx.nodes G)); [| discriminate].
      destruct (str_in g perturbed_genes); discriminate.
    + rewrite categorize_genes_get, Ht. unfold classify. rewrite Hl.
      destruct (str_in g (Nx.nodes G)); [| discriminate].
      destruct (str_in g perturbed_genes); discriminate.
Qed.

End FoldChangeClaims.

(** * The colour domain *)

Module ColorDomain.
Import PyDict PyDictFacts FoldChanges.

Lemma min2_spec (a b : float) :
  isna a = false -> isna b = false ->
  (min2 a b = a \/ min2 a b = b) /\
  fle (min2 a b) a = true /\ fle (min2 a b) b = true /\
  isna (min2 a b) = false.
Proof.
  intros Ha Hb. unfold min2. destruct (flt b a) eqn:E.
  - repeat split; auto using flt_fle, fle_refl.
  - repeat split; auto using flt_false_fle, fle_refl.
Qed.

Lemma max2_spec (a b : float) :
  isna a = false -> isna b = false ->
  (max2 a b = a \/ max2 a b = b) /\
  fle a (max2 a b) = true /\ fle b (max2 a b) = true /\
  isna (max2 a b) = false.
Proof.
  intros Ha Hb. unfold max2, fgt. destruct (flt a b) eqn:E.
  - repeat split; auto using flt_fle, fle_refl.
  - repeat split; auto using flt_false_fle, fle_refl.
Qed.

Lemma fold_min2_spec (r : list float) (x : float) :
  isna x = false -> (forall y, In y r -> isna y = false) ->
  is_min (fold_left min2 r x) (x :: r) /\ isna (fold_left min2 r x) = false.
Proof.
  revert x. induction r as [|y r IH]; intros x Hx Hr; simpl.
  - split; [| assumption]. split; [now left |].
    intros z [<- | []]. now apply fle_refl.
  - assert (Hy : isna y = false) by (apply Hr; now left).
    destruct (min2_spec x y Hx Hy) as (Hor & Hlx & Hly & Hna).
    destruct (IH (min2 x y) Hna) as [[Hin Hle] Hna'].
    { intros z Hz. apply Hr. now right. }
    split; [| assumption]. split.
    + destruct Hin as [Heq | Hin]; [| now right; right].
      rewrite <- Heq. destruct Hor as [-> | ->]; [now left | now right; left].
    + intros z [<- | [<- | Hz]].
      * eapply fle_trans; [apply Hle; now left | assumption].
      * eapply fle_trans; [apply Hle; now left | assumption].
      * apply Hle. now right.
Qed.

Lemma fold_max2_spec (r : list float) (x : float) :
  isna x = false -> (forall y, In y r -> isna y = false) ->
  is_max (fold_left max2 r x) (x :: r) /\ isna (fold_left max2 r x) = false.
Proof.
  revert x. induction r as [|y r IH]; intros x Hx Hr; simpl.
  - split; [| assumption]. split; [now left |].
    intros z [<- | []]. now apply fle_refl.
  - assert (Hy : isna y = false) by (apply Hr; now left).
    destruct (max2_spec x y Hx Hy) as (Hor & Hlx & Hly & Hna).
    destruct (IH (max2 x y) Hna) as [[Hin Hle] Hna'].
    { intros z Hz. apply Hr. now right. }
    split; [| assumption]. split.
    + destruct Hin as [Heq | Hin]; [| now right; right].
      rewrite <- Heq. destruct Hor as [-> | ->]; [now left | now right; left].
    + intros z [<- | [<- | Hz]].
      * eapply fle_trans; [eassumption | apply Hle; now left].
      * eapply fle_trans; [eassumption | apply Hle; now left].
      * apply Hle. now right.
Qed.

(** Every value handed to the colour scale was read from [fold_changes],
    so none of them is NaN. *)
Lemma perturbed_fc_not_nan G degs (ps : list string) (x : float) :
  In x (perturbed_fc ps (fold_changes_of G degs)) -> isna x = false.
Proof.
  unfold perturbed_fc, perturbed_with_fc. rewrite in_map_iff.
  intros [[g v] [<- Hin]]. apply in_flat_map in Hin.
  destruct Hin as [g' [_ Hin]].
  destruct (get g' (fold_changes_of G degs)) as [w|] eqn:E; [| contradiction].
  destruct Hin as [[= <- <-] | []]. simpl.
  now apply fold_changes_not_nan in E.
Qed.

End ColorDomain.

(** C3 (colour domain).  Whenever the scale is built from a non-empty list
    of fold-changes read from the fold-change map, the domain is
    [vmin = min(lo, -1)] and [vmax = max(hi, 1)] where [lo] and [hi] are the
    least and the greatest observed value; hence [vmin <= -1], [vmin <= lo],
    [1 <= vmax] and [hi <= vmax]. *)
Theorem color_domain_rule (G : Nx.Graph) (degs_df : option DataFrame)
    (ps : list string) :
  let observed := perturbed_fc ps (fold_changes_of G degs_df) in
  observed <> [] ->
  exists lo hi vmin vmax,
    color_domain observed = Some (vmin, vmax) /\
    is_min lo observed /\ is_max hi observed /\
    vmin = min2 lo (of_Z (-1)) /\ vmax = max2 hi (of_Z 1) /\
    (vmin = lo \/ vmin = of_Z (-1)) /\
    fle vmin lo = true /\ fle vmin (of_Z (-1)) = true /\
    (vmax = hi \/ vmax = of_Z 1) /\
    fle hi vmax = true /\ fle (of_Z 1) vmax = true.
Proof.
  cbv zeta. intros Hne.
  pose proof (ColorDomain.perturbed_fc_not_nan G degs_df ps) as Hnan.
  destruct (perturbed_fc ps (fold_changes_of G degs_df)) as [|x r];
    [congruence |].
  assert (Hx : isna x = false) by (apply Hnan; now left).
  assert (Hr : forall y, In y r -> isna y = false)
    by (intros y Hy; apply Hnan; now right).
  destruct (ColorDomain.fold_min2_spec r x Hx Hr) as [Hmin Hlo].
  destruct (ColorDomain.fold_max2_spec r x Hx Hr) as [Hmax Hhi].
  exists (fold_left min2 r x), (fold_left max2 r x),
         (min2 (fold_left min2 r x) (of_Z (-1))),
         (max2 (fold_left max2 r x) (of_Z 1)).
  destruct (ColorDomain.min2_spec _ (of_Z (-1)) Hlo eq_refl)
    as (Hor1 & Hl1 & Hl2 & _).
  destruct (ColorDomain.max2_spec _ (of_Z 1) Hhi eq_refl)
    as (Hor2 & Hh1 & Hh2 & _).
  repeat split; try assumption; try reflexivity;
    try apply Hmin; try apply Hmax.
Qed.

Lemma color_domain_rule_witness :
  exists lo hi vmin vmax,
    color_domain (perturbed_fc ["A"] (fold_changes_of sample_graph sample_degs))
    = Some (vmin, vmax) /\
    is_min lo (perturbed_fc ["A"] (fold_changes_of sample_graph sample_degs)) /\
    is_max hi (perturbed_fc ["A"] (fold_changes_of sample_graph sample_degs)) /\
    vmin = min2 lo (of_Z (-1)) /\ vmax = max2 hi (of_Z 1) /\
    (vmin = lo \/ vmin = of_Z (-1)) /\
    fle vmin lo = true /\ fle vmin (of_Z (-1)) = true /\
    (vmax = hi \/ vmax = of_Z 1) /\
    fle hi vmax = true /\ fle (of_Z 1) vmax = true.
Proof.
  apply (color_domain_rule sample_graph sample_degs ["A"]).
  vm_compute. discriminate.
Defined.

(** * Grouping the nodes by category *)

Module Organize.
Import PyDict PyDictFacts Classifier.

Lemma nodes_of_category_In (gc : dict string) (c n : string) :
  In n (nodes_of_category gc c) <-> In (n, c) gc.
Proof.
  unfold nodes_of_category, items. rewrite in_map_iff. split.
  - intros [[n' c'] [Hn Hin]]. simpl in Hn. subst n'.
    apply filter_In in Hin. destruct Hin as [Hin Heq].
    apply String.eqb_eq in Heq. simpl in Heq. now subst.
  - intros Hin. exists (n, c). split; [reflexivity |].
    apply filter_In. split; [assumption | apply String.eqb_refl].
Qed.

Lemma nodes_of_category_get (gc : dict string) (c n : string) :
  NoDup (keys gc) ->
  In n (nodes_of_category gc c) <-> get n gc = Some c.
Proof.
  intros Hnd. rewrite nodes_of_category_In. split.
  - now apply In_get_NoDup.
  - apply get_In.
Qed.

Lemma organize_fold (l : list (string * string)) (a b c e : list string) :
  (forall item, In item l -> In (snd item) four_categories) ->
  fold_left
    (fun acc item =>
       match acc with
       | None => None
       | Some nc =>
           match get (snd item) nc with
           | Some l => Some (set (snd item) (l ++ [fst item]) nc)
           | None => None
           end
       end)
    l (Some [(cat_perturbed, a); (cat_up, b); (cat_down, c); (cat_other, e)])
  = Some [(cat_perturbed, a ++ nodes_of_category l cat_perturbed);
          (cat_up, b ++ nodes_of_category l cat_up);
          (cat_down, c ++ nodes_of_category l cat_down);
          (cat_other, e ++ nodes_of_category l cat_other)].
Proof.
  revert a b c e. induction l as [|[n cat] l IH]; intros a b c e Hall.
  - simpl. now rewrite !app_nil_r.
  - assert (Hcat : In cat four_categories) by (apply (Hall (n, cat)); now left).
    assert (Hl : forall item, In item l -> In (snd item) four_categories)
      by (intros item Hi; apply Hall; now right).
    unfold four_categories in Hcat. simpl in Hcat.
    destruct Hcat as [<- | [<- | [<- | [<- | []]]]];
      cbn [fold_left fst snd]; cbv [cat_perturbed cat_up cat_down cat_other];
      cbn [get set String.eqb Ascii.eqb Bool.eqb];
      fold cat_perturbed cat_up cat_down cat_other in *;
      rewrite (IH _ _ _ _ Hl);
      unfold nodes_of_category, items;
      cbv [cat_perturbed cat_up cat_down cat_other];
      cbn [filter snd String.eqb Ascii.eqb Bool.eqb map fst];
      rewrite <- ?app_assoc; reflexivity.
Qed.

Lemma organize_Some (gc : dict string) :
  (forall item, In item gc -> In (snd item) four_categories) ->
  organize gc =
  Some [(cat_perturbed, nodes_of_category gc cat_perturbed);
        (cat_up, nodes_of_category gc cat_up);
        (cat_down, nodes_of_category gc cat_down);
        (cat_other, nodes_of_category gc cat_other)].
Proof.
  intros H. exact (organize_fold gc [] [] [] [] H).
Qed.

Lemma categorize_genes_values P degs G item :
  In item (categorize_genes P degs G) -> In (snd item) four_categories.
Proof.
  destruct item as [g c]. intros Hin.
  apply (In_get_NoDup _ _ _ (categorize_genes_NoDup P degs G)) in Hin.
  rewrite categorize_genes_get in Hin.
  destruct (str_in g (Nx.nodes G)); [| discriminate].
  injection Hin as <-. unfold four_categories. simpl.
  destruct (classify_cases P (table_of degs) g) as [-> | [-> | [-> | ->]]];
    auto.
Qed.

Lemma organize_categorize P degs G :
  let gc := categorize_genes P degs G in
  organize gc =
  Some [(cat_perturbed, nodes_of_category gc cat_perturbed);
        (cat_up, nodes_of_category gc cat_up);
        (cat_down, nodes_of_category gc cat_down);
        (cat_other, nodes_of_category gc cat_other)].
Proof.
  cbv zeta. apply organize_Some. apply categorize_genes_values.
Qed.

End Organize.

(** * What is drawn, and in which colour *)

Module Drawing.
Import PyDict PyDictFacts Classifier FoldChanges Organize.

Lemma In_draw_if_any (l : list string) (c : string) (d : draw_nodes) :
  In d (draw_if_any l c) <-> l <> [] /\ d = mkDraw l (Named c).
Proof.
  unfold draw_if_any. destruct l as [|x l]; simpl.
  - split; [intros [] | intros [H _]; congruence].
  - split.
    + intros [<- | []]. split; [discriminate | reflexivity].
    + intros [_ ->]. now left.
Qed.

Lemma perturbed_with_fc_In (ps : list string) (fcs : dict float) n v :
  In (n, v) (perturbed_with_fc ps fcs) <-> In n ps /\ get n fcs = Some v.
Proof.
  unfold perturbed_with_fc. rewrite in_flat_map. split.
  - intros [g [Hg Hin]]. destruct (get g fcs) as [w|] eqn:E; [| contradiction].
    destruct Hin as [[= <- <-] | []]. auto.
  - intros [Hn Hget]. exists n. split; [assumption |].
    rewrite Hget. now left.
Qed.

Lemma valid_perturbed_In (ps : list string) (fcs : dict float) n :
  In n (valid_perturbed ps fcs) <-> In n ps /\ In n (keys fcs).
Proof.
  unfold valid_perturbed. rewrite in_map_iff. split.
  - intros [[n' v] [Hn Hin]]. simpl in Hn. subst n'.
    apply perturbed_with_fc_In in Hin. destruct Hin as [Hp Hget].
    split; [assumption |]. apply mem_keys. unfold mem. now rewrite Hget.
  - intros [Hp Hk]. apply mem_keys in Hk. unfold mem in Hk.
    destruct (get n fcs) as [v|] eqn:E; [| discriminate].
    exists (n, v). split; [reflexivity |]. now apply perturbed_with_fc_In.
Qed.

Lemma combine_valid_perturbed (ps : list string) (fcs : dict float) :
  combine (valid_perturbed ps fcs) (perturbed_fc ps fcs)
  = perturbed_with_fc ps fcs.
Proof.
  unfold valid_perturbed, perturbed_fc.
  induction (perturbed_with_fc ps fcs) as [|[n v] l IH]; simpl;
    [reflexivity | now rewrite IH].
Qed.

Lemma perturbed_fc_length (ps : list string) (fcs : dict float) :
  List.length (perturbed_fc ps fcs) = List.length (valid_perturbed ps fcs).
Proof. unfold valid_perturbed, perturbed_fc. now rewrite !length_map. Qed.

Lemma color_domain_Some_nonempty (l : list float) (p : float * float) :
  color_domain l = Some p -> l <> [].
Proof. destruct l; [discriminate | discriminate]. Qed.

Lemma perturbed_with_fc_valid (ps : list string) (fcs : dict float) :
  perturbed_with_fc (valid_perturbed ps fcs) fcs = perturbed_with_fc ps fcs.
Proof.
  unfold valid_perturbed, perturbed_with_fc.
  induction ps as [|p ps IH]; simpl; [reflexivity |].
  destruct (get p fcs) as [v|] eqn:E; simpl; [| exact IH].
  rewrite E. simpl. now rewrite IH.
Qed.

Lemma perturbed_fc_valid (ps : list string) (fcs : dict float) :
  perturbed_fc (valid_perturbed ps fcs) fcs = perturbed_fc ps fcs.
Proof. unfold perturbed_fc. now rewrite perturbed_with_fc_valid. Qed.

End Drawing.

(** * Building the graph *)

Module GraphFacts.
Import PyDict PyDictFacts.

Lemma add_node_nodes (n : string) (G : Nx.Graph) (x : string) :
  In x (Nx.nodes (Nx.add_node n G)) <-> x = n \/ In x (Nx.nodes G).
Proof.
  unfold Nx.add_node, Nx.nodes. destruct (mem n G) eqn:E.
  - apply mem_keys in E. split; [now right | intros [-> | H]; assumption].
  - apply keys_set_In.
Qed.

Lemma add_node_NoDup (n : string) (G : Nx.Graph) :
  NoDup (Nx.nodes G) -> NoDup (Nx.nodes (Nx.add_node n G)).
Proof.
  unfold Nx.add_node, Nx.nodes. destruct (mem n G); [trivial |].
  apply keys_set_NoDup.
Qed.

Lemma add_nbr_nodes (u v : string) (G : Nx.Graph) (x : string) :
  In x (Nx.nodes (Nx.add_nbr u v G)) <-> In x (Nx.nodes G).
Proof.
  unfold Nx.add_nbr, Nx.nodes. destruct (get u G) as [ns|] eqn:E;
    [| reflexivity].
  rewrite keys_set_In. split; [| now right].
  intros [-> | H]; [| assumption].
  apply mem_keys. unfold mem. now rewrite E.
Qed.

Lemma add_nbr_NoDup (u v : string) (G : Nx.Graph) :
  NoDup (Nx.nodes G) -> NoDup (Nx.nodes (Nx.add_nbr u v G)).
Proof.
  unfold Nx.add_nbr, Nx.nodes. destruct (get u G); [| trivial].
  apply keys_set_NoDup.
Qed.

Lemma add_edge_nodes (u v : string) (G : Nx.Graph) (x : string) :
  In x (Nx.nodes (Nx.add_edge u v G)) <-> x = u \/ x = v \/ In x (Nx.nodes G).
Proof.
  unfold Nx.add_edge. rewrite !add_nbr_nodes, !add_node_nodes. tauto.
Qed.

Lemma add_edge_NoDup (u v : string) (G : Nx.Graph) :
  NoDup (Nx.nodes G) -> NoDup (Nx.nodes (Nx.add_edge u v G)).
Proof.
  intros H. unfold Nx.add_edge.
  now repeat (apply add_nbr_NoDup || apply add_node_NoDup).
Qed.

Lemma add_edges_from_nodes (E : list (string * string)) (G : Nx.Graph) x :
  In x (Nx.nodes (Nx.add_edges_from E G)) <->
  In x (Nx.nodes G) \/ In x (endpoints E).
Proof.
  unfold Nx.add_edges_from. revert G.
  induction E as [|[u v] E IH]; intros G; simpl.
  - tauto.
  - rewrite IH, add_edge_nodes.
    fold (endpoints E). intuition (subst; auto).
Qed.

Lemma add_edges_from_NoDup (E : list (string * string)) (G : Nx.Graph) :
  NoDup (Nx.nodes G) -> NoDup (Nx.nodes (Nx.add_edges_from E G)).
Proof.
  unfold Nx.add_edges_from. revert G.
  induction E as [|[u v] E IH]; intros G H; simpl; [assumption |].
  apply IH. now apply add_edge_NoDup.
Qed.

Lemma str_in_app (x : string) (l1 l2 : list string) :
  str_in x (l1 ++ l2) = str_in x l1 || str_in x l2.
Proof. unfold str_in. apply existsb_app. Qed.

Lemma add_node_has_edge (n : string) (G : Nx.Graph) (a b : string) :
  Nx.has_edge (Nx.add_node n G) a b = Nx.has_edge G a b.
Proof.
  unfold Nx.add_node, Nx.has_edge, mem.
  destruct (get n G) as [ns|] eqn:E; [reflexivity |].
  destruct (String.eqb_spec n a) as [<- | Hne].
  - now rewrite get_set_eq, E.
  - now rewrite get_set_neq.
Qed.

Lemma add_node_mem (n : string) (G : Nx.Graph) :
  mem n (Nx.add_node n G) = true.
Proof.
  apply mem_keys. apply (add_node_nodes n G n). now left.
Qed.

Lemma add_node_mem_mono (n m : string) (G : Nx.Graph) :
  mem m G = true -> mem m (Nx.add_node n G) = true.
Proof.
  rewrite !mem_keys. intros H. apply (add_node_nodes n G m). now right.
Qed.

Lemma add_nbr_mem (u v m : string) (G : Nx.Graph) :
  mem m (Nx.add_nbr u v G) = mem m G.
Proof.
  destruct (mem m G) eqn:E.
  - apply mem_keys. apply add_nbr_nodes. now apply mem_keys.
  - destruct (mem m (Nx.add_nbr u v G)) eqn:E'; [| reflexivity].
    apply mem_keys in E'. apply add_nbr_nodes in E'. apply mem_keys in E'.
    congruence.
Qed.

Lemma add_nbr_has_edge (u v : string) (G : Nx.Graph) (a b : string) :
  mem u G = true ->
  Nx.has_edge (Nx.add_nbr u v G) a b = true <->
  Nx.has_edge G a b = true \/ (a = u /\ b = v).
Proof.
  unfold mem, Nx.add_nbr, Nx.has_edge.
  destruct (get u G) as [ns|] eqn:E; [intros _ | discriminate].
  destruct (String.eqb_spec u a) as [<- | Hne].
  - rewrite get_set_eq, E. destruct (str_in v ns) eqn:Hv.
    + split; [now left |]. intros [H | [_ ->]]; assumption.
    + rewrite str_in_app, orb_true_iff. simpl. rewrite orb_false_r.
      rewrite String.eqb_eq. split.
      * intros [H | ->]; [now left | now right].
      * intros [H | [_ ->]]; [now left | now right].
  - rewrite get_set_neq by assumption. split; [now left |].
    intros [H | [-> _]]; [assumption | congruence].
Qed.

Lemma add_edge_has_edge (u v : string) (G : Nx.Graph) (a b : string) :
  Nx.has_edge (Nx.add_edge u v G) a b = true <->
  Nx.has_edge G a b = true \/ (a = u /\ b = v) \/ (a = v /\ b = u).
Proof.
  unfold Nx.add_edge.
  rewrite add_nbr_has_edge
    by (rewrite add_nbr_mem; apply add_node_mem).
  rewrite add_nbr_has_edge
    by (apply add_node_mem_mono; apply add_node_mem).
  rewrite !add_node_has_edge. tauto.
Qed.

Lemma add_edges_from_has_edge (E : list (string * string)) (G : Nx.Graph) a b :
  Nx.has_edge (Nx.add_edges_from E G) a b = true <->
  Nx.has_edge G a b = true \/ In (a, b) E \/ In (b, a) E.
Proof.
  unfold Nx.add_edges_from. revert G.
  induction E as [|[u v] E IH]; intros G; simpl.
  - tauto.
  - rewrite IH, add_edge_has_edge. split.
    + intros [[H | [[-> ->] | [-> ->]]] | [H | H]]; auto.
    + intros [H | [[[= -> ->] | H] | [[= -> ->] | H]]]; auto.
Qed.

Lemma endpoints_In (E : list (string * string)) (g : string) :
  In g (endpoints E) <-> exists e, In e E /\ (g = fst e \/ g = snd e).
Proof.
  unfold endpoints. rewrite in_flat_map. split.
  - intros [e [He Hg]]. exists e. simpl in Hg. intuition.
  - intros [e [He Hg]]. exists e. simpl. intuition.
Qed.

Lemma endpoints_app (E1 E2 : list (string * string)) :
  endpoints (E1 ++ E2) = endpoints E1 ++ endpoints E2.
Proof. unfold endpoints. apply flat_map_app. Qed.

End GraphFacts.

(** C9 (round trip of the graph construction).  The graph built from an
    edge list has no repeated node; its nodes are exactly the identifiers
    standing at an end of some row; two nodes are joined exactly when some
    row names them, in either order; so the ends of the graph's own edges
    give back the same node set; and rows that repeat or reverse earlier
    rows change the node set in nothing. *)
Theorem graph_round_trip (E : list (string * string)) :
  let G := Nx.from_pandas_edgelist E in
  NoDup (Nx.nodes G) /\
  (forall g, In g (Nx.nodes G) <->
             exists e, In e E /\ (g = fst e \/ g = snd e)) /\
  (forall u v, Nx.has_edge G u v = true <-> In (u, v) E \/ In (v, u) E) /\
  (forall g, In g (Nx.nodes G) <->
             exists u v, Nx.has_edge G u v = true /\ (g = u \/ g = v)) /\
  (forall E',
     (forall e, In e E' -> In e E \/ In (snd e, fst e) E) ->
     forall g, In g (Nx.nodes (Nx.from_pandas_edgelist (E ++ E'))) <->
               In g (Nx.nodes G)).
Proof.
  cbv zeta. unfold Nx.from_pandas_edgelist.
  assert (Hnodes : forall E0 g,
            In g (Nx.nodes (Nx.add_edges_from E0 Nx.empty)) <->
            exists e, In e E0 /\ (g = fst e \/ g = snd e)).
  { intros E0 g. rewrite GraphFacts.add_edges_from_nodes.
    rewrite GraphFacts.endpoints_In. simpl. tauto. }
  assert (Hedges : forall u v,
            Nx.has_edge (Nx.add_edges_from E Nx.empty) u v = true <->
            In (u, v) E \/ In (v, u) E).
  { intros u v. rewrite GraphFacts.add_edges_from_has_edge.
    unfold Nx.has_edge, Nx.empty. simpl. intuition discriminate. }
  split; [apply GraphFacts.add_edges_from_NoDup; constructor |].
  split; [apply Hnodes |]. split; [exact Hedges |]. split.
  - intros g. rewrite Hnodes. split.
    + intros [[u v] [He Hg]]. exists u, v. split; [| exact Hg].
      apply Hedges. now left.
    + intros (u & v & Huv & Hg). apply Hedges in Huv.
      destruct Huv as [H | H].
      * exists (u, v). split; [assumption | exact Hg].
      * exists (v, u). split; [assumption | simpl; tauto].
  - intros E' Hsub g. rewrite !Hnodes. split.
    + intros [e [He Hg]]. apply in_app_or in He. destruct He as [He | He].
      * now exists e.
      * destruct (Hsub e He) as [H | H]; [now exists e |].
        exists (snd e, fst e). split; [assumption | simpl; tauto].
    + intros [e [He Hg]]. exists e. split; [| assumption].
      apply in_or_app. now left.
Qed.

(** * Sorting *)

Module SortFacts.

Section Generic.
Context {A : Type}.
Variable before : A -> A -> bool.

Lemma insert_perm (x : A) (l : list A) :
  Permutation (insert before x l) (x :: l).
Proof.
  induction l as [|y r IH]; simpl.
  - apply Permutation_refl.
  - destruct (before x y).
    + apply Permutation_refl.
    + apply Permutation_trans with (y :: x :: r).
      * now apply perm_skip.
      * apply perm_swap.
Qed.

Lemma sort_values_perm (l : list A) : Permutation (sort_values before l) l.
Proof.
  induction l as [|x l IH]; simpl.
  - apply perm_nil.
  - apply Permutation_trans with (x :: sort_values before l).
    + apply insert_perm.
    + now apply perm_skip.
Qed.

Lemma sort_values_In (l : list A) (x : A) :
  In x (sort_values before l) <-> In x l.
Proof.
  split; apply Permutation_in;
    [apply sort_values_perm | apply Permutation_sym, sort_values_perm].
Qed.

(** Sortedness, for a comparison that is total and transitive on the
    elements at hand. *)
Section Sorted.
Variable P : A -> Prop.
Hypothesis before_total :
  forall a b, P a -> P b -> before a b = true \/ before b a = true.
Hypothesis before_trans :
  forall a b c, P a -> P b -> P c ->
    before a b = true -> before b c = true -> before a c = true.

Lemma insert_sorted (x : A) (l : list A) :
  P x -> Forall P l ->
  StronglySorted (fun a b => before a b = true) l ->
  StronglySorted (fun a b => before a b = true) (insert before x l).
Proof.
  intros Hx HP Hs. induction Hs as [|y r Hs IH Hy]; simpl.
  - constructor; constructor.
  - inversion HP as [|? ? Py Pr]; subst.
    destruct (before x y) eqn:E.
    + constructor; [now constructor |].
      constructor; [assumption |].
      rewrite Forall_forall in *. intros z Hz.
      apply (before_trans x y z); auto.
    + constructor; [now apply IH |].
      rewrite Forall_forall in *. intros z Hz.
      apply (Permutation_in _ (insert_perm x r)) in Hz.
      destruct Hz as [<- | Hz]; [| now apply Hy].
      destruct (before_total x y Hx Py); congruence.
Qed.

Lemma sort_values_sorted (l : list A) :
  Forall P l ->
  StronglySorted (fun a b => before a b = true) (sort_values before l).
Proof.
  induction l as [|x l IH]; intros HP; simpl.
  - constructor.
  - inversion HP as [|? ? Hx Hl]; subst.
    apply insert_sorted; [assumption | | now apply IH].
    rewrite Forall_forall in *. intros z Hz.
    apply -> sort_values_In in Hz. auto.
Qed.

End Sorted.
End Generic.

Lemma StronglySorted_filter {A : Type} (R : A -> A -> Prop)
    (p : A -> bool) (l : list A) :
  StronglySorted R l -> StronglySorted R (filter p l).
Proof.
  intros Hs. induction Hs as [|x l Hs IH Hx]; simpl; [constructor |].
  destruct (p x); [| assumption].
  constructor; [assumption |].
  rewrite Forall_forall in *. intros z Hz.
  apply filter_In in Hz. now apply Hx.
Qed.

Lemma filter_length_perm {A : Type} (p : A -> bool) (l1 l2 : list A) :
  Permutation l1 l2 ->
  List.length (filter p l1) = List.length (filter p l2).
Proof.
  induction 1 as [| x l1 l2 _ IH | x y l | l1 l2 l3 _ IH1 _ IH2]; simpl.
  - reflexivity.
  - destruct (p x); simpl; now rewrite IH.
  - destruct (p x), (p y); reflexivity.
  - now rewrite IH1.
Qed.

Lemma filter_filter {A : Type} (p q : A -> bool) (l : list A) :
  filter p (filter q l) = filter (fun a => q a && p a) l.
Proof.
  induction l as [|x l IH]; simpl; [reflexivity |].
  destruct (q x); simpl; [| exact IH].
  destruct (p x); now rewrite IH.
Qed.

Lemma sorted_app_before {A : Type} (R : A -> A -> Prop) (l1 l2 : list A) :
  StronglySorted R (l1 ++ l2) ->
  forall x y, In x l1 -> In y l2 -> R x y.
Proof.
  induction l1 as [|a l1 IH]; simpl; intros Hs x y Hx Hy; [destruct Hx |].
  inversion Hs as [|? ? Hs' Ha]; subst.
  destruct Hx as [<- | Hx].
  - rewrite Forall_forall in Ha. apply Ha, in_or_app. now right.
  - now apply IH.
Qed.

Lemma filter_length_lt {A : Type} (p : A -> bool) (l : list A) (r : A) :
  In r l -> p r = false -> List.length (filter p l) < List.length l.
Proof.
  induction l as [|x l IH]; simpl; intros Hin Hr; [destruct Hin |].
  pose proof (filter_length_le p l) as Hle.
  destruct Hin as [-> | Hin].
  - rewrite Hr. lia.
  - specialize (IH Hin Hr). destruct (p x); simpl; lia.
Qed.

Lemma filter_all {A : Type} (p : A -> bool) (l : list A) :
  (forall a, In a l -> p a = true) -> filter p l = l.
Proof.
  induction l as [|x l IH]; simpl; intros H; [reflexivity |].
  rewrite (H x (or_introl eq_refl)). f_equal. apply IH. auto.
Qed.

Lemma filter_none {A : Type} (p : A -> bool) (l : list A) :
  (forall a, In a l -> p a = false) -> filter p l = [].
Proof.
  induction l as [|x l IH]; simpl; intros H; [reflexivity |].
  rewrite (H x (or_introl eq_refl)). apply IH. auto.
Qed.

Lemma firstn_incl_In {A : Type} (n : nat) (l : list A) (x : A) :
  In x (firstn n l) -> In x l.
Proof.
  intros H. rewrite <- (firstn_skipn n l). apply in_or_app. now left.
Qed.

(** The head of a sorted table, whatever the order of the rows that tie.
    [ranked] is any arrangement of [rows] in which no row stands in front
    of one that must precede it; [p] is the filter applied before
    [head(n)]. *)
Section Head.
Context {A : Type}.
Variable before : A -> A -> bool.
Variable p : A -> bool.
Variables rows ranked : list A.
Hypothesis ranked_perm : Permutation ranked rows.
Hypothesis ranked_sorted :
  StronglySorted (fun a b => before a b = true) ranked.

Lemma count_in_ranked (q : A -> bool) :
  List.length (filter (fun a => p a && q a) rows)
  = List.length (filter q (filter p ranked)).
Proof.
  rewrite filter_filter.
  apply filter_length_perm. now apply Permutation_sym.
Qed.

(** A row of the head has fewer than [n] passing rows strictly ahead of
    it. *)
Lemma head_few_ahead (n : nat) (r : A) :
  In r (firstn n (filter p ranked)) ->
  List.length (filter (fun a => p a && strictly_ahead before a r) rows) < n.
Proof.
  intros Hin.
  rewrite (count_in_ranked (fun a => strictly_ahead before a r)).
  pose proof (StronglySorted_filter _ p _ ranked_sorted) as Hs.
  remember (filter p ranked) as L eqn:HL. clear HL.
  rewrite <- (firstn_skipn n L) in Hs |- * at 1.
  rewrite filter_app, length_app.
  rewrite (filter_none _ (skipn n L)).
  - simpl. rewrite Nat.add_0_r.
    apply Nat.lt_le_trans with (List.length (firstn n L)).
    + apply (filter_length_lt _ _ r Hin).
      unfold strictly_ahead. now destruct (before r r).
    + apply firstn_le_length.
  - intros a Ha. unfold strictly_ahead.
    rewrite (sorted_app_before _ _ _ Hs r a Hin Ha).
    now destruct (before a r).
Qed.

(** A passing row with at most [n] passing rows not behind it, itself
    counted, is in the head. *)
Lemma few_not_behind_head (n : nat) (r : A) :
  before r r = true -> In r rows -> p r = true ->
  List.length (filter (fun a => p a && before a r) rows) <= n ->
  In r (firstn n (filter p ranked)).
Proof.
  intros Hrefl Hin Hp.
  rewrite (count_in_ranked (fun a => before a r)).
  pose proof (StronglySorted_filter _ p _ ranked_sorted) as Hs.
  assert (HinL : In r (filter p ranked)).
  { apply filter_In. split; [| exact Hp].
    apply (Permutation_in _ (Permutation_sym ranked_perm)). exact Hin. }
  remember (filter p ranked) as L eqn:HL. clear HL.
  intros Hcount.
  rewrite <- (firstn_skipn n L) in HinL.
  apply in_app_or in HinL. destruct HinL as [H | Hskip]; [exact H |].
  exfalso.
  rewrite <- (firstn_skipn n L) in Hs, Hcount.
  rewrite filter_app, length_app in Hcount.
  rewrite (filter_all _ (firstn n L)) in Hcount.
  - assert (Hlen : n < List.length L).
    { destruct (Nat.lt_ge_cases n (List.length L)) as [Hlt | Hge];
        [exact Hlt |].
      rewrite (skipn_all2 L Hge) in Hskip. destruct Hskip. }
    rewrite (firstn_length_le L (Nat.lt_le_incl _ _ Hlen)) in Hcount.
    assert (Hone : In r (filter (fun a => before a r) (skipn n L))).
    { apply filter_In. split; assumption. }
    destruct (filter (fun a => before a r) (skipn n L));
      [destruct Hone | simpl in Hcount; lia].
  - intros a Ha. exact (sorted_app_before _ _ _ Hs a r Ha Hskip).
Qed.

End Head.

(** The stable sort is one of the sorts the library may run, and so is the
    stable sort of the table read from the bottom. *)
Lemma stable_sort_descending {A : Type} (key : A -> float) :
  sorts_descending key
    (sort_values (fun a b => desc_na_last (key a) (key b))).
Proof.
  intros l. split; [apply sort_values_perm |].
  apply (sort_values_sorted _ (fun _ => True)).
  - intros a b _ _. apply desc_na_last_total.
  - intros a b c _ _ _. apply desc_na_last_trans.
  - apply Forall_forall. trivial.
Qed.

Lemma reverse_sort_descending {A : Type} (key : A -> float) :
  sorts_descending key
    (fun l => sort_values (fun a b => desc_na_last (key a) (key b)) (rev l)).
Proof.
  intros l. destruct (stable_sort_descending key (rev l)) as [Hp Hs].
  split; [| exact Hs].
  apply Permutation_trans with (rev l); [exact Hp |].
  apply Permutation_sym, Permutation_rev.
Qed.

Lemma desc_na_last_refl (a : float) : desc_na_last a a = true.
Proof. destruct (desc_na_last_total a a); assumption. Qed.

End SortFacts.

(** * Which nodes are labelled *)

Module LabelSelection.
Import PyDict PyDictFacts SortFacts.

Lemma before_by_abs_log2FC_refl (r : string * float) :
  before_by_abs_log2FC r r = true.
Proof. apply desc_na_last_refl. Qed.

Lemma stable_sort_admissible :
  sorts_descending abs_log2FC stable_sort_by_abs_log2FC.
Proof. exact (stable_sort_descending abs_log2FC). Qed.

Lemma reverse_sort_admissible :
  sorts_descending abs_log2FC reverse_sort_by_abs_log2FC.
Proof. exact (reverse_sort_descending abs_log2FC). Qed.

Lemma fold_append_new_In (l acc : list string) (g : string) :
  In g (fold_left append_new l acc) <-> In g acc \/ In g l.
Proof.
  revert acc. induction l as [|x l IH]; intros acc; simpl.
  - tauto.
  - rewrite IH. unfold append_new. destruct (str_in x acc) eqn:E.
    + apply str_in_In in E. split.
      * intros [H | H]; auto.
      * intros [H | [<- | H]]; auto.
    + rewrite in_app_iff. simpl. tauto.
Qed.

Section AnySort.
Variable sort_by_abs_log2FC : list (string * float) -> list (string * float).

Lemma top_fc_genes_first_ten (G : Nx.Graph) (rows : list (string * float)) :
  top_fc_genes sort_by_abs_log2FC G rows
  = first_ten_members G (sort_by_abs_log2FC rows).
Proof. reflexivity. Qed.

Lemma top_fc_genes_nodes (G : Nx.Graph) (rows : list (string * float)) g :
  In g (top_fc_genes sort_by_abs_log2FC G rows) -> In g (Nx.nodes G).
Proof.
  unfold top_fc_genes. rewrite in_map_iff. intros [r [<- Hr]].
  apply firstn_incl_In, filter_In in Hr. now apply str_in_In.
Qed.

Lemma nodes_to_label_table (G : Nx.Graph) (nc : dict (list string))
    (degs : option DataFrame) :
  nodes_to_label sort_by_abs_log2FC G nc degs =
  if Nat.leb (List.length (Nx.nodes G)) 50 then Nx.nodes G
  else
    match table_of degs with
    | Some rows =>
        fold_left append_new (top_fc_genes sort_by_abs_log2FC G rows)
                  (important_nodes nc)
    | None => important_nodes nc
    end.
Proof.
  unfold nodes_to_label, table_of.
  destruct degs as [df|]; [| reflexivity].
  now destruct (col_log2FC df).
Qed.

(** What holds of the head whichever sort the library runs. *)
Hypothesis library_sort : sorts_descending abs_log2FC sort_by_abs_log2FC.

Lemma first_ten_few_ahead (G : Nx.Graph) (rows : list (string * float)) g :
  In g (top_fc_genes sort_by_abs_log2FC G rows) ->
  exists fc, In (g, fc) rows /\ In g (Nx.nodes G) /\
             members_ahead G rows (g, fc) < 10.
Proof.
  intros Hg. pose proof (top_fc_genes_nodes G rows g Hg) as Hnode.
  rewrite top_fc_genes_first_ten in Hg. unfold first_ten_members in Hg.
  apply in_map_iff in Hg. destruct Hg as [[g' fc] [Hfst Hr]].
  simpl in Hfst. subst g'. exists fc.
  destruct (library_sort rows) as [Hperm Hsorted].
  split; [| split; [exact Hnode |]].
  - apply firstn_incl_In, filter_In in Hr.
    apply (Permutation_in _ Hperm). tauto.
  - unfold members_ahead.
    exact (head_few_ahead before_by_abs_log2FC (member_row G) rows
             (sort_by_abs_log2FC rows) Hperm Hsorted 10 (g, fc) Hr).
Qed.

Lemma few_not_behind_first_ten (G : Nx.Graph) (rows : list (string * float))
    g fc :
  In (g, fc) rows -> In g (Nx.nodes G) ->
  members_not_behind G rows (g, fc) <= 10 ->
  In g (top_fc_genes sort_by_abs_log2FC G rows).
Proof.
  intros Hin Hnode Hcount.
  rewrite top_fc_genes_first_ten. unfold first_ten_members.
  apply in_map_iff. exists (g, fc). split; [reflexivity |].
  destruct (library_sort rows) as [Hperm Hsorted].
  apply (few_not_behind_head before_by_abs_log2FC (member_row G) rows
           (sort_by_abs_log2FC rows) Hperm Hsorted 10 (g, fc)).
  - apply before_by_abs_log2FC_refl.
  - exact Hin.
  - unfold member_row. simpl. now apply str_in_In.
  - exact Hcount.
Qed.

End AnySort.

End LabelSelection.

(** * The table of important genes *)

Module TableFacts.
Import PyDict PyDictFacts SortFacts.

Lemma cat_ltb_rank (c1 c2 : string) :
  In c1 important_categories -> In c2 important_categories ->
  String.ltb c1 c2 = Nat.ltb (cat_rank c1) (cat_rank c2).
Proof.
  unfold important_categories. simpl.
  intros [<- | [<- | [<- | []]]] [<- | [<- | [<- | []]]]; reflexivity.
Qed.

Lemma cat_eqb_rank (c1 c2 : string) :
  In c1 important_categories -> In c2 important_categories ->
  String.eqb c1 c2 = Nat.eqb (cat_rank c1) (cat_rank c2).
Proof.
  unfold important_categories. simpl.
  intros [<- | [<- | [<- | []]]] [<- | [<- | [<- | []]]]; reflexivity.
Qed.

Lemma before_by_fc_total (r1 r2 : Row) :
  P_important r1 -> P_important r2 ->
  before_by_fc r1 r2 = true \/ before_by_fc r2 r1 = true.
Proof.
  unfold P_important, before_by_fc. intros H1 H2.
  rewrite (cat_ltb_rank _ _ H1 H2), (cat_ltb_rank _ _ H2 H1),
          (cat_eqb_rank _ _ H1 H2), (cat_eqb_rank _ _ H2 H1).
  destruct (Nat.ltb_spec (cat_rank (Category r1)) (cat_rank (Category r2)));
    [now left |].
  destruct (Nat.ltb_spec (cat_rank (Category r2)) (cat_rank (Category r1)));
    [now right |].
  assert (E : cat_rank (Category r1) = cat_rank (Category r2)) by lia.
  rewrite E, Nat.eqb_refl. simpl.
  apply desc_na_last_total.
Qed.

Lemma before_by_fc_trans (r1 r2 r3 : Row) :
  P_important r1 -> P_important r2 -> P_important r3 ->
  before_by_fc r1 r2 = true -> before_by_fc r2 r3 = true ->
  before_by_fc r1 r3 = true.
Proof.
  unfold P_important, before_by_fc. intros H1 H2 H3.
  rewrite (cat_ltb_rank _ _ H1 H2), (cat_ltb_rank _ _ H2 H3),
          (cat_ltb_rank _ _ H1 H3), (cat_eqb_rank _ _ H1 H2),
          (cat_eqb_rank _ _ H2 H3), (cat_eqb_rank _ _ H1 H3).
  rewrite !orb_true_iff, !andb_true_iff, !Nat.ltb_lt, !Nat.eqb_eq.
  intros [Ha | [Ha Da]] [Hb | [Hb Db]].
  - left. lia.
  - left. lia.
  - left. lia.
  - right. split; [lia |]. eapply desc_na_last_trans; eassumption.
Qed.

Lemma before_by_centrality_total (r1 r2 : Row) :
  P_important r1 -> P_important r2 ->
  before_by_centrality r1 r2 = true \/ before_by_centrality r2 r1 = true.
Proof.
  unfold P_important, before_by_centrality. intros H1 H2.
  rewrite (cat_ltb_rank _ _ H1 H2), (cat_ltb_rank _ _ H2 H1),
          (cat_eqb_rank _ _ H1 H2), (cat_eqb_rank _ _ H2 H1).
  destruct (Nat.ltb_spec (cat_rank (Category r1)) (cat_rank (Category r2)));
    [now left |].
  destruct (Nat.ltb_spec (cat_rank (Category r2)) (cat_rank (Category r1)));
    [now right |].
  assert (E : cat_rank (Category r1) = cat_rank (Category r2)) by lia.
  rewrite E, Nat.eqb_refl. simpl. rewrite !Qle_bool_iff.
  destruct (Qlt_le_dec (Centrality r1) (Centrality r2)) as [H' | H'];
    [right; now apply Qlt_le_weak | now left].
Qed.

Lemma before_by_centrality_trans (r1 r2 r3 : Row) :
  P_important r1 -> P_important r2 -> P_important r3 ->
  before_by_centrality r1 r2 = true -> before_by_centrality r2 r3 = true ->
  before_by_centrality r1 r3 = true.
Proof.
  unfold P_important, before_by_centrality. intros H1 H2 H3.
  rewrite (cat_ltb_rank _ _ H1 H2), (cat_ltb_rank _ _ H2 H3),
          (cat_ltb_rank _ _ H1 H3), (cat_eqb_rank _ _ H1 H2),
          (cat_eqb_rank _ _ H2 H3), (cat_eqb_rank _ _ H1 H3).
  rewrite !orb_true_iff, !andb_true_iff, !Nat.ltb_lt, !Nat.eqb_eq,
          !Qle_bool_iff.
  intros [Ha | [Ha Da]] [Hb | [Hb Db]].
  - left. lia.
  - left. lia.
  - left. lia.
  - right. split; [lia |]. eapply Qle_trans; eassumption.
Qed.

Lemma StronglySorted_weaken {A : Type} (R R' : A -> A -> Prop)
    (l : list A) :
  (forall a b, In a l -> In b l -> R a b -> R' a b) ->
  StronglySorted R l -> StronglySorted R' l.
Proof.
  intros Himp Hs. induction Hs as [|x l Hs IH Hx]; [constructor |].
  constructor.
  - apply IH. intros a b Ha Hb. apply Himp; now right.
  - rewrite Forall_forall in *. intros z Hz.
    apply Himp; [now left | now right | now apply Hx].
Qed.

Lemma NoDup_map_fst_filter {A B : Type} (p : A * B -> bool)
    (l : list (A * B)) :
  NoDup (map fst l) -> NoDup (map fst (filter p l)).
Proof.
  induction l as [|x l IH]; simpl; intros Hnd; [constructor |].
  inversion Hnd as [|? ? Hnin Hl]; subst.
  destruct (p x); simpl; [| now apply IH].
  constructor; [| now apply IH].
  intros Hin. apply Hnin. apply in_map_iff in Hin.
  destruct Hin as [y [Hy Hin]]. apply filter_In in Hin.
  apply in_map_iff. exists y. tauto.
Qed.

Lemma get_map_keyed {V : Type} (f : string -> V) (l : list string)
    (g : string) :
  get g (map (fun n => (n, f n)) l) =
  if str_in g l then Some (f g) else None.
Proof.
  unfold str_in. induction l as [|x l IH]; simpl; [reflexivity |].
  destruct (String.eqb g x) eqn:E; simpl.
  - apply String.eqb_eq in E. now subst.
  - exact IH.
Qed.

Lemma degree_centrality_get (G : Nx.Graph) (g : string) :
  In g (Nx.nodes G) ->
  get g (Nx.degree_centrality G) = Some (centrality_of G g).
Proof.
  intros Hg. apply str_in_In in Hg.
  unfold Nx.degree_centrality, centrality_of.
  destruct (Nat.leb (Nx.number_of_nodes G) 1);
    rewrite get_map_keyed, Hg; reflexivity.
Qed.

Lemma is_important_In (c : string) :
  is_important c = true <-> In c important_categories.
Proof. apply str_in_In. Qed.

Section TableData.
Variable betweenness_centrality : Nx.Graph -> dict Q.
Variable G : Nx.Graph.
Variable gene_categories : dict string.
Variable fold_changes : dict float.

Let rows := table_data betweenness_centrality G gene_categories fold_changes.

Lemma table_data_genes :
  map Gene rows
  = map fst (filter (fun item => is_important (snd item)) gene_categories).
Proof.
  unfold rows, table_data, items. rewrite map_map. reflexivity.
Qed.

Lemma table_data_In (r : Row) :
  In r rows ->
  In (Gene r, Category r) gene_categories /\
  P_important r /\
  log2FC r = get (Gene r) fold_changes /\
  Degree r = (if Nx.has_node G (Gene r)
              then Some (Nx.degree G (Gene r)) else None) /\
  Centrality r = match get (Gene r) (Nx.degree_centrality G) with
                 | Some c => c
                 | None => 0%Q
                 end.
Proof.
  unfold rows, table_data, items. cbv zeta. rewrite in_map_iff.
  intros [[g c] [<- Hin]]. apply filter_In in Hin.
  destruct Hin as [Hin Himp]. cbn [Gene Category log2FC Degree Centrality
                                   fst snd] in *.
  repeat split; try assumption. now apply is_important_In.
Qed.

Lemma create_gene_table_cases :
  create_gene_table betweenness_centrality G gene_categories fold_changes =
  match rows with
  | [] => None
  | _ :: _ =>
      Some (sort_values (if some_numeric rows then before_by_fc
                         else before_by_centrality) rows)
  end.
Proof.
  unfold create_gene_table. fold rows.
  destruct rows as [|r rs]; [reflexivity |].
  now destruct (some_numeric (r :: rs)).
Qed.

End TableData.

Lemma some_numeric_known (l : list Row) :
  some_numeric l = true <-> has_known_fc l.
Proof.
  unfold some_numeric, has_known_fc. rewrite negb_true_iff. split.
  - intros H. induction l as [|r l IH]; simpl in H; [discriminate |].
    destruct (log2FC r) as [v|] eqn:E.
    + exists r. split; [now left | congruence].
    + simpl in H. destruct (IH H) as [r' [Hin Hr']].
      exists r'. split; [now right | assumption].
  - intros [r [Hin Hr]].
    destruct (forallb (fun r0 => match log2FC r0 with
                                 | Some _ => false
                                 | None => true
                                 end) l) eqn:E; [| reflexivity].
    rewrite forallb_forall in E. specialize (E r Hin).
    destruct (log2FC r); [discriminate | congruence].
Qed.

Lemma has_known_fc_perm (l1 l2 : list Row) :
  Permutation l1 l2 -> has_known_fc l1 <-> has_known_fc l2.
Proof.
  intros Hp. unfold has_known_fc. split; intros [r [Hin Hr]]; exists r;
    (split; [| assumption]).
  - eapply Permutation_in; eassumption.
  - eapply Permutation_in; [apply Permutation_sym |]; eassumption.
Qed.

Lemma desc_na_last_fc_descending (r1 r2 : Row) :
  log2FC r1 <> Some NaN -> log2FC r2 <> Some NaN ->
  desc_na_last (log2FC_num r1) (log2FC_num r2) = true ->
  fc_descending r1 r2.
Proof.
  unfold log2FC_num, fc_descending.
  destruct (log2FC r1) as [[| |a|]|], (log2FC r2) as [[| |b|]|];
    simpl; intros H1 H2 H; try congruence; trivial.
Qed.

End TableFacts.

(** * Claims about a whole run *)

Section RunClaims.
Import PyDict PyDictFacts Classifier FoldChanges Organize Drawing.

Variable Coord : Type.
Variable spring_layout : Nx.Graph -> Q -> nat -> nat -> dict Coord.
Variable kamada_kawai_layout : Nx.Graph -> option (dict Coord).
Variable circular_layout : Nx.Graph -> dict Coord.
Variable spectral_layout : Nx.Graph -> option (dict Coord).
Variable betweenness_centrality : Nx.Graph -> dict Q.
Variable sort_by_abs_log2FC : list (string * float) -> list (string * float).

Variable G : Nx.Graph.
Variable perturbed_genes : list string.
Variable degs_df : option DataFrame.
Variable layout : layout_choice.

Let gene_categories := categorize_genes perturbed_genes degs_df G.
Let fold_changes := fold_changes_of G degs_df.
Let run :=
  main Coord spring_layout kamada_kawai_layout circular_layout
       spectral_layout betweenness_centrality sort_by_abs_log2FC
       G perturbed_genes degs_df layout.

Lemma main_runs :
  exists out, run = Some out /\
    out_primary_nodes out =
      draw_if_any (nodes_of_category gene_categories cat_other) "lightgray"
      ++ draw_if_any (nodes_of_category gene_categories cat_down) "blue"
      ++ draw_if_any (nodes_of_category gene_categories cat_up) "red"
      ++ (if nonempty (nodes_of_category gene_categories cat_perturbed)
             && nonempty fold_changes then
            let ps := nodes_of_category gene_categories cat_perturbed in
            match color_domain (perturbed_fc ps fold_changes) with
            | Some (vmin, vmax) =>
                [mkDraw (valid_perturbed ps fold_changes)
                        (Mapped (perturbed_fc ps fold_changes)
                                "RdBu_r" vmin vmax)]
            | None => [mkDraw ps (Named "purple")]
            end
          else [mkDraw (nodes_of_category gene_categories cat_perturbed)
                       (Named "purple")]) /\
    out_labeled_nodes out =
      draw_if_any (nodes_of_category gene_categories cat_other) "lightgray"
      ++ draw_if_any (nodes_of_category gene_categories cat_down) "blue"
      ++ draw_if_any (nodes_of_category gene_categories cat_up) "red"
      ++ draw_if_any (nodes_of_category gene_categories cat_perturbed)
                     "purple" /\
    out_primary_colorbar out =
      (if nonempty (nodes_of_category gene_categories cat_perturbed)
          && nonempty fold_changes
       then color_domain
              (perturbed_fc (nodes_of_category gene_categories cat_perturbed)
                            fold_changes)
       else None) /\
    out_labeled_colorbar out =
      colorbar_labeled gene_categories fold_changes /\
    out_nodes_to_label out =
      nodes_to_label sort_by_abs_log2FC G
        [(cat_perturbed, nodes_of_category gene_categories cat_perturbed);
         (cat_up, nodes_of_category gene_categories cat_up);
         (cat_down, nodes_of_category gene_categories cat_down);
         (cat_other, nodes_of_category gene_categories cat_other)]
        degs_df /\
    out_table out =
      create_gene_table betweenness_centrality G gene_categories fold_changes /\
    out_pos out =
      generate_layout Coord spring_layout kamada_kawai_layout circular_layout
                      spectral_layout layout G /\
    out_fold_changes out = fold_changes.
Proof.
  unfold run, main, visualize_network.
  rewrite organize_categorize. fold gene_categories fold_changes.
  eexists. split; [reflexivity |].
  cbn [out_primary_nodes out_labeled_nodes out_primary_colorbar
       out_labeled_colorbar out_nodes_to_label out_table out_pos
       out_fold_changes].
  repeat split.
  unfold draw_labeled. cbn [flat_map fst snd]. now rewrite app_nil_r.
Qed.


Lemma primary_draw_cases (out : Output Coord) (d : draw_nodes) :
  run = Some out -> In d (out_primary_nodes out) ->
  flat_draw gene_categories d cat_other "lightgray" \/ flat_draw gene_categories d cat_down "blue" \/
  flat_draw gene_categories d cat_up "red" \/ flat_draw gene_categories d cat_perturbed "purple" \/
  (mapped_draw gene_categories fold_changes d /\
   out_primary_colorbar out =
   color_domain (perturbed_fc (nodes_of_category gene_categories cat_perturbed)
                              fold_changes)).
Proof.
  intros Hrun Hin. destruct main_runs as (out' & Hrun' & Hp & _ & Hcb & _).
  rewrite Hrun in Hrun'. injection Hrun' as <-.
  rewrite Hp in Hin. rewrite Hcb. clear Hp Hcb.
  repeat (apply in_app_or in Hin; destruct Hin as [Hin | Hin]).
  - apply In_draw_if_any in Hin. now left.
  - apply In_draw_if_any in Hin. now right; left.
  - apply In_draw_if_any in Hin. now right; right; left.
  - destruct (nonempty (nodes_of_category gene_categories cat_perturbed)
              && nonempty fold_changes).
    + cbv zeta in Hin.
      destruct (color_domain
                  (perturbed_fc
                     (nodes_of_category gene_categories cat_perturbed)
                     fold_changes)) as [[vmin vmax]|] eqn:E.
      * destruct Hin as [<- | []]. do 4 right. split; [| reflexivity].
        exists vmin, vmax. split; [exact E | reflexivity].
      * destruct Hin as [<- | []]. now right; right; right; left.
    + destruct Hin as [<- | []]. now right; right; right; left.
Qed.

Lemma labeled_draw_cases (out : Output Coord) (d : draw_nodes) :
  run = Some out -> In d (out_labeled_nodes out) ->
  flat_draw gene_categories d cat_other "lightgray" \/ flat_draw gene_categories d cat_down "blue" \/
  flat_draw gene_categories d cat_up "red" \/ flat_draw gene_categories d cat_perturbed "purple".
Proof.
  intros Hrun Hin. destruct main_runs as (out' & Hrun' & _ & Hl & _).
  rewrite Hrun in Hrun'. injection Hrun' as <-.
  rewrite Hl in Hin. clear Hl.
  repeat (apply in_app_or in Hin; destruct Hin as [Hin | Hin]);
    apply In_draw_if_any in Hin; tauto.
Qed.

Lemma category_list_get (c n : string) :
  In n (nodes_of_category gene_categories c) <->
  get n gene_categories = Some c.
Proof.
  apply nodes_of_category_get. apply categorize_genes_NoDup.
Qed.

Lemma mapped_draw_nodes (d : draw_nodes) (n : string) :
  mapped_draw gene_categories fold_changes d ->
  In n (nodelist d) <->
  get n gene_categories = Some cat_perturbed /\ In n (keys fold_changes).
Proof.
  intros (vmin & vmax & _ & ->). cbn [nodelist].
  rewrite valid_perturbed_In. now rewrite category_list_get.
Qed.


(** C10 (where the diverging scale is used).  The run succeeds, and in
    its two figures: a draw call that sends values through the colormap
    paints exactly the perturbed nodes that have a fold-change entry, with
    their own fold-changes as values and with the domain computed from
    those values alone; the colorbars carry a domain computed the same way;
    every up node is painted, in both figures, by a call with the fixed
    colour red and by no call of another colour, and every down node
    likewise with the fixed colour blue. *)
Theorem scale_only_on_perturbed :
  exists out, run = Some out /\
  (forall d vals cmap vmin vmax,
     In d (out_primary_nodes out ++ out_labeled_nodes out) ->
     color d = Mapped vals cmap vmin vmax ->
     (forall n, In n (nodelist d) <->
                get n gene_categories = Some cat_perturbed /\
                In n (keys fold_changes)) /\
     List.length vals = List.length (nodelist d) /\
     (forall n v, In (n, v) (combine (nodelist d) vals) ->
                  get n fold_changes = Some v) /\
     color_domain vals = Some (vmin, vmax)) /\
  (forall vmin vmax,
     out_primary_colorbar out = Some (vmin, vmax) \/
     out_labeled_colorbar out = Some (vmin, vmax) ->
     exists ps,
       (forall n, In n ps <->
                  get n gene_categories = Some cat_perturbed /\
                  In n (keys fold_changes)) /\
       color_domain (perturbed_fc ps fold_changes) = Some (vmin, vmax)) /\
  (forall n, get n gene_categories = Some cat_up ->
     (exists d, In d (out_primary_nodes out) /\ In n (nodelist d)) /\
     (exists d, In d (out_labeled_nodes out) /\ In n (nodelist d)) /\
     (forall d, In d (out_primary_nodes out ++ out_labeled_nodes out) ->
                In n (nodelist d) -> color d = Named "red")) /\
  (forall n, get n gene_categories = Some cat_down ->
     (exists d, In d (out_primary_nodes out) /\ In n (nodelist d)) /\
     (exists d, In d (out_labeled_nodes out) /\ In n (nodelist d)) /\
     (forall d, In d (out_primary_nodes out ++ out_labeled_nodes out) ->
                In n (nodelist d) -> color d = Named "blue")).
Proof.
  destruct main_runs as (out & Hrun & Hp & Hl & Hcb1 & Hcb2 & _).
  exists out. split; [exact Hrun |].
  assert (Hcases : forall d,
    In d (out_primary_nodes out ++ out_labeled_nodes out) ->
    flat_draw gene_categories d cat_other "lightgray" \/
    flat_draw gene_categories d cat_down "blue" \/
    flat_draw gene_categories d cat_up "red" \/
    flat_draw gene_categories d cat_perturbed "purple" \/
    mapped_draw gene_categories fold_changes d).
  { intros d Hin. apply in_app_or in Hin. destruct Hin as [Hin | Hin].
    - destruct (primary_draw_cases out d Hrun Hin)
        as [H | [H | [H | [H | [H _]]]]]; tauto.
    - destruct (labeled_draw_cases out d Hrun Hin)
        as [H | [H | [H | H]]]; tauto. }
  split; [| split; [| split]].
  - intros d vals cmap vmin vmax Hin Hcol.
    destruct (Hcases d Hin) as [H | [H | [H | [H | H]]]];
      try (unfold flat_draw in H; subst d; discriminate).
    split; [intros n; now apply mapped_draw_nodes |].
    destruct H as (vmin' & vmax' & Hdom & ->). cbn [color nodelist] in *.
    injection Hcol as <- <- <- <-.
    split; [apply perturbed_fc_length |]. split; [| exact Hdom].
    intros n v Hnv. rewrite combine_valid_perturbed in Hnv.
    now apply perturbed_with_fc_In in Hnv.
  - intros vmin vmax [Hc | Hc].
    + rewrite Hcb1 in Hc.
      destruct (nonempty (nodes_of_category gene_categories cat_perturbed)
                && nonempty fold_changes); [| discriminate].
      exists (valid_perturbed
                (nodes_of_category gene_categories cat_perturbed)
                fold_changes).
      split.
      * intros n. rewrite valid_perturbed_In. now rewrite category_list_get.
      * now rewrite perturbed_fc_valid.
    + rewrite Hcb2 in Hc. unfold colorbar_labeled in Hc.
      destruct (nonempty (nodes_of_category gene_categories cat_perturbed)
                && nonempty fold_changes); [| discriminate].
      cbv zeta in Hc.
      eexists. split; [| exact Hc].
      intros n. rewrite filter_In, category_list_get, mem_keys. tauto.
  - intros n Hn. apply category_list_get in Hn.
    assert (Hne : nodes_of_category gene_categories cat_up <> [])
      by (intros E; rewrite E in Hn; contradiction).
    split; [| split].
    + exists (mkDraw (nodes_of_category gene_categories cat_up) (Named "red")).
      split; [| exact Hn]. rewrite Hp.
      apply in_or_app; right. apply in_or_app; right. apply in_or_app; left.
      now apply In_draw_if_any.
    + exists (mkDraw (nodes_of_category gene_categories cat_up) (Named "red")).
      split; [| exact Hn]. rewrite Hl.
      apply in_or_app; right. apply in_or_app; right. apply in_or_app; left.
      now apply In_draw_if_any.
    + intros d Hin Hnd. apply category_list_get in Hn.
      destruct (Hcases d Hin) as [H | [H | [H | [H | H]]]].
      * unfold flat_draw in H. subst d. cbn [nodelist] in Hnd.
        apply category_list_get in Hnd. rewrite Hn in Hnd. discriminate.
      * unfold flat_draw in H. subst d. cbn [nodelist] in Hnd.
        apply category_list_get in Hnd. rewrite Hn in Hnd. discriminate.
      * unfold flat_draw in H. now subst d.
      * unfold flat_draw in H. subst d. cbn [nodelist] in Hnd.
        apply category_list_get in Hnd. rewrite Hn in Hnd. discriminate.
      * apply (mapped_draw_nodes d n H) in Hnd. destruct Hnd as [Hnd _].
        rewrite Hn in Hnd. discriminate.
  - intros n Hn. apply category_list_get in Hn.
    assert (Hne : nodes_of_category gene_categories cat_down <> [])
      by (intros E; rewrite E in Hn; contradiction).
    split; [| split].
    + exists (mkDraw (nodes_of_category gene_categories cat_down)
                     (Named "blue")).
      split; [| exact Hn]. rewrite Hp.
      apply in_or_app; right. apply in_or_app; left.
      now apply In_draw_if_any.
    + exists (mkDraw (nodes_of_category gene_categories cat_down)
                     (Named "blue")).
      split; [| exact Hn]. rewrite Hl.
      apply in_or_app; right. apply in_or_app; left.
      now apply In_draw_if_any.
    + intros d Hin Hnd. apply category_list_get in Hn.
      destruct (Hcases d Hin) as [H | [H | [H | [H | H]]]].
      * unfold flat_draw in H. subst d. cbn [nodelist] in Hnd.
        apply category_list_get in Hnd. rewrite Hn in Hnd. discriminate.
      * unfold flat_draw in H. now subst d.
      * unfold flat_draw in H. subst d. cbn [nodelist] in Hnd.
        apply category_list_get in Hnd. rewrite Hn in Hnd. discriminate.
      * unfold flat_draw in H. subst d. cbn [nodelist] in Hnd.
        apply category_list_get in Hnd. rewrite Hn in Hnd. discriminate.
      * apply (mapped_draw_nodes d n H) in Hnd. destruct Hnd as [Hnd _].
        rewrite Hn in Hnd. discriminate.
Qed.


(** C8 (layout fallback).  When the Kamada-Kawai layout is chosen and
    raises, or the spectral layout is chosen and raises, the run still
    completes, and its positions are those of
    [spring_layout(G, k=0.3, iterations=50, seed=42)], the very call made
    for the default spring layout; so, the spring layout placing every
    node, each node has one coordinate and no second one. *)
Theorem layout_fallback :
  (layout = kamada_kawai /\ kamada_kawai_layout G = None) \/
  (layout = spectral /\ spectral_layout G = None) ->
  let fallback := spring_layout G (3 # 10)%Q 50%nat 42%nat in
  exists out, run = Some out /\
    out_pos out = fallback /\
    generate_layout Coord spring_layout kamada_kawai_layout circular_layout
                    spectral_layout spring G = fallback /\
    ((forall n, In n (Nx.nodes G) -> In n (keys fallback)) ->
     forall n, In n (Nx.nodes G) ->
       exists c, get n (out_pos out) = Some c /\
                 forall c', get n (out_pos out) = Some c' -> c' = c).
Proof.
  intros Hfail. cbv zeta.
  destruct main_runs as (out & Hrun & _ & _ & _ & _ & _ & _ & Hpos & _).
  exists out. split; [exact Hrun |].
  assert (Hfb : out_pos out = spring_layout G (3 # 10)%Q 50%nat 42%nat).
  { rewrite Hpos. unfold generate_layout, default_spring.
    destruct Hfail as [[-> ->] | [-> ->]]; reflexivity. }
  split; [exact Hfb |]. split; [reflexivity |].
  intros Hcov n Hn. rewrite Hfb.
  specialize (Hcov n Hn). apply mem_keys in Hcov. unfold mem in Hcov.
  destruct (get n (spring_layout G (3 # 10)%Q 50%nat 42%nat)) as [c|];
    [| discriminate].
  exists c. split; [reflexivity | intros c' [= <-]; reflexivity].
Qed.

Lemma important_nodes_In (g : string) :
  In g (important_nodes
          [(cat_perturbed, nodes_of_category gene_categories cat_perturbed);
           (cat_up, nodes_of_category gene_categories cat_up);
           (cat_down, nodes_of_category gene_categories cat_down);
           (cat_other, nodes_of_category gene_categories cat_other)]) <->
  get g gene_categories = Some cat_perturbed \/
  get g gene_categories = Some cat_up \/
  get g gene_categories = Some cat_down.
Proof.
  unfold important_nodes, nc_at.
  cbv [cat_perturbed cat_up cat_down cat_other].
  cbn [get String.eqb Ascii.eqb Bool.eqb].
  fold cat_perturbed cat_up cat_down cat_other.
  rewrite !in_app_iff, !category_list_get. tauto.
Qed.

(** C1, amended.  Whichever sort the library runs, a rearrangement of the
    rows in descending order of absolute fold-change with the missing
    values last, the run completes.  With at most 50 nodes the list of
    nodes to label is the list of all nodes.  With more than 50 nodes a
    gene is selected exactly when its category is perturbed, up or down,
    or when the table has a fold-change column and the gene is that of one
    of the first ten rows about graph members of the sorted table: rows
    are counted, not distinct genes, and they are counted among all graph
    members, selected already or not.  The order of the rows that tie is
    the library's, not the table's; whatever it is, a gene is selected
    when one of its rows is about a graph member and at most ten rows
    about graph members have an absolute fold-change that is not smaller
    (the row itself counted), and a gene selected beyond the three
    categories has a row about a graph member with fewer than ten rows
    about graph members of larger absolute fold-change. *)
Theorem label_selection :
  sorts_descending abs_log2FC sort_by_abs_log2FC ->
  exists out, run = Some out /\
  (List.length (Nx.nodes G) <= 50 -> out_nodes_to_label out = Nx.nodes G) /\
  (50 < List.length (Nx.nodes G) ->
   (forall g, In g (out_nodes_to_label out) <->
      (get g gene_categories = Some cat_perturbed \/
       get g gene_categories = Some cat_up \/
       get g gene_categories = Some cat_down) \/
      (exists rows, table_of degs_df = Some rows /\
         In g (first_ten_members G (sort_by_abs_log2FC rows)))) /\
   (forall rows g fc,
      table_of degs_df = Some rows ->
      In (g, fc) rows -> In g (Nx.nodes G) ->
      members_not_behind G rows (g, fc) <= 10 ->
      In g (out_nodes_to_label out)) /\
   (forall g, In g (out_nodes_to_label out) ->
      (get g gene_categories = Some cat_perturbed \/
       get g gene_categories = Some cat_up \/
       get g gene_categories = Some cat_down) \/
      (exists rows fc, table_of degs_df = Some rows /\
         In (g, fc) rows /\ In g (Nx.nodes G) /\
         members_ahead G rows (g, fc) < 10))).
Proof.
  intros Hsort.
  destruct main_runs as (out & Hrun & _ & _ & _ & _ & Hnl & _).
  exists out. split; [exact Hrun |]. rewrite Hnl.
  rewrite LabelSelection.nodes_to_label_table. split.
  - intros Hle. apply Nat.leb_le in Hle. now rewrite Hle.
  - intros Hgt. apply Nat.leb_gt in Hgt. rewrite Hgt.
    destruct (table_of degs_df) as [rows|].
    + split; [| split].
      * intros g.
        rewrite LabelSelection.fold_append_new_In, important_nodes_In.
        rewrite LabelSelection.top_fc_genes_first_ten. split.
        -- intros [H | H]; [now left | right]. now exists rows.
        -- intros [H | (rows' & [= <-] & H)]; [now left | now right].
      * intros rows' g fc [= <-] Hin Hnode Hcount.
        apply LabelSelection.fold_append_new_In. right.
        now apply (LabelSelection.few_not_behind_first_ten
                     _ Hsort G rows g fc).
      * intros g Hg. apply LabelSelection.fold_append_new_In in Hg.
        destruct Hg as [Hg | Hg]; [left; now apply important_nodes_In |].
        right.
        destruct (LabelSelection.first_ten_few_ahead _ Hsort G rows g Hg)
          as (fc & Hin & Hnode & Hcount).
        now exists rows, fc.
    + split; [| split].
      * intros g. rewrite important_nodes_In. split; [now left |].
        intros [H | (rows & Hr & _)]; [assumption | discriminate].
      * intros rows g fc Hr. discriminate.
      * intros g Hg. left. now apply important_nodes_In.
Qed.

Lemma not_other_important (g c : string) :
  get g gene_categories = Some c ->
  c <> cat_other <-> In c important_categories.
Proof.
  intros Hget. apply get_In in Hget.
  apply (categorize_genes_values perturbed_genes degs_df G) in Hget.
  unfold four_categories, important_categories in *. simpl in *.
  split.
  - intros Hne. destruct Hget as [<- | [<- | [<- | [<- | []]]]];
      auto; congruence.
  - intros [<- | [<- | [<- | []]]]; discriminate.
Qed.

(** X20.  The table of a run with at least one node that is perturbed,
    up or down: it is written; it has one row, and only one, for each
    graph node whose category is not other, and no further row; each row
    carries the node's category, its fold-change or the placeholder, its
    degree and its degree centrality; the rows stand in ascending lexical
    order of category and, inside a category, in descending order of
    fold-change (rows without one last) when some row has a numeric
    fold-change, in descending order of degree centrality otherwise. *)
Theorem rank_table_rows_and_order :
  (exists g, In g (Nx.nodes G) /\ get g gene_categories <> Some cat_other) ->
  exists out tbl, run = Some out /\ out_table out = Some tbl /\
      NoDup (map Gene tbl) /\
      (forall g, In g (map Gene tbl) <->
                 In g (Nx.nodes G) /\
                 get g gene_categories <> Some cat_other) /\
      (forall r, In r tbl ->
         get (Gene r) gene_categories = Some (Category r) /\
         log2FC r = get (Gene r) fold_changes /\
         Degree r = Some (Nx.degree G (Gene r)) /\
         Centrality r = centrality_of G (Gene r)) /\
      StronglySorted (table_order tbl) tbl.
Proof.
  intros [g0 [Hg0 Hne0]].
  destruct main_runs as (out & Hrun & _ & _ & _ & _ & _ & Htbl & _).
  rewrite TableFacts.create_gene_table_cases in Htbl.
  pose proof (TableFacts.table_data_genes betweenness_centrality G
                gene_categories fold_changes) as Hgenes.
  pose proof (TableFacts.table_data_In betweenness_centrality G
                gene_categories fold_changes) as Hrow.
  pose proof (categorize_genes_NoDup perturbed_genes degs_df G) as Hnd.
  fold gene_categories in Hnd.
  remember (table_data betweenness_centrality G gene_categories
                       fold_changes) as rows eqn:Hrows_def.
  clear Hrows_def.
  assert (Hmem : forall g, In g (map Gene rows) <->
                 In g (Nx.nodes G) /\
                 get g gene_categories <> Some cat_other).
  { intros g. rewrite Hgenes, in_map_iff. split.
    - intros [[g' c] [Hg Hin]]. simpl in Hg. subst g'.
      apply filter_In in Hin. destruct Hin as [Hin Himp]. simpl in Himp.
      apply TableFacts.is_important_In in Himp.
      apply (In_get_NoDup _ _ _ Hnd) in Hin. split.
      + apply (categorize_genes_keys perturbed_genes degs_df G).
        apply mem_keys. unfold mem. fold gene_categories. now rewrite Hin.
      + rewrite Hin. intros [= ->].
        apply (not_other_important g cat_other Hin) in Himp. congruence.
    - intros [Hg Hne].
      apply (categorize_genes_keys perturbed_genes degs_df G) in Hg.
      fold gene_categories in Hg. apply mem_keys in Hg. unfold mem in Hg.
      destruct (get g gene_categories) as [c|] eqn:E; [| discriminate].
      exists (g, c). split; [reflexivity |]. apply filter_In.
      split; [now apply get_In |]. simpl.
      apply TableFacts.is_important_In.
      apply (not_other_important g c E). congruence. }
  destruct rows as [|r0 rs] eqn:Erows.
  - exfalso. assert (Hin : In g0 (map Gene (@nil Row))).
    { apply Hmem. split; assumption. }
    exact Hin.
  - cbv beta iota in Htbl. rewrite <- Erows in *. clear Erows.
    set (before := if some_numeric rows then before_by_fc
                   else before_by_centrality) in *.
    pose proof (SortFacts.sort_values_perm before rows) as Hperm.
    set (tbl := sort_values before rows) in *.
    assert (Hin_tbl : forall r, In r tbl <-> In r rows).
    { intros r. split; apply Permutation_in;
        [exact Hperm | now apply Permutation_sym]. }
    exists out, tbl. split; [exact Hrun |]. split; [exact Htbl |].
    split; [| split; [| split]].
    + apply (Permutation_NoDup
               (Permutation_map Gene (Permutation_sym Hperm))).
      rewrite Hgenes. now apply TableFacts.NoDup_map_fst_filter.
    + intros g. rewrite <- Hmem. split;
        apply Permutation_in, Permutation_map;
        [exact Hperm | now apply Permutation_sym].
    + intros r Hr. apply Hin_tbl in Hr.
      destruct (Hrow r Hr) as (Hitem & _ & Hfc & Hdeg & Hcen).
      apply (In_get_NoDup _ _ _ Hnd) in Hitem.
      assert (Hnode : In (Gene r) (Nx.nodes G)).
      { apply (categorize_genes_keys perturbed_genes degs_df G).
        apply mem_keys. unfold mem. fold gene_categories.
        now rewrite Hitem. }
      split; [exact Hitem |]. split; [exact Hfc |]. split.
      * rewrite Hdeg. unfold Nx.has_node.
        now rewrite (proj2 (mem_keys _ _) Hnode).
      * rewrite Hcen. now rewrite TableFacts.degree_centrality_get.
    + assert (HP : Forall P_important rows).
      { apply Forall_forall. intros r Hr. now apply Hrow. }
      assert (Hnan : forall r, In r tbl -> log2FC r <> Some NaN).
      { intros r Hr Heq. apply Hin_tbl in Hr.
        destruct (Hrow r Hr) as (_ & _ & Hfc & _).
        rewrite Heq in Hfc. symmetry in Hfc.
        apply (FoldChanges.fold_changes_not_nan G degs_df) in Hfc.
        discriminate. }
      assert (Hknown : has_known_fc tbl <-> some_numeric rows = true).
      { rewrite TableFacts.some_numeric_known.
        now apply TableFacts.has_known_fc_perm. }
      apply (TableFacts.StronglySorted_weaken
               (fun a b => before a b = true)).
      * intros a b Ha Hb. unfold before, table_order.
        destruct (some_numeric rows) eqn:Enum.
        -- unfold before_by_fc.
           rewrite orb_true_iff, andb_true_iff, String.eqb_eq.
           intros [H | [Hc Hd]]; [now left | right].
           split; [exact Hc |]. left. split; [now apply Hknown |].
           apply TableFacts.desc_na_last_fc_descending; auto.
        -- unfold before_by_centrality.
           rewrite orb_true_iff, andb_true_iff, String.eqb_eq, Qle_bool_iff.
           intros [H | [Hc Hd]]; [now left | right].
           split; [exact Hc |]. right. split; [| exact Hd].
           intros Hk. apply Hknown in Hk. discriminate.
      * unfold tbl, before. destruct (some_numeric rows).
        -- apply (SortFacts.sort_values_sorted before_by_fc P_important
                    TableFacts.before_by_fc_total
                    TableFacts.before_by_fc_trans rows HP).
        -- apply (SortFacts.sort_values_sorted before_by_centrality
                    P_important TableFacts.before_by_centrality_total
                    TableFacts.before_by_centrality_trans rows HP).
Qed.

End RunClaims.

Lemma layout_fallback_witness :
  exists out,
    sample_run sample_graph ["A"] sample_degs kamada_kawai = Some out /\
    out_pos out = sample_spring sample_graph (3 # 10)%Q 50%nat 42%nat /\
    forall n, In n (Nx.nodes sample_graph) ->
      exists c, PyDict.get n (out_pos out) = Some c /\
                forall c', PyDict.get n (out_pos out) = Some c' -> c' = c.
Proof.
  destruct (layout_fallback (Q * Q)%type sample_spring failing_layout
              sample_circular failing_layout sample_betweenness
              stable_sort_by_abs_log2FC
              sample_graph ["A"] sample_degs kamada_kawai)
    as (out & Hrun & Hpos & _ & Hcov).
  - left. split; reflexivity.
  - exists out. split; [exact Hrun |]. split; [exact Hpos |].
    apply Hcov. intros n Hn. vm_compute in Hn. vm_compute. exact Hn.
Defined.

Lemma ranked_run_labels :
  option_map out_nodes_to_label (sample_run big_graph [] ranked_degs spring)
  = Some (map gene_name (seq 1 10)).
Proof. vm_compute. reflexivity. Qed.

Lemma ranked_claimed_labels :
  str_in "g11" (claimed_nodes_to_label big_graph
                  (categorize_genes [] ranked_degs big_graph) ranked_degs)
  = true.
Proof. vm_compute. reflexivity. Qed.

(** C1, as written, fails: in the 51-node path with ten rows above 1 for
    g01 .. g10 and a milder row for g11, no two rows with the same
    absolute fold-change, the first ten rows are all about selected genes,
    so nothing is added, while g11 is the top gene among the members not
    already selected. *)
Lemma label_selection_as_written_fails :
  exists out, sample_run big_graph [] ranked_degs spring = Some out /\
    ~ (forall g,
         In g (out_nodes_to_label out) <->
         In g (claimed_nodes_to_label
                 big_graph (categorize_genes [] ranked_degs big_graph)
                 ranked_degs)).
Proof.
  pose proof ranked_run_labels as Hrun.
  destruct (sample_run big_graph [] ranked_degs spring) as [out|];
    [| discriminate].
  exists out. split; [reflexivity |].
  cbn [option_map] in Hrun. injection Hrun as Hlabels.
  intros H. destruct (H "g11") as [_ Hback].
  rewrite Hlabels in Hback.
  assert (Hin : In "g11" (map gene_name (seq 1 10))).
  { apply Hback. apply (proj1 (str_in_In _ _)). exact ranked_claimed_labels. }
  apply (proj2 (str_in_In _ _)) in Hin. vm_compute in Hin. discriminate.
Qed.

Lemma ranked_important_nodes :
  important_nodes
    [(cat_perturbed,
      nodes_of_category (categorize_genes [] ranked_degs big_graph)
                        cat_perturbed);
     (cat_up,
      nodes_of_category (categorize_genes [] ranked_degs big_graph) cat_up);
     (cat_down,
      nodes_of_category (categorize_genes [] ranked_degs big_graph)
                        cat_down);
     (cat_other,
      nodes_of_category (categorize_genes [] ranked_degs big_graph)
                        cat_other)]
  = map gene_name (seq 1 10).
Proof. vm_compute. reflexivity. Qed.

Lemma ranked_rows_ahead_of_g11 (fc : float) :
  In ("g11", fc) (combine (map gene_name (seq 1 10) ++ ["g11"])
                    (map (fun i => of_Z (Z.of_nat (21 - i))) (seq 1 10)
                     ++ [Fin (9 # 10)])) ->
  members_ahead big_graph
    (combine (map gene_name (seq 1 10) ++ ["g11"])
       (map (fun i => of_Z (Z.of_nat (21 - i))) (seq 1 10)
        ++ [Fin (9 # 10)]))
    ("g11", fc) = 10.
Proof.
  intros Hin. cbn in Hin.
  repeat (destruct Hin as [Hin | Hin]; [try discriminate |]);
    [| destruct Hin].
  injection Hin as <-. vm_compute. reflexivity.
Qed.

(** The same run with any sort the library may choose: g11 is not
    labelled, for its row has ten rows of larger absolute fold-change
    ahead of it. *)
Lemma ranked_run_any_sort
    (sort_by_abs_log2FC : list (string * float) -> list (string * float)) :
  sorts_descending abs_log2FC sort_by_abs_log2FC ->
  exists out,
    sample_run_with sort_by_abs_log2FC big_graph [] ranked_degs spring
    = Some out /\
    ~ In "g11" (out_nodes_to_label out).
Proof.
  intros Hsort.
  destruct (main_runs (Q * Q)%type sample_spring failing_layout
              sample_circular failing_layout sample_betweenness
              sort_by_abs_log2FC big_graph [] ranked_degs spring)
    as (out & Hrun & _ & _ & _ & _ & Hnl & _).
  exists out. split; [exact Hrun |]. rewrite Hnl.
  rewrite LabelSelection.nodes_to_label_table, ranked_important_nodes.
  replace (Nat.leb (List.length (Nx.nodes big_graph)) 50) with false
    by (vm_compute; reflexivity).
  cbn [table_of ranked_degs col_log2FC]. unfold zip_gene_fc.
  cbn [col_gene].
  intros Hin. apply LabelSelection.fold_append_new_In in Hin.
  destruct Hin as [Hin | Hin].
  - apply (proj2 (str_in_In _ _)) in Hin. vm_compute in Hin. discriminate.
  - apply (LabelSelection.first_ten_few_ahead _ Hsort) in Hin.
    destruct Hin as (fc & Hrow & _ & Hcount).
    rewrite (ranked_rows_ahead_of_g11 fc Hrow) in Hcount. lia.
Qed.

Lemma label_selection_witness :
  exists out, sample_run big_graph [] big_degs spring = Some out /\
    (forall g, In g (out_nodes_to_label out) <->
      (PyDict.get g (categorize_genes [] big_degs big_graph)
         = Some cat_perturbed \/
       PyDict.get g (categorize_genes [] big_degs big_graph) = Some cat_up \/
       PyDict.get g (categorize_genes [] big_degs big_graph)
         = Some cat_down) \/
      (exists rows, table_of big_degs = Some rows /\
         In g (first_ten_members big_graph
                 (stable_sort_by_abs_log2FC rows)))) /\
    (forall rows g fc,
       table_of big_degs = Some rows ->
       In (g, fc) rows -> In g (Nx.nodes big_graph) ->
       members_not_behind big_graph rows (g, fc) <= 10 ->
       In g (out_nodes_to_label out)) /\
    (forall g, In g (out_nodes_to_label out) ->
       (PyDict.get g (categorize_genes [] big_degs big_graph)
          = Some cat_perturbed \/
        PyDict.get g (categorize_genes [] big_degs big_graph)
          = Some cat_up \/
        PyDict.get g (categorize_genes [] big_degs big_graph)
          = Some cat_down) \/
       (exists rows fc, table_of big_degs = Some rows /\
          In (g, fc) rows /\ In g (Nx.nodes big_graph) /\
          members_ahead big_graph rows (g, fc) < 10)).
Proof.
  destruct (label_selection (Q * Q)%type sample_spring failing_layout
              sample_circular failing_layout sample_betweenness
              stable_sort_by_abs_log2FC
              big_graph [] big_degs spring
              LabelSelection.stable_sort_admissible)
    as (out & Hrun & _ & Hbig).
  exists out. split; [exact Hrun |].
  apply Hbig. vm_compute. lia.
Defined.

(** C6, the defect.  On the path A - B - C, with a perturbed list that
    names no node and no table of fold-changes, every node is of category
    other.  The claim asks for a table with one row
    per node outside that category, here a table without rows; the script
    writes none: the frame made from no rows has no columns,
    [sort_values(['Category', 'Centrality'])] raises and the [except]
    branch prints a warning. *)
Theorem rank_table_not_written :
  exists out,
    sample_run chain_graph ["X"; "Y"] None spring = Some out /\
    (forall g, In g (Nx.nodes chain_graph) ->
       PyDict.get g (categorize_genes ["X"; "Y"] None chain_graph)
       = Some cat_other) /\
    out_table out = None.
Proof.
  assert (Htbl : option_map out_table
                   (sample_run chain_graph ["X"; "Y"] None spring)
                 = Some None) by (vm_compute; reflexivity).
  destruct (sample_run chain_graph ["X"; "Y"] None spring) as [out|];
    [| discriminate].
  exists out. split; [reflexivity |]. split.
  - intros g Hg. vm_compute in Hg.
    destruct Hg as [<- | [<- | [<- | []]]]; reflexivity.
  - cbn [option_map] in Htbl. congruence.
Qed.

Lemma rank_table_rows_and_order_witness :
  exists out tbl,
    sample_run sample_graph ["A"] sample_degs spring = Some out /\
    out_table out = Some tbl /\
    NoDup (map Gene tbl) /\
    StronglySorted (table_order tbl) tbl.
Proof.
  destruct (rank_table_rows_and_order (Q * Q)%type sample_spring
              failing_layout sample_circular failing_layout
              sample_betweenness stable_sort_by_abs_log2FC
              sample_graph ["A"] sample_degs spring)
    as (out & tbl & Hrun & Htbl & Hnd & _ & _ & Hs).
  - exists "A". split; [vm_compute; auto | vm_compute; discriminate].
  - exists out, tbl.
    split; [exact Hrun | split; [exact Htbl | split; [exact Hnd | exact Hs]]].
Defined.

(** * The scenarios of the specification, evaluated *)

Example scenario_categories :
  categorize_genes ["A"]
    (Some (mkDataFrame ["B"; "C"] (Some [of_Z 2; of_Z (-3)]))) sample_graph
  = [("A", "perturbed"); ("B", "up"); ("C", "down"); ("D", "other")].
Proof. reflexivity. Qed.

Example scenario_boundary :
  categorize_genes [] boundary_degs sample_graph
  = [("A", "other"); ("B", "other"); ("C", "other"); ("D", "other")].
Proof. reflexivity. Qed.

Example scenario_small_graph_labels :
  option_map out_nodes_to_label
    (sample_run sample_graph ["A"] sample_degs spring)
  = Some ["A"; "B"; "C"; "D"].
Proof. vm_compute. reflexivity. Qed.

Example scenario_repeated_gene :
  fold_changes_of sample_graph repeated_degs = []
  /\ categorize_genes [] repeated_degs sample_graph
     = [("A", "other"); ("B", "other"); ("C", "other"); ("D", "other")].
Proof. split; reflexivity. Qed.

Example scenario_no_table :
  option_map out_table (sample_run sample_graph [] None spring) = Some None.
Proof. vm_compute. reflexivity. Qed.

Example scenario_table_order :
  option_map (fun out => option_map (map Gene) (out_table out))
    (sample_run sample_graph ["A"] sample_degs spring)
  = Some (Some ["C"; "A"; "B"]).
Proof. vm_compute. reflexivity. Qed.

(** Eleven rows that tie: which ten genes are labelled depends on the sort
    the library runs.  The stable sort keeps table order and leaves g10
    out; the stable sort of the table read from the bottom, as good a sort
    for the library, leaves g00 out. *)
Example scenario_tied_rows :
  option_map out_nodes_to_label
    (sample_run_with stable_sort_by_abs_log2FC big_graph [] tied_degs spring)
  = Some (map gene_name (seq 0 10))
  /\ option_map out_nodes_to_label
       (sample_run_with reverse_sort_by_abs_log2FC big_graph [] tied_degs
                        spring)
     = Some (rev (map gene_name (seq 1 10))).
Proof. split; vm_compute; reflexivity. Qed.


(** * Beyond the claims: the classifier *)

Module ClassifierMore.
Import PyDict PyDictFacts OfPairs Classifier FoldChanges.

Lemma keys_set_existing {V : Type} (k : string) (v : V) (d : dict V) :
  In k (keys d) -> keys (set k v d) = keys d.
Proof.
  unfold keys. induction d as [|[k' v'] r IH]; simpl; [intros [] |].
  destruct (String.eqb k k') eqn:E; simpl; [reflexivity |].
  intros [H | H].
  - subst. now rewrite String.eqb_refl in E.
  - now rewrite IH.
Qed.

Lemma keys_set_each_existing {V : Type} (upd : string -> option V)
    (l : list string) (d : dict V) :
  (forall k, In k l -> upd k <> None -> In k (keys d)) ->
  keys (set_each upd l d) = keys d.
Proof.
  unfold set_each. revert d. induction l as [|x l IH]; intros d H; simpl.
  - reflexivity.
  - destruct (upd x) as [v|] eqn:U.
    + rewrite IH.
      * apply keys_set_existing. apply H; [now left | congruence].
      * intros k Hk Hu. apply keys_set_In. right. apply H; [now right | exact Hu].
    + apply IH. intros k Hk Hu. apply H; [now right | exact Hu].
Qed.

(** Two dictionaries with the same keys in the same order and the same
    value under every key are the same dictionary. *)
Lemma dict_ext {V : Type} (d1 d2 : dict V) :
  keys d1 = keys d2 -> NoDup (keys d1) ->
  (forall k, get k d1 = get k d2) -> d1 = d2.
Proof.
  unfold keys. revert d2.
  induction d1 as [|[k1 v1] r1 IH]; intros [|[k2 v2] r2]; simpl;
    try discriminate; [reflexivity |].
  intros [= <- Hk] Hnd Hget. inversion Hnd as [|? ? Hnin Hr]; subst.
  pose proof (Hget k1) as H1. simpl in H1. rewrite String.eqb_refl in H1.
  injection H1 as <-. f_equal. apply IH; [assumption | assumption |].
  intros k. specialize (Hget k). simpl in Hget.
  destruct (String.eqb k k1) eqn:E; [| exact Hget].
  apply String.eqb_eq in E. subst k.
  assert (get k1 r1 = None) as -> by now apply get_None_keys.
  symmetry. apply get_None_keys. unfold keys. now rewrite <- Hk.
Qed.

Lemma categorize_genes_keys_list P degs G :
  keys (categorize_genes P degs G)
  = keys (set_each upd_other (Nx.nodes G) []).
Proof.
  rewrite categorize_genes_loops.
  assert (Hin : forall k, In k (Nx.nodes G) ->
                In k (keys (set_each upd_other (Nx.nodes G) ([] : dict string)))).
  { intros k Hk. apply keys_set_each_In. right. split; [assumption |].
    discriminate. }
  assert (E2 : keys (set_each (upd_perturbed G) P
                       (set_each upd_other (Nx.nodes G) []))
               = keys (set_each upd_other (Nx.nodes G) ([] : dict string))).
  { apply keys_set_each_existing. intros k _ Hu. apply Hin.
    unfold upd_perturbed in Hu.
    destruct (str_in k (Nx.nodes G)) eqn:E; [| congruence].
    now apply str_in_In. }
  destruct (table_of degs) as [rows|]; [| exact E2].
  rewrite keys_set_each_existing; [exact E2 |].
  intros k Hk _. rewrite E2. now apply Hin.
Qed.

End ClassifierMore.

(** X1.  The category map depends on the perturbed list only through
    which graph nodes it names: two lists that name the same graph nodes,
    in whatever order, with whatever repetitions and with whatever genes
    outside the graph, give the same map. *)
Theorem categorize_genes_membership_only
    (P P' : list string) (degs_df : option DataFrame) (G : Nx.Graph) :
  (forall g, In g (Nx.nodes G) -> (In g P <-> In g P')) ->
  categorize_genes P degs_df G = categorize_genes P' degs_df G.
Proof.
  intros Hsame. apply ClassifierMore.dict_ext.
  - now rewrite !ClassifierMore.categorize_genes_keys_list.
  - apply Classifier.categorize_genes_NoDup.
  - intros k. rewrite !Classifier.categorize_genes_get.
    destruct (str_in k (Nx.nodes G)) eqn:E; [| reflexivity].
    apply str_in_In in E. specialize (Hsame k E).
    unfold classify.
    assert (str_in k P = str_in k P') as ->; [| reflexivity].
    destruct (str_in k P) eqn:E1, (str_in k P') eqn:E2; try reflexivity.
    + apply str_in_In in E1. apply Hsame in E1. apply str_in_In in E1.
      congruence.
    + apply str_in_In in E2. apply Hsame in E2. apply str_in_In in E2.
      congruence.
Qed.

Lemma categorize_genes_membership_only_witness :
  categorize_genes ["A"; "ZZZ"; "A"] sample_degs sample_graph
  = categorize_genes ["A"] sample_degs sample_graph.
Proof.
  apply categorize_genes_membership_only.
  intros g Hg. simpl in Hg. simpl.
  destruct Hg as [<- | [<- | [<- | [<- | []]]]];
    split; intros H; auto;
    repeat (destruct H as [H | H]; try discriminate; auto).
Defined.

Lemma category_from_map_eq
    (P : list string) (degs_df : option DataFrame) (G : Nx.Graph)
    (g : string) :
  In g (Nx.nodes G) ->
  PyDict.get g (categorize_genes P degs_df G)
  = Some (category_from_map P (fold_changes_of G degs_df) g).
Proof.
  intros Hg. rewrite Classifier.categorize_genes_get.
  rewrite (proj2 (str_in_In _ _) Hg). f_equal.
  unfold classify, category_from_map.
  destruct (str_in g P); [reflexivity |].
  rewrite FoldChanges.fold_changes_get, (proj2 (str_in_In _ _) Hg).
  destruct (table_of degs_df) as [rows|]; [| reflexivity].
  unfold upd_fc.
  destruct (PyDict.get g (PyDict.of_pairs rows)) as [fc|]; [| reflexivity].
  now destruct (isna fc).
Qed.

(** X2.  The category of a node can be read off the fold-change map: a
    node outside the perturbed list is up exactly when the map holds a
    value above 1 for it, down exactly when it holds a value below -1, and
    other in every remaining case, a node without an entry included. *)
Theorem category_agrees_with_fold_change_map
    (P : list string) (degs_df : option DataFrame) (G : Nx.Graph)
    (g : string) :
  In g (Nx.nodes G) ->
  PyDict.get g (categorize_genes P degs_df G)
  = Some (category_from_map P (fold_changes_of G degs_df) g).
Proof. apply category_from_map_eq. Qed.

Lemma category_agrees_with_fold_change_map_witness :
  PyDict.get "B" (categorize_genes ["A"] sample_degs sample_graph)
  = Some (category_from_map ["A"]
            (fold_changes_of sample_graph sample_degs) "B").
Proof.
  apply category_agrees_with_fold_change_map. simpl. auto.
Defined.

(** * Beyond the claims: counting, drawing and labelling *)

Module RunMoreFacts.
Import PyDict PyDictFacts OfPairs Classifier FoldChanges Organize Drawing.

Lemma keys_set_new {V : Type} (k : string) (v : V) (d : dict V) :
  ~ In k (keys d) -> keys (set k v d) = keys d ++ [k].
Proof.
  unfold keys. induction d as [|[k' v'] r IH]; simpl; [reflexivity |].
  intros Hn. destruct (String.eqb k k') eqn:E.
  - apply String.eqb_eq in E. subst. exfalso. apply Hn. now left.
  - simpl. rewrite IH; [reflexivity |]. intros H. apply Hn. now right.
Qed.

Lemma keys_loop_other (l : list string) (d : dict string) :
  NoDup (keys d ++ l) ->
  keys (set_each upd_other l d) = keys d ++ l.
Proof.
  unfold set_each. revert d. induction l as [|x l IH]; intros d Hnd; simpl.
  - now rewrite app_nil_r.
  - assert (Hx : ~ In x (keys d)).
    { intros H. apply NoDup_remove_2 in Hnd. apply Hnd.
      apply in_or_app. now left. }
    rewrite IH.
    + rewrite keys_set_new by assumption. now rewrite <- app_assoc.
    + rewrite keys_set_new by assumption. now rewrite <- app_assoc.
Qed.

(** The category map lists the nodes in the order of the graph. *)
Lemma categorize_genes_keys_are_nodes P degs G :
  NoDup (Nx.nodes G) -> keys (categorize_genes P degs G) = Nx.nodes G.
Proof.
  intros Hnd. rewrite ClassifierMore.categorize_genes_keys_list.
  now rewrite keys_loop_other.
Qed.

Lemma partition_by_category (gc : dict string) :
  (forall item, In item gc -> In (snd item) four_categories) ->
  List.length (nodes_of_category gc cat_perturbed)
  + (List.length (nodes_of_category gc cat_up)
     + (List.length (nodes_of_category gc cat_down)
        + List.length (nodes_of_category gc cat_other)))
  = List.length gc.
Proof.
  unfold nodes_of_category, items.
  induction gc as [|[n c] gc IH]; intros Hall; [reflexivity |].
  assert (Hc : In c four_categories) by (apply (Hall (n, c)); now left).
  specialize (IH (fun item Hi => Hall item (or_intror Hi))).
  unfold four_categories in Hc. simpl in Hc.
  destruct Hc as [<- | [<- | [<- | [<- | []]]]];
    cbn [filter snd]; cbv [cat_perturbed cat_up cat_down cat_other];
    cbn [String.eqb Ascii.eqb Bool.eqb map List.length];
    fold cat_perturbed cat_up cat_down cat_other; lia.
Qed.

Lemma sum_counts_app (l1 l2 : list (nat * string)) :
  sum_counts (l1 ++ l2) = sum_counts l1 + sum_counts l2.
Proof.
  unfold sum_counts. induction l1 as [|x l1 IH]; simpl; [reflexivity |].
  rewrite IH. lia.
Qed.

Lemma sum_counts_one (l : list string) (w : string) :
  sum_counts (if nonempty l then [(List.length l, w)] else [])
  = List.length l.
Proof. destruct l; simpl; [reflexivity | lia]. Qed.

Lemma fold_append_new_NoDup (l acc : list string) :
  NoDup acc -> NoDup (fold_left append_new l acc).
Proof.
  revert acc. induction l as [|x l IH]; intros acc Hnd; simpl;
    [assumption |].
  apply IH. unfold append_new. destruct (str_in x acc) eqn:E;
    [assumption |].
  apply str_in_false in E.
  apply NoDup_app; [assumption | constructor; [intros [] | constructor] |].
  intros a Ha [<- | []]. contradiction.
Qed.

Lemma fold_append_new_length (l acc : list string) :
  List.length (fold_left append_new l acc)
  <= List.length acc + List.length l.
Proof.
  revert acc. induction l as [|x l IH]; intros acc; simpl; [lia |].
  specialize (IH (append_new acc x)). unfold append_new in *.
  destruct (str_in x acc); [lia |].
  rewrite length_app in IH. simpl in IH. lia.
Qed.

Lemma nodes_of_category_NoDup (gc : dict string) (c : string) :
  NoDup (keys gc) -> NoDup (nodes_of_category gc c).
Proof.
  intros H. unfold nodes_of_category, items.
  now apply TableFacts.NoDup_map_fst_filter.
Qed.

End RunMoreFacts.

Section RunMore.
Import PyDict PyDictFacts OfPairs Classifier FoldChanges Organize Drawing.
Import RunMoreFacts.

Variable Coord : Type.
Variable spring_layout : Nx.Graph -> Q -> nat -> nat -> dict Coord.
Variable kamada_kawai_layout : Nx.Graph -> option (dict Coord).
Variable circular_layout : Nx.Graph -> dict Coord.
Variable spectral_layout : Nx.Graph -> option (dict Coord).
Variable betweenness_centrality : Nx.Graph -> dict Q.
Variable sort_by_abs_log2FC : list (string * float) -> list (string * float).

Variable G : Nx.Graph.
Variable perturbed_genes : list string.
Variable degs_df : option DataFrame.
Variable layout : layout_choice.

Let gene_categories := categorize_genes perturbed_genes degs_df G.
Let fold_changes := fold_changes_of G degs_df.
Let run :=
  main Coord spring_layout kamada_kawai_layout circular_layout
       spectral_layout betweenness_centrality sort_by_abs_log2FC
       G perturbed_genes degs_df layout.
Let the_run :=
  main_runs Coord spring_layout kamada_kawai_layout circular_layout
            spectral_layout betweenness_centrality sort_by_abs_log2FC
            G perturbed_genes degs_df layout.

Lemma list_of_category (c n : string) :
  In n (nodes_of_category gene_categories c) <->
  get n gene_categories = Some c.
Proof.
  apply nodes_of_category_get. apply categorize_genes_NoDup.
Qed.

(** X3.  The counts of the title are never zero and add up to the number
    of nodes of the graph, and they are the counts [categorize_genes]
    prints for the same categories. *)
Theorem title_counts_add_up :
  NoDup (Nx.nodes G) ->
  exists nc, organize gene_categories = Some nc /\
    sum_counts (gene_counts nc) = Nx.number_of_nodes G /\
    (forall n w, In (n, w) (gene_counts nc) -> n <> 0) /\
    (forall c, In c four_categories ->
       get c (category_counts gene_categories)
       = Some (List.length (nc_at nc c))).
Proof.
  intros Hnd. eexists. split; [apply organize_categorize |].
  fold gene_categories.
  assert (Hat : forall c, In c four_categories ->
            nc_at [(cat_perturbed, nodes_of_category gene_categories cat_perturbed);
                   (cat_up, nodes_of_category gene_categories cat_up);
                   (cat_down, nodes_of_category gene_categories cat_down);
                   (cat_other, nodes_of_category gene_categories cat_other)] c
            = nodes_of_category gene_categories c).
  { intros c Hc. unfold four_categories in Hc. simpl in Hc.
    destruct Hc as [<- | [<- | [<- | [<- | []]]]]; reflexivity. }
  split; [| split].
  - unfold gene_counts. cbn [flat_map fst snd].
    rewrite !sum_counts_app, !sum_counts_one.
    rewrite !Hat by (unfold four_categories; simpl; auto 6).
    cbn [sum_counts fold_right]. rewrite Nat.add_0_r.
    rewrite partition_by_category
      by apply (categorize_genes_values perturbed_genes degs_df G).
    unfold Nx.number_of_nodes.
    rewrite <- (categorize_genes_keys_are_nodes perturbed_genes degs_df G Hnd).
    unfold keys. now rewrite length_map.
  - intros n w Hin. unfold gene_counts in Hin. cbn [flat_map fst snd] in Hin.
    repeat (apply in_app_or in Hin; destruct Hin as [Hin | Hin]);
      try contradiction;
      match type of Hin with
      | In _ (if nonempty ?l then _ else _) =>
          destruct l; simpl in Hin;
          [contradiction | destruct Hin as [[= <- _] | []]; discriminate]
      end.
  - intros c Hc. rewrite (Hat c Hc).
    unfold category_counts, nodes_of_category, items, values.
    rewrite length_map.
    assert (Hlen : forall l : dict string,
              List.length (filter (String.eqb c) (map snd l))
              = List.length (filter (fun item => String.eqb (snd item) c) l)).
    { induction l as [|[k v] l IH]; simpl; [reflexivity |].
      rewrite (String.eqb_sym c v). destruct (String.eqb v c); simpl;
        now rewrite IH. }
    rewrite <- Hlen.
    unfold four_categories in Hc. simpl in Hc.
    destruct Hc as [<- | [<- | [<- | [<- | []]]]]; reflexivity.
Qed.

(** X4.  In the primary figure every node of a category other than
    perturbed is painted by some call.  A perturbed node is painted exactly
    when it has a fold-change entry or no perturbed node has one: once one
    perturbed node has an entry, the perturbed nodes without one are left
    out of the figure. *)
Theorem primary_figure_coverage :
  exists out, run = Some out /\
  (forall n c, get n gene_categories = Some c -> c <> cat_perturbed ->
     exists d, In d (out_primary_nodes out) /\ In n (nodelist d)) /\
  (forall n, get n gene_categories = Some cat_perturbed ->
     (exists d, In d (out_primary_nodes out) /\ In n (nodelist d)) <->
     (In n (keys fold_changes) \/
      forall p, get p gene_categories = Some cat_perturbed ->
                ~ In p (keys fold_changes))).
Proof.
  destruct the_run as (out & Hrun & Hp & _).
  exists out. split; [exact Hrun |]. rewrite Hp. clear Hp.
  fold gene_categories fold_changes.
  set (ps := nodes_of_category gene_categories cat_perturbed).
  split.
  - intros n c Hn Hc.
    assert (Hc4 : In c four_categories).
    { apply get_In in Hn.
      apply (categorize_genes_values perturbed_genes degs_df G (n, c) Hn). }
    apply list_of_category in Hn.
    assert (Hne : nodes_of_category gene_categories c <> [])
      by (intros E; rewrite E in Hn; contradiction).
    unfold four_categories in Hc4. simpl in Hc4.
    destruct Hc4 as [<- | [<- | [<- | [<- | []]]]]; [congruence | | |].
    + exists (mkDraw (nodes_of_category gene_categories cat_up) (Named "red")).
      split; [| exact Hn].
      apply in_or_app; right. apply in_or_app; right. apply in_or_app; left.
      now apply In_draw_if_any.
    + exists (mkDraw (nodes_of_category gene_categories cat_down)
                     (Named "blue")).
      split; [| exact Hn].
      apply in_or_app; right. apply in_or_app; left.
      now apply In_draw_if_any.
    + exists (mkDraw (nodes_of_category gene_categories cat_other)
                     (Named "lightgray")).
      split; [| exact Hn]. apply in_or_app; left. now apply In_draw_if_any.
  - intros n Hn. apply list_of_category in Hn. fold ps in Hn.
    assert (Hflat : forall c col d,
              c <> cat_perturbed ->
              In d (draw_if_any (nodes_of_category gene_categories c) col) ->
              ~ In n (nodelist d)).
    { intros c col d Hc Hd Hnd. apply In_draw_if_any in Hd.
      destruct Hd as [_ ->]. cbn [nodelist] in Hnd.
      apply list_of_category in Hnd. apply list_of_category in Hn.
      congruence. }
    assert (Hvalid_nil : valid_perturbed ps fold_changes = [] <->
              forall p, get p gene_categories = Some cat_perturbed ->
                        ~ In p (keys fold_changes)).
    { split.
      - intros E p Hp Hk. apply list_of_category in Hp.
        assert (Hin : In p (valid_perturbed ps fold_changes))
          by (apply valid_perturbed_In; split; assumption).
        rewrite E in Hin. exact Hin.
      - intros Hnone.
        destruct (valid_perturbed ps fold_changes) as [|p r] eqn:E;
          [reflexivity |].
        assert (Hin : In p (valid_perturbed ps fold_changes))
          by (rewrite E; now left).
        apply valid_perturbed_In in Hin. destruct Hin as [Hp Hk].
        apply list_of_category in Hp. exfalso. exact (Hnone p Hp Hk). }
    assert (Hfc_nil : perturbed_fc ps fold_changes = [] <->
                      valid_perturbed ps fold_changes = []).
    { unfold perturbed_fc, valid_perturbed.
      destruct (perturbed_with_fc ps fold_changes); simpl;
        split; intros; congruence. }
    assert (Hps : nonempty ps = true)
      by (destruct ps; [contradiction | reflexivity]).
    rewrite Hps. cbn [andb]. cbv zeta. split.
    + intros [d [Hd Hnd]].
      repeat (apply in_app_or in Hd; destruct Hd as [Hd | Hd]);
        try (exfalso; eapply Hflat; try eassumption; discriminate).
      destruct (nonempty fold_changes) eqn:Hfc.
      * destruct (color_domain (perturbed_fc ps fold_changes))
          as [[vmin vmax]|] eqn:E.
        -- destruct Hd as [<- | []]. cbn [nodelist] in Hnd.
           apply valid_perturbed_In in Hnd. left. tauto.
        -- right. apply Hvalid_nil, Hfc_nil.
           destruct (perturbed_fc ps fold_changes); [reflexivity |].
           discriminate.
      * right. intros p _ Hk.
        destruct fold_changes; [exact Hk | discriminate].
    + intros Hcase.
      destruct (nonempty fold_changes) eqn:Hfc.
      * destruct (color_domain (perturbed_fc ps fold_changes))
          as [[vmin vmax]|] eqn:E.
        -- assert (Hk : In n (keys fold_changes)).
           { destruct Hcase as [Hk | Hnone]; [exact Hk |].
             apply Hvalid_nil, Hfc_nil in Hnone. rewrite Hnone in E.
             discriminate. }
           eexists. split.
           ++ do 3 (apply in_or_app; right). now left.
           ++ cbn [nodelist]. apply valid_perturbed_In. now split.
        -- eexists. split.
           ++ do 3 (apply in_or_app; right). now left.
           ++ exact Hn.
      * eexists. split.
        -- do 3 (apply in_or_app; right). now left.
        -- exact Hn.
Qed.

(** X5.  In the labeled figure every node is painted, and only by a call
    with the fixed colour of its category: lightgray, blue, red or purple;
    the diverging scale paints no node there. *)
Theorem labeled_figure_coverage :
  exists out, run = Some out /\
  forall n c, get n gene_categories = Some c ->
    (exists d, In d (out_labeled_nodes out) /\ In n (nodelist d)) /\
    (forall d, In d (out_labeled_nodes out) -> In n (nodelist d) ->
               color d = Named (labeled_colour c)).
Proof.
  destruct the_run as (out & Hrun & _ & Hl & _).
  exists out. split; [exact Hrun |]. rewrite Hl. clear Hl.
  fold gene_categories. intros n c Hn.
  assert (Hc4 : In c four_categories).
  { apply get_In in Hn.
    apply (categorize_genes_values perturbed_genes degs_df G (n, c) Hn). }
  pose proof Hn as Hlist. apply list_of_category in Hlist.
  assert (Hne : nodes_of_category gene_categories c <> [])
    by (intros E; rewrite E in Hlist; contradiction).
  split.
  - exists (mkDraw (nodes_of_category gene_categories c)
                   (Named (labeled_colour c))).
    split; [| exact Hlist].
    unfold four_categories in Hc4. simpl in Hc4.
    destruct Hc4 as [<- | [<- | [<- | [<- | []]]]].
    + do 3 (apply in_or_app; right). now apply In_draw_if_any.
    + do 2 (apply in_or_app; right). apply in_or_app; left.
      now apply In_draw_if_any.
    + apply in_or_app; right. apply in_or_app; left.
      now apply In_draw_if_any.
    + apply in_or_app; left. now apply In_draw_if_any.
  - intros d Hd Hnd.
    assert (Hone : forall c' col,
              In d (draw_if_any (nodes_of_category gene_categories c') col) ->
              c' = c /\ color d = Named col).
    { intros c' col Hin. apply In_draw_if_any in Hin.
      destruct Hin as [_ ->]. cbn [nodelist color] in *.
      apply list_of_category in Hnd. split; [congruence | reflexivity]. }
    repeat (apply in_app_or in Hd; destruct Hd as [Hd | Hd]);
      apply Hone in Hd; destruct Hd as [<- ->]; reflexivity.
Qed.

End RunMore.

Lemma NoDup_sample_graph : NoDup (Nx.nodes sample_graph).
Proof.
  vm_compute. repeat constructor; simpl; intuition discriminate.
Qed.

Lemma title_counts_add_up_witness :
  exists nc,
    organize (categorize_genes ["A"] sample_degs sample_graph) = Some nc /\
    sum_counts (gene_counts nc) = Nx.number_of_nodes sample_graph /\
    (forall n w, In (n, w) (gene_counts nc) -> n <> 0) /\
    (forall c, In c four_categories ->
       PyDict.get c (category_counts
                       (categorize_genes ["A"] sample_degs sample_graph))
       = Some (List.length (nc_at nc c))).
Proof.
  apply (title_counts_add_up sample_graph ["A"] sample_degs).
  exact NoDup_sample_graph.
Defined.

(** * Beyond the claims: labels and table rows of a run *)

Section RunLabels.
Import PyDict PyDictFacts OfPairs Classifier FoldChanges Organize Drawing.
Import RunMoreFacts.

Variable Coord : Type.
Variable spring_layout : Nx.Graph -> Q -> nat -> nat -> dict Coord.
Variable kamada_kawai_layout : Nx.Graph -> option (dict Coord).
Variable circular_layout : Nx.Graph -> dict Coord.
Variable spectral_layout : Nx.Graph -> option (dict Coord).
Variable betweenness_centrality : Nx.Graph -> dict Q.
Variable sort_by_abs_log2FC : list (string * float) -> list (string * float).

Variable G : Nx.Graph.
Variable perturbed_genes : list string.
Variable degs_df : option DataFrame.
Variable layout : layout_choice.

Let gene_categories := categorize_genes perturbed_genes degs_df G.
Let fold_changes := fold_changes_of G degs_df.
Let run :=
  main Coord spring_layout kamada_kawai_layout circular_layout
       spectral_layout betweenness_centrality sort_by_abs_log2FC
       G perturbed_genes degs_df layout.
Let the_run :=
  main_runs Coord spring_layout kamada_kawai_layout circular_layout
            spectral_layout betweenness_centrality sort_by_abs_log2FC
            G perturbed_genes degs_df layout.
Let important :=
  nodes_of_category gene_categories cat_perturbed
  ++ nodes_of_category gene_categories cat_up
  ++ nodes_of_category gene_categories cat_down.

Lemma in_category_list (c n : string) :
  In n (nodes_of_category gene_categories c) <->
  get n gene_categories = Some c.
Proof.
  apply nodes_of_category_get. apply categorize_genes_NoDup.
Qed.

Lemma important_NoDup : NoDup important.
Proof.
  pose proof (categorize_genes_NoDup perturbed_genes degs_df G) as Hnd.
  fold gene_categories in Hnd. unfold important.
  apply NoDup_app; [now apply nodes_of_category_NoDup | |].
  - apply NoDup_app; [now apply nodes_of_category_NoDup
                     | now apply nodes_of_category_NoDup |].
    intros a Ha Hb. apply in_category_list in Ha.
    apply in_category_list in Hb. rewrite Ha in Hb. discriminate.
  - intros a Ha Hb. apply in_category_list in Ha.
    apply in_app_or in Hb.
    destruct Hb as [Hb | Hb]; apply in_category_list in Hb;
      rewrite Ha in Hb; discriminate.
Qed.

Lemma important_In (g : string) :
  In g important <->
  exists c, get g gene_categories = Some c /\ c <> cat_other.
Proof.
  unfold important. rewrite !in_app_iff, !in_category_list. split.
  - intros [H | [H | H]]; eexists; (split; [exact H | discriminate]).
  - intros [c [Hc Hne]].
    pose proof (categorize_genes_values perturbed_genes degs_df G
                  (g, c) (get_In _ _ _ Hc)) as H4.
    unfold four_categories in H4. simpl in H4.
    destruct H4 as [<- | [<- | [<- | [<- | []]]]]; auto; congruence.
Qed.

Lemma node_of_category (g c : string) :
  get g gene_categories = Some c -> In g (Nx.nodes G).
Proof.
  intros H. apply (categorize_genes_keys perturbed_genes degs_df G).
  apply mem_keys. unfold mem. fold gene_categories. now rewrite H.
Qed.

(** X6.  The list of nodes to label names no node twice and names only
    nodes of the graph; every node that is perturbed, up or down is in it,
    whatever the size of the graph; and on a graph of more than 50 nodes
    it holds at most ten names beyond those. *)
Theorem labels_invariants :
  NoDup (Nx.nodes G) ->
  exists out, run = Some out /\
    NoDup (out_nodes_to_label out) /\
    (forall g, In g (out_nodes_to_label out) -> In g (Nx.nodes G)) /\
    (forall g c, get g gene_categories = Some c -> c <> cat_other ->
                 In g (out_nodes_to_label out)) /\
    (50 < List.length (Nx.nodes G) ->
     List.length (out_nodes_to_label out) <= List.length important + 10).
Proof.
  intros Hnd. destruct the_run as (out & Hrun & _ & _ & _ & _ & Hnl & _).
  exists out. split; [exact Hrun |]. rewrite Hnl. clear Hnl.
  rewrite LabelSelection.nodes_to_label_table.
  change (important_nodes _) with important.
  destruct (Nat.leb (List.length (Nx.nodes G)) 50) eqn:Hsize.
  - split; [exact Hnd |]. split; [auto |]. split.
    + intros g c Hc _. now apply (node_of_category g c).
    + intros Hgt. apply Nat.leb_le in Hsize. lia.
  - assert (Himp_nodes : forall g, In g important -> In g (Nx.nodes G)).
    { intros g Hg. apply important_In in Hg. destruct Hg as [c [Hc _]].
      now apply (node_of_category g c). }
    destruct (table_of degs_df) as [rows|].
    + split; [apply fold_append_new_NoDup, important_NoDup |].
      split; [| split].
      * intros g Hg. apply LabelSelection.fold_append_new_In in Hg.
        destruct Hg as [Hg | Hg]; [now apply Himp_nodes |].
        exact (LabelSelection.top_fc_genes_nodes _ G rows g Hg).
      * intros g c Hc Hne. apply LabelSelection.fold_append_new_In. left.
        apply important_In. now exists c.
      * intros _.
        eapply Nat.le_trans; [apply fold_append_new_length |].
        apply Nat.add_le_mono_l. unfold top_fc_genes.
        rewrite length_map. apply firstn_le_length.
    + split; [apply important_NoDup |]. split; [exact Himp_nodes |].
      split.
      * intros g c Hc Hne. apply important_In. now exists c.
      * intros _. lia.
Qed.

(** X7.  In the table that is written, every row of category up carries a
    numeric fold-change above 1 and every row of category down one below
    -1; a row with the placeholder in place of a fold-change is a
    perturbed gene.  So a table with an up or a down row is always the one
    ordered by fold-change. *)
Theorem table_rows_carry_fold_change :
  exists out, run = Some out /\
  forall tbl, out_table out = Some tbl ->
    (forall r, In r tbl ->
       (Category r = cat_up ->
        exists v, log2FC r = Some v /\ fgt v (of_Z 1) = true) /\
       (Category r = cat_down ->
        exists v, log2FC r = Some v /\ flt v (of_Z (-1)) = true) /\
       (log2FC r = None -> Category r = cat_perturbed)) /\
    ((exists r, In r tbl /\ (Category r = cat_up \/ Category r = cat_down)) ->
     has_known_fc tbl).
Proof.
  destruct the_run as (out & Hrun & _ & _ & _ & _ & _ & Htbl & _).
  exists out. split; [exact Hrun |]. rewrite Htbl. clear Htbl.
  rewrite TableFacts.create_gene_table_cases.
  fold gene_categories fold_changes.
  pose proof (TableFacts.table_data_In betweenness_centrality G
                gene_categories fold_changes) as Hrow.
  remember (table_data betweenness_centrality G gene_categories fold_changes)
    as rows eqn:Hdef. clear Hdef.
  intros tbl Heq.
  assert (Hin : forall r, In r tbl -> In r rows).
  { destruct rows as [|r0 rs]; [discriminate |]. injection Heq as <-.
    intros r Hr.
    exact (proj1 (SortFacts.sort_values_In _ (r0 :: rs) r) Hr). }
  assert (Hrows : forall r, In r tbl ->
            (Category r = cat_up ->
             exists v, log2FC r = Some v /\ fgt v (of_Z 1) = true) /\
            (Category r = cat_down ->
             exists v, log2FC r = Some v /\ flt v (of_Z (-1)) = true) /\
            (log2FC r = None -> Category r = cat_perturbed)).
  { intros r Hr. destruct (Hrow r (Hin r Hr)) as (Hitem & Himp & Hfc & _).
    apply (In_get_NoDup _ _ _
             (categorize_genes_NoDup perturbed_genes degs_df G)) in Hitem.
    pose proof (node_of_category _ _ Hitem) as Hnode.
    unfold gene_categories in Hitem.
    rewrite (category_from_map_eq _ _ _ _ Hnode) in Hitem.
    injection Hitem as Hcat. fold fold_changes in Hcat.
    unfold category_from_map in Hcat. rewrite <- Hfc in Hcat.
    unfold P_important, important_categories in Himp. simpl in Himp.
    destruct (str_in (Gene r) perturbed_genes).
    - rewrite <- Hcat. repeat split; intros; try discriminate; reflexivity.
    - destruct (log2FC r) as [v|].
      + destruct (fgt v (of_Z 1)) eqn:E1.
        * rewrite <- Hcat. repeat split; intros; try discriminate.
          now exists v.
        * destruct (flt v (of_Z (-1))) eqn:E2.
          -- rewrite <- Hcat. repeat split; intros; try discriminate.
             now exists v.
          -- rewrite <- Hcat in Himp.
             destruct Himp as [H | [H | [H | []]]]; discriminate.
      + rewrite <- Hcat in Himp.
        destruct Himp as [H | [H | [H | []]]]; discriminate. }
  split; [exact Hrows |].
  intros [r [Hr Hcat]]. exists r. split; [exact Hr |].
  destruct (Hrows r Hr) as (Hup & Hdown & _).
  destruct Hcat as [Hc | Hc]; [destruct (Hup Hc) as [v [-> _]]
                              | destruct (Hdown Hc) as [v [-> _]]];
    discriminate.
Qed.

End RunLabels.

Lemma NoDup_big_graph : NoDup (Nx.nodes big_graph).
Proof.
  unfold big_graph, Nx.from_pandas_edgelist.
  apply GraphFacts.add_edges_from_NoDup. constructor.
Qed.

Lemma labels_invariants_witness :
  exists out, sample_run big_graph [] big_degs spring = Some out /\
    NoDup (out_nodes_to_label out) /\
    (forall g, In g (out_nodes_to_label out) -> In g (Nx.nodes big_graph)).
Proof.
  destruct (labels_invariants (Q * Q)%type sample_spring failing_layout
              sample_circular failing_layout sample_betweenness
              stable_sort_by_abs_log2FC
              big_graph [] big_degs spring NoDup_big_graph)
    as (out & Hrun & Hnd & Hsub & _).
  exists out. split; [exact Hrun | split; [exact Hnd | exact Hsub]].
Defined.

(** * Beyond the claims: building the graph twice *)

Module GraphMore.
Import PyDict PyDictFacts GraphFacts.

Lemma set_same {V : Type} (k : string) (v : V) (d : dict V) :
  get k d = Some v -> set k v d = d.
Proof.
  induction d as [|[k' v'] r IH]; simpl; [discriminate |].
  destruct (String.eqb k k') eqn:E.
  - intros [= ->]. reflexivity.
  - intros H. now rewrite IH.
Qed.

Lemma has_edge_mem (G : Nx.Graph) (u v : string) :
  Nx.has_edge G u v = true -> mem u G = true.
Proof.
  unfold Nx.has_edge, mem. now destruct (get u G).
Qed.

Lemma add_nbr_present (G : Nx.Graph) (u v : string) :
  Nx.has_edge G u v = true -> Nx.add_nbr u v G = G.
Proof.
  unfold Nx.has_edge, Nx.add_nbr.
  destruct (get u G) as [ns|] eqn:E; [| discriminate].
  intros ->. now apply set_same.
Qed.

Lemma add_edge_present (G : Nx.Graph) (u v : string) :
  Nx.has_edge G u v = true -> Nx.has_edge G v u = true ->
  Nx.add_edge u v G = G.
Proof.
  intros Huv Hvu. unfold Nx.add_edge, Nx.add_node.
  rewrite (has_edge_mem G u v Huv), (has_edge_mem G v u Hvu).
  rewrite (add_nbr_present G u v Huv). now apply add_nbr_present.
Qed.

Lemma add_edges_present (E : list (string * string)) (G : Nx.Graph) :
  (forall e, In e E -> Nx.has_edge G (fst e) (snd e) = true /\
                       Nx.has_edge G (snd e) (fst e) = true) ->
  Nx.add_edges_from E G = G.
Proof.
  unfold Nx.add_edges_from. induction E as [|e E IH]; intros H; simpl;
    [reflexivity |].
  destruct (H e (or_introl eq_refl)) as [H1 H2].
  rewrite (add_edge_present G _ _ H1 H2).
  apply IH. intros e' He'. apply H. now right.
Qed.

End GraphMore.

(** X8.  Rows that repeat or reverse rows met earlier in the edge list
    change nothing: the graph is the same, node for node and neighbour for
    neighbour, in the same order. *)
Theorem repeated_rows_change_nothing (E E' : list (string * string)) :
  (forall e, In e E' -> In e E \/ In (snd e, fst e) E) ->
  Nx.from_pandas_edgelist (E ++ E') = Nx.from_pandas_edgelist E.
Proof.
  intros Hsub. unfold Nx.from_pandas_edgelist, Nx.add_edges_from.
  rewrite fold_left_app.
  apply (GraphMore.add_edges_present E').
  intros e He. fold (Nx.add_edges_from E Nx.empty).
  rewrite !GraphFacts.add_edges_from_has_edge.
  destruct e as [u v]. simpl. destruct (Hsub (u, v) He) as [H | H]; auto.
Qed.

Lemma repeated_rows_change_nothing_witness :
  Nx.from_pandas_edgelist
    ([("A", "B"); ("B", "C")] ++ [("B", "A"); ("B", "C"); ("C", "B")])
  = Nx.from_pandas_edgelist [("A", "B"); ("B", "C")].
Proof.
  apply repeated_rows_change_nothing.
  intros e He. simpl in He. simpl.
  destruct He as [<- | [<- | [<- | []]]]; simpl; auto.
Defined.

(** * Beyond the claims: reading the gene list *)

Module PyStrFacts.
Import PyStr.

Lemma rstrip_cons (c : Ascii.ascii) (r : string) :
  rstrip (String c r) =
  match rstrip r with
  | EmptyString => if isspace c then EmptyString else String c EmptyString
  | String c' r' => String c (String c' r')
  end.
Proof. reflexivity. Qed.

Lemma rstrip_idem (s : string) : rstrip (rstrip s) = rstrip s.
Proof.
  induction s as [|c r IH]; [reflexivity |].
  rewrite rstrip_cons. destruct (rstrip r) as [|c' r'] eqn:E.
  - destruct (isspace c) eqn:Hc; [reflexivity |].
    rewrite rstrip_cons. simpl. now rewrite Hc.
  - rewrite rstrip_cons, IH. reflexivity.
Qed.

Lemma rstrip_keeps_head (c : Ascii.ascii) (r : string) :
  isspace c = false -> exists r', rstrip (String c r) = String c r'.
Proof.
  intros Hc. rewrite rstrip_cons. destruct (rstrip r).
  - rewrite Hc. now exists EmptyString.
  - eexists. reflexivity.
Qed.

Lemma lstrip_head (s : string) :
  lstrip s = EmptyString \/
  exists c r, lstrip s = String c r /\ isspace c = false.
Proof.
  induction s as [|c r IH]; simpl; [now left |].
  destruct (isspace c) eqn:Hc; [exact IH |].
  right. now exists c, r.
Qed.

Lemma strip_idem (s : string) : strip (strip s) = strip s.
Proof.
  unfold strip. destruct (lstrip_head s) as [E | (c & r & E & Hc)].
  - rewrite E. reflexivity.
  - rewrite E. destruct (rstrip_keeps_head c r Hc) as [r' E'].
    rewrite E'. cbn [lstrip]. rewrite Hc. rewrite <- E'. apply rstrip_idem.
Qed.

Lemma lstrip_length (s : string) :
  String.length (lstrip s) <= String.length s.
Proof.
  induction s as [|c r IH]; simpl; [lia |].
  destruct (isspace c); simpl; lia.
Qed.

Lemma rstrip_length (s : string) :
  String.length (rstrip s) <= String.length s.
Proof.
  induction s as [|c r IH]; [simpl; lia |].
  rewrite rstrip_cons. destruct (rstrip r); [destruct (isspace c) |];
    simpl in *; lia.
Qed.

(** A string that [strip] leaves alone is empty or starts with a character
    that is not white space. *)
Lemma strip_fixed_head (s : string) :
  strip s = s ->
  s = EmptyString \/ exists c r, s = String c r /\ isspace c = false.
Proof.
  destruct s as [|c r]; [now left |]. intros H. right.
  exists c, r. split; [reflexivity |].
  destruct (isspace c) eqn:Hc; [| reflexivity]. exfalso.
  unfold strip in H. cbn [lstrip] in H. rewrite Hc in H.
  pose proof (rstrip_length (lstrip r)) as H1.
  pose proof (lstrip_length r) as H2.
  rewrite H in H1. simpl in H1. lia.
Qed.

Lemma rstrip_app_space (s : string) (c : Ascii.ascii) :
  isspace c = true -> rstrip (String.append s (String c EmptyString)) = rstrip s.
Proof.
  intros Hc. induction s as [|a r IH]; simpl.
  - now rewrite Hc.
  - now rewrite IH.
Qed.

Lemma strip_line (g : string) (c : Ascii.ascii) :
  isspace c = true -> strip g = g ->
  strip (String.append g (String c EmptyString)) = g.
Proof.
  intros Hc Hg. destruct (strip_fixed_head g Hg) as [-> | (a & r & -> & Ha)].
  - unfold strip. simpl. now rewrite Hc.
  - unfold strip in *. cbn [String.append lstrip] in *. rewrite Ha in *.
    change (String a (String.append r (String c EmptyString)))
      with (String.append (String a r) (String c EmptyString)).
    now rewrite rstrip_app_space.
Qed.

Lemma contains_lstrip (c : Ascii.ascii) (s : string) :
  contains_char c s = false -> contains_char c (lstrip s) = false.
Proof.
  induction s as [|a r IH]; simpl; [reflexivity |].
  intros H. apply orb_false_iff in H. destruct H as [H1 H2].
  destruct (isspace a); [now apply IH |]. simpl. now rewrite H1, H2.
Qed.

Lemma contains_rstrip (c : Ascii.ascii) (s : string) :
  contains_char c s = false -> contains_char c (rstrip s) = false.
Proof.
  induction s as [|a r IH]; [reflexivity |].
  cbn [contains_char]. intros H. apply orb_false_iff in H.
  destruct H as [H1 H2]. rewrite rstrip_cons. specialize (IH H2).
  destruct (rstrip r) as [|c' r'].
  - destruct (isspace a); simpl; [reflexivity | now rewrite H1].
  - cbn [contains_char] in *. now rewrite H1, IH.
Qed.

Lemma contains_strip (c : Ascii.ascii) (s : string) :
  contains_char c s = false -> contains_char c (strip s) = false.
Proof.
  intros H. unfold strip. now apply contains_rstrip, contains_lstrip.
Qed.

Lemma split_cons (c a : Ascii.ascii) (r : string) :
  split c (String a r) =
  if Ascii.eqb a c then EmptyString :: split c r
  else match split c r with
       | [] => [String a EmptyString]
       | piece :: pieces => String a piece :: pieces
       end.
Proof. reflexivity. Qed.

Lemma split_length (c : Ascii.ascii) (s : string) :
  List.length (split c s) = S (count_char c s).
Proof.
  induction s as [|a r IH]; [reflexivity |].
  rewrite split_cons. cbn [count_char].
  destruct (Ascii.eqb a c); simpl; [now rewrite IH |].
  destruct (split c r); simpl in *; lia.
Qed.

Lemma split_pieces (c : Ascii.ascii) (s : string) (p : string) :
  In p (split c s) -> contains_char c p = false.
Proof.
  revert p. induction s as [|a r IH]; intros p.
  - simpl. intros [<- | []]. reflexivity.
  - rewrite split_cons. destruct (Ascii.eqb a c) eqn:E.
    + intros [<- | H]; [reflexivity | now apply IH].
    + destruct (split c r) as [|piece pieces].
      * intros [<- | []]. simpl. now rewrite E.
      * intros [<- | H].
        -- simpl. rewrite E. apply IH. now left.
        -- apply IH. now right.
Qed.

Lemma split_no_sep (c : Ascii.ascii) (s : string) :
  contains_char c s = false -> split c s = [s].
Proof.
  induction s as [|a r IH]; [reflexivity |].
  cbn [contains_char]. intros H. apply orb_false_iff in H.
  destruct H as [H1 H2]. rewrite split_cons, H1, (IH H2). reflexivity.
Qed.

Lemma split_app_sep (c : Ascii.ascii) (x rest : string) :
  contains_char c x = false ->
  split c (String.append x (String c rest)) = x :: split c rest.
Proof.
  induction x as [|a r IH]; intros H.
  - simpl. now rewrite Ascii.eqb_refl.
  - cbn [contains_char] in H. apply orb_false_iff in H.
    destruct H as [H1 H2]. cbn [String.append].
    rewrite split_cons, H1, (IH H2). reflexivity.
Qed.

Lemma split_join (c : Ascii.ascii) (l : list string) :
  l <> [] -> (forall x, In x l -> contains_char c x = false) ->
  split c (join (String c EmptyString) l) = l.
Proof.
  unfold join. induction l as [|x l IH]; [congruence |].
  intros _ H. destruct l as [|y l].
  - simpl. apply split_no_sep. apply H. now left.
  - change (String.concat (String c EmptyString) (x :: y :: l))
      with (String.append x
              (String.append (String c EmptyString)
                 (String.concat (String c EmptyString) (y :: l)))).
    cbn [String.append].
    rewrite split_app_sep by (apply H; now left).
    f_equal. apply IH; [discriminate |].
    intros z Hz. apply H. now right.
Qed.

Lemma contains_app_sep (c : Ascii.ascii) (x rest : string) :
  contains_char c (String.append x (String c rest)) = true.
Proof.
  induction x as [|a r IH]; simpl.
  - now rewrite Ascii.eqb_refl.
  - rewrite IH. apply orb_true_r.
Qed.

Lemma contains_join (c : Ascii.ascii) (x y : string) (l : list string) :
  contains_char c (join (String c EmptyString) (x :: y :: l)) = true.
Proof.
  unfold join.
  change (String.concat (String c EmptyString) (x :: y :: l))
    with (String.append x
            (String.append (String c EmptyString)
               (String.concat (String c EmptyString) (y :: l)))).
  cbn [String.append]. apply contains_app_sep.
Qed.

End PyStrFacts.

Section GeneList.
Import PyStr PyStrFacts.

Variable read_lines : string -> option (list string).

(** X9.  An input that holds a comma is always read as an inline list and
    never as a file: the result has one name more than the input has
    commas, so it is never empty, and each name is free of commas and of
    white space at either end (it may be the empty name). *)
Theorem inline_gene_list (gene_input : string) :
  contains_char comma gene_input = true ->
  exists genes,
    load_gene_list read_lines gene_input = Some genes /\
    List.length genes = S (count_char comma gene_input) /\
    forall g, In g genes ->
      contains_char comma g = false /\ strip g = g.
Proof.
  intros Hc. unfold load_gene_list. rewrite Hc.
  eexists. split; [reflexivity |]. split.
  - now rewrite length_map, split_length.
  - intros g Hg. apply in_map_iff in Hg. destruct Hg as [p [<- Hp]].
    split; [| apply strip_idem].
    apply contains_strip. now apply (split_pieces comma gene_input).
Qed.

(** X10.  Joining two or more comma-free names with commas and reading the
    result back gives the names again, each without the white space that
    stood around it. *)
Theorem inline_gene_list_round_trip (names : list string) :
  2 <= List.length names ->
  (forall x, In x names -> contains_char comma x = false) ->
  load_gene_list read_lines (join (String comma EmptyString) names)
  = Some (map strip names).
Proof.
  intros Hlen Hclean. unfold load_gene_list.
  destruct names as [|x [|y l]]; simpl in Hlen; try lia.
  rewrite contains_join.
  rewrite split_join; [reflexivity | discriminate | exact Hclean].
Qed.

(** X11.  An input without a comma is always taken as a path, even when
    it is a gene name: when the file cannot be read the script exits; when
    it can, no name of the result is empty or has white space at either
    end; and a file with one clean, non-empty name per line, each line
    closed by a white-space character, gives back exactly those names. *)
Theorem gene_file (gene_input : string) :
  contains_char comma gene_input = false ->
  (read_lines gene_input = None ->
   load_gene_list read_lines gene_input = None) /\
  (forall lines, read_lines gene_input = Some lines ->
     exists genes,
       load_gene_list read_lines gene_input = Some genes /\
       (forall g, In g genes -> g <> EmptyString /\ strip g = g) /\
       (forall names nl,
          isspace nl = true ->
          lines = map (fun g => String.append g (String nl EmptyString))
                      names ->
          (forall g, In g names -> g <> EmptyString /\ strip g = g) ->
          genes = names)).
Proof.
  intros Hc. unfold load_gene_list. rewrite Hc. split.
  - now intros ->.
  - intros lines ->. eexists. split; [reflexivity |]. split.
    + intros g Hg. apply in_map_iff in Hg. destruct Hg as [line [<- Hl]].
      apply filter_In in Hl. destruct Hl as [_ Hne].
      split; [| apply strip_idem].
      destruct (strip line); [discriminate | discriminate].
    + intros names nl Hnl -> Hnames.
      induction names as [|g names IH]; [reflexivity |].
      destruct (Hnames g (or_introl eq_refl)) as [Hne Hg].
      cbn [map filter]. rewrite (strip_line g nl Hnl Hg).
      destruct g as [|a r]; [congruence |]. cbn [nonempty_str map].
      rewrite (strip_line (String a r) nl Hnl Hg).
      f_equal. apply IH. intros g' Hg'. apply Hnames. now right.
Qed.

End GeneList.

Lemma inline_gene_list_witness :
  exists genes,
    load_gene_list sample_files "TP53, BRCA1 ,,MYC," = Some genes /\
    List.length genes = S (PyStr.count_char comma "TP53, BRCA1 ,,MYC,") /\
    forall g, In g genes ->
      PyStr.contains_char comma g = false /\ PyStr.strip g = g.
Proof.
  apply (inline_gene_list sample_files). reflexivity.
Defined.

Lemma inline_gene_list_round_trip_witness :
  load_gene_list sample_files
    (PyStr.join (String comma EmptyString) ["TP53"; " BRCA1 "; "MYC"])
  = Some (map PyStr.strip ["TP53"; " BRCA1 "; "MYC"]).
Proof.
  apply inline_gene_list_round_trip.
  - simpl. lia.
  - intros x Hx. simpl in Hx.
    destruct Hx as [<- | [<- | [<- | []]]]; reflexivity.
Defined.

Lemma gene_file_witness :
  load_gene_list sample_files "TP53" = None.
Proof.
  apply (gene_file sample_files "TP53"); reflexivity.
Defined.

(** * Beyond the claims: reading the edge list *)

Module FrameFacts.
Import PyDict PyDictFacts OfPairs.

Section Columns.
Context {D : Type}.
Implicit Types (df : Frame.t D).

Lemma filter_absent (name : string) df :
  ~ In name (Frame.columns df) ->
  filter (fun c : string * D => String.eqb (fst c) name) df = [].
Proof.
  unfold Frame.columns. induction df as [|[n d] df IH]; simpl;
    [reflexivity |].
  intros H. destruct (String.eqb_spec n name) as [-> | Hne].
  - exfalso. apply H. now left.
  - apply IH. intros Hin. apply H. now right.
Qed.

(** With distinct labels, [df[name]] is the one column of that name. *)
Lemma getitem_unique (name : string) (d : D) df :
  NoDup (Frame.columns df) -> get name df = Some d ->
  Frame.getitem name df = Frame.Column d.
Proof.
  unfold Frame.getitem, Frame.columns.
  induction df as [|[n d'] df IH]; simpl; [discriminate |].
  intros Hnd. inversion Hnd as [|? ? Hnin Hdf]; subst.
  rewrite (String.eqb_sym name n).
  destruct (String.eqb_spec n name) as [-> | Hne].
  - intros [= ->]. now rewrite (filter_absent name df Hnin).
  - intros Hget. now apply IH.
Qed.

Lemma rename_untouched (mapping : dict string) df :
  (forall n, In n (Frame.columns df) -> get n mapping = None) ->
  Frame.rename mapping df = df.
Proof.
  unfold Frame.rename, Frame.columns.
  induction df as [|[n d] df IH]; simpl; [reflexivity |].
  intros H. rewrite (H n (or_introl eq_refl)). simpl.
  f_equal. apply IH. intros m Hm. apply H. now right.
Qed.

End Columns.
End FrameFacts.

(** X12.  Reading an edge frame with distinct labels: when both a source
    and a target column are named, the graph is built from those two;
    when they are not both named and no column after the second is called
    source or target, it is built from the first two columns, whatever
    they are called; and a frame with fewer than two columns makes the
    script exit. *)
Theorem load_network_columns (df : Frame.t (list string)) :
  NoDup (Frame.columns df) ->
  (forall S T,
     PyDict.get "source" df = Some S -> PyDict.get "target" df = Some T ->
     load_network df = Some (Nx.from_pandas_edgelist (combine S T))) /\
  (forall n0 c0 n1 c1 rest,
     df = (n0, c0) :: (n1, c1) :: rest ->
     ~ (In "source" (Frame.columns df) /\ In "target" (Frame.columns df)) ->
     ~ In "source" (Frame.columns rest) ->
     ~ In "target" (Frame.columns rest) ->
     load_network df = Some (Nx.from_pandas_edgelist (combine c0 c1))) /\
  (List.length df < 2 -> load_network df = None).
Proof.
  intros Hnd. split; [| split].
  - intros S T HS HT. unfold load_network.
    assert (Hs : str_in "source" (Frame.columns df) = true).
    { apply str_in_In. apply PyDictFacts.mem_keys.
      unfold PyDict.mem. now rewrite HS. }
    assert (Ht : str_in "target" (Frame.columns df) = true).
    { apply str_in_In. apply PyDictFacts.mem_keys.
      unfold PyDict.mem. now rewrite HT. }
    rewrite Hs, Ht. cbn [negb orb].
    rewrite (FrameFacts.getitem_unique "source" S df Hnd HS).
    rewrite (FrameFacts.getitem_unique "target" T df Hnd HT).
    reflexivity.
  - intros n0 c0 n1 c1 rest -> Hnot Hs Ht. unfold load_network.
    assert (Hcond : negb (str_in "source"
                            (Frame.columns ((n0, c0) :: (n1, c1) :: rest)))
                    || negb (str_in "target"
                               (Frame.columns ((n0, c0) :: (n1, c1) :: rest)))
                    = true).
    { destruct (str_in "source" _) eqn:E1; [| reflexivity].
      destruct (str_in "target" _) eqn:E2; [| reflexivity].
      exfalso. apply Hnot. split; now apply str_in_In. }
    rewrite Hcond. cbn [fst].
    inversion Hnd as [|? ? Hn0 Hnd1]; subst.
    inversion Hnd1 as [|? ? Hn1 Hrest]; subst.
    assert (Hne : n0 <> n1) by (intros ->; apply Hn0; now left).
    set (mapping := PyDict.of_pairs [(n0, "source"); (n1, "target")]).
    assert (H0 : PyDict.get n0 mapping = Some "source").
    { unfold mapping, PyDict.of_pairs. simpl.
      rewrite String.eqb_sym.
      destruct (String.eqb_spec n0 n1) as [E | _]; [contradiction |].
      simpl. now rewrite String.eqb_refl. }
    assert (H1 : PyDict.get n1 mapping = Some "target").
    { unfold mapping, PyDict.of_pairs. simpl.
      rewrite String.eqb_sym.
      destruct (String.eqb_spec n0 n1) as [E | _]; [contradiction |].
      simpl.
      destruct (String.eqb_spec n1 n0) as [E | _]; [congruence |].
      now rewrite String.eqb_refl. }
    assert (Hother : forall n, In n (Frame.columns rest) ->
                     PyDict.get n mapping = None).
    { intros n Hn. apply PyDictFacts.get_None_keys.
      unfold mapping, PyDict.of_pairs. simpl.
      rewrite String.eqb_sym.
      destruct (String.eqb_spec n0 n1) as [E | _]; [contradiction |].
      simpl. intros [<- | [<- | []]].
      - apply Hn0. now right.
      - apply Hn1. exact Hn. }
    assert (Hren : Frame.rename mapping ((n0, c0) :: (n1, c1) :: rest)
                   = ("source", c0) :: ("target", c1) :: rest).
    { unfold Frame.rename. cbn [map fst snd]. rewrite H0, H1.
      do 2 f_equal. now apply FrameFacts.rename_untouched. }
    rewrite Hren.
    assert (Hnd' : NoDup (Frame.columns
                            (("source", c0) :: ("target", c1) :: rest))).
    { cbn [Frame.columns map fst]. constructor.
      - intros [H | H]; [discriminate | contradiction].
      - constructor; assumption. }
    rewrite (FrameFacts.getitem_unique "source" c0 _ Hnd')
      by reflexivity.
    rewrite (FrameFacts.getitem_unique "target" c1 _ Hnd')
      by reflexivity.
    reflexivity.
  - intros Hlen. unfold load_network.
    destruct df as [|[n d] [|c df]]; simpl in Hlen; try lia.
    + reflexivity.
    + cbn [Frame.columns map fst str_in existsb].
      destruct (String.eqb "source" n) eqn:E1; [| reflexivity].
      destruct (String.eqb "target" n) eqn:E2; [| reflexivity].
      apply String.eqb_eq in E1. apply String.eqb_eq in E2.
      subst. discriminate.
Qed.

Lemma load_network_columns_witness :
  load_network sample_edge_frame
  = Some (Nx.from_pandas_edgelist (combine ["A"; "B"] ["B"; "C"])).
Proof.
  assert (Hnd : NoDup (Frame.columns sample_edge_frame)).
  { simpl. repeat constructor; simpl; intuition discriminate. }
  destruct (load_network_columns sample_edge_frame Hnd) as (_ & Hpos & _).
  apply (Hpos "protein1" ["A"; "B"] "protein2" ["B"; "C"]
              [("combined_score", ["900"; "400"])]).
  - reflexivity.
  - simpl. intuition discriminate.
  - simpl. intuition discriminate.
  - simpl. intuition discriminate.
Defined.

(** * Beyond the claims: normalising the expression table *)

Module DegsFacts.
Import PyDict PyDictFacts.

Section Columns.
Context {D : Type}.
Implicit Types (df : Frame.t D).

Lemma columns_rename_single (old new : string) df :
  Frame.columns (Frame.rename [(old, new)] df)
  = map (relabel old new) (Frame.columns df).
Proof.
  unfold Frame.columns, Frame.rename, relabel. rewrite !map_map.
  apply map_ext. intros [l d]. simpl. now destruct (String.eqb l old).
Qed.

Lemma data_rename (mapping : dict string) df :
  map snd (Frame.rename mapping df) = map snd df.
Proof. unfold Frame.rename. rewrite map_map. reflexivity. Qed.

Lemma rename_same (name : string) df :
  Frame.rename [(name, name)] df = df.
Proof.
  unfold Frame.rename. rewrite <- (map_id df) at 2. apply map_ext.
  intros [l d]. simpl. destruct (String.eqb_spec l name); subst; reflexivity.
Qed.

Lemma rename_absent (old new : string) df :
  ~ In old (Frame.columns df) -> Frame.rename [(old, new)] df = df.
Proof.
  intros H. apply FrameFacts.rename_untouched. intros n Hn. simpl.
  destruct (String.eqb_spec n old) as [-> | _]; [contradiction | reflexivity].
Qed.

(** One step of the mapping loop, on the labels. *)
Lemma mapping_step_columns (old new : string) df :
  Frame.columns (if str_in old (Frame.columns df)
                 then Frame.rename [(old, new)] df else df)
  = map (relabel old new) (Frame.columns df).
Proof.
  destruct (str_in old (Frame.columns df)) eqn:E.
  - apply columns_rename_single.
  - apply str_in_false in E. rewrite <- (rename_absent old new df E) at 1.
    apply columns_rename_single.
Qed.

Lemma mapping_step_rename (old new : string) df :
  (if str_in old (Frame.columns df)
   then Frame.rename [(old, new)] df else df)
  = Frame.rename [(old, new)] df.
Proof.
  destruct (str_in old (Frame.columns df)) eqn:E; [reflexivity |].
  apply str_in_false in E. symmetry. now apply rename_absent.
Qed.

Lemma apply_column_mapping_eq df :
  apply_column_mapping df
  = Frame.rename [("log2FoldChange", "log2FC")]
      (Frame.rename [("index", "gene")] df).
Proof.
  unfold apply_column_mapping, column_mapping. cbn [fold_left fst snd].
  rewrite !mapping_step_rename, !rename_same. reflexivity.
Qed.

Lemma relabel_not_old (old new l : string) :
  old <> new -> relabel old new l <> old.
Proof.
  unfold relabel. intros Hne. destruct (String.eqb_spec l old); congruence.
Qed.

Lemma absent_after_rename (old new : string) df :
  old <> new -> ~ In old (Frame.columns (Frame.rename [(old, new)] df)).
Proof.
  intros Hne. rewrite columns_rename_single, in_map_iff.
  intros [l [Hl _]]. now apply (relabel_not_old old new l).
Qed.

Lemma absent_kept (name old new : string) df :
  name <> new -> ~ In name (Frame.columns df) ->
  ~ In name (Frame.columns (Frame.rename [(old, new)] df)).
Proof.
  intros Hne Habs. rewrite columns_rename_single, in_map_iff.
  intros [l [Hl Hin]]. unfold relabel in Hl.
  destruct (String.eqb l old); subst; [congruence | contradiction].
Qed.

(** A frame without the labels [index] and [log2FoldChange] passes the
    mapping loop unchanged. *)
Lemma apply_column_mapping_fixed df :
  ~ In "index" (Frame.columns df) ->
  ~ In "log2FoldChange" (Frame.columns df) ->
  apply_column_mapping df = df.
Proof.
  intros H1 H2. rewrite apply_column_mapping_eq.
  rewrite (rename_absent "index" "gene" df H1).
  now apply rename_absent.
Qed.

Lemma mapped_has_no_old_labels df :
  ~ In "index" (Frame.columns (apply_column_mapping df)) /\
  ~ In "log2FoldChange" (Frame.columns (apply_column_mapping df)).
Proof.
  rewrite apply_column_mapping_eq. split.
  - apply absent_kept; [discriminate |].
    apply absent_after_rename. discriminate.
  - apply absent_after_rename. discriminate.
Qed.

Lemma columns_app df (c : string * D) :
  Frame.columns (df ++ [c]) = Frame.columns df ++ [fst c].
Proof. unfold Frame.columns. now rewrite map_app. Qed.

Lemma find_In (f : string * D -> bool) df c :
  find f df = Some c -> In c df.
Proof. intros H. now apply find_some in H. Qed.

End Columns.
End DegsFacts.

Module DegsNormal.
Import PyDict PyDictFacts DegsFacts.

Section Columns.
Context {D : Type}.
Variable empty : D.
Implicit Types (df : Frame.t D).

Lemma minimal_normalised :
  normalised [("gene", empty); ("log2FC", empty)].
Proof.
  unfold normalised. simpl. repeat split; intuition discriminate.
Qed.

Lemma gene_step_normalised df c0 rest :
  df = c0 :: rest ->
  ~ In "index" (Frame.columns df) ->
  ~ In "log2FoldChange" (Frame.columns df) ->
  let df2 := Frame.rename [(fst c0, "gene")] df in
  ~ In "index" (Frame.columns df2) /\
  ~ In "log2FoldChange" (Frame.columns df2) /\
  In "gene" (Frame.columns df2).
Proof.
  intros -> H1 H2. cbv zeta. split; [| split].
  - apply absent_kept; [discriminate | assumption].
  - apply absent_kept; [discriminate | assumption].
  - rewrite columns_rename_single. cbn [Frame.columns map]. left.
    unfold relabel. now rewrite String.eqb_refl.
Qed.

Lemma tail_normalised df :
  ~ In "index" (Frame.columns df) ->
  ~ In "log2FoldChange" (Frame.columns df) ->
  In "gene" (Frame.columns df) ->
  normalised
    (if str_in "log2FC" (Frame.columns df) then df
     else
       match find (fun c => looks_like_log2fc (fst c)) df with
       | Some c =>
           match Frame.getitem (fst c) df with
           | Frame.Column data => df ++ [("log2FC", data)]
           | _ => [("gene", empty); ("log2FC", empty)]
           end
       | None => df
       end).
Proof.
  intros H1 H2 H3. destruct (str_in "log2FC" (Frame.columns df)) eqn:E.
  - apply str_in_In in E. unfold normalised. tauto.
  - destruct (find (fun c => looks_like_log2fc (fst c)) df) as [c|] eqn:F.
    + destruct (Frame.getitem (fst c) df) as [| data | labels];
        try apply minimal_normalised.
      unfold normalised. rewrite columns_app. cbn [fst].
      rewrite !in_app_iff. simpl. repeat split.
      * intros [H | [H | []]]; [contradiction | discriminate].
      * intros [H | [H | []]]; [contradiction | discriminate].
      * now left.
      * left. right. now left.
    + unfold normalised. tauto.
Qed.

Lemma load_degs_normalised df : normalised (load_degs empty df).
Proof.
  unfold load_degs. cbv zeta.
  destruct (mapped_has_no_old_labels df) as [H1 H2].
  set (df1 := apply_column_mapping df) in *.
  destruct (str_in "gene" (Frame.columns df1)) eqn:E.
  - apply tail_normalised; try assumption. now apply str_in_In.
  - destruct df1 as [|c0 rest] eqn:Edf; [apply minimal_normalised |].
    destruct (gene_step_normalised (c0 :: rest) c0 rest eq_refl H1 H2)
      as (G1 & G2 & G3).
    now apply tail_normalised.
Qed.

Lemma normalised_fixed df : normalised df -> load_degs empty df = df.
Proof.
  intros (H1 & H2 & H3 & H4). unfold load_degs. cbv zeta.
  rewrite (apply_column_mapping_fixed df H1 H2).
  rewrite (proj2 (str_in_In _ _) H3).
  destruct (str_in "log2FC" (Frame.columns df)) eqn:E; [reflexivity |].
  apply str_in_false in E. destruct H4 as [H4 | H4]; [contradiction |].
  now rewrite H4.
Qed.

End Columns.
End DegsNormal.

(** X13.  Whatever frame is read, the table [load_degs] returns has a
    gene column; and, unless it is the empty fallback table, it holds the
    data of the frame column for column, in the same order, with at most
    one column added at the end, a copy of one of them. *)
Theorem load_degs_gene_column {D : Type} (empty : D) (df : Frame.t D) :
  In "gene" (Frame.columns (load_degs empty df)) /\
  (load_degs empty df = [("gene", empty); ("log2FC", empty)] \/
   exists extra,
     map snd (load_degs empty df) = map snd df ++ extra /\
     List.length extra <= 1 /\
     forall d, In d extra -> In d (map snd df)).
Proof.
  split; [apply (DegsNormal.load_degs_normalised empty df) |].
  unfold load_degs. cbv zeta.
  assert (Hdata : map snd (apply_column_mapping df) = map snd df).
  { rewrite DegsFacts.apply_column_mapping_eq.
    now rewrite !DegsFacts.data_rename. }
  set (df1 := apply_column_mapping df) in *.
  assert (Htail : forall df2 : Frame.t D,
            map snd df2 = map snd df ->
            let R :=
              if str_in "log2FC" (Frame.columns df2) then df2
              else
                match find (fun c => looks_like_log2fc (fst c)) df2 with
                | Some c =>
                    match Frame.getitem (fst c) df2 with
                    | Frame.Column data => df2 ++ [("log2FC", data)]
                    | _ => [("gene", empty); ("log2FC", empty)]
                    end
                | None => df2
                end in
            R = [("gene", empty); ("log2FC", empty)] \/
            exists extra,
              map snd R = map snd df ++ extra /\
              List.length extra <= 1 /\
              forall d, In d extra -> In d (map snd df)).
  { intros df2 H2. cbv zeta.
    assert (Hsame : exists extra,
              map snd df2 = map snd df ++ extra /\
              List.length extra <= 1 /\
              forall d, In d extra -> In d (map snd df)).
    { exists []. rewrite app_nil_r. simpl. split; [assumption |].
      split; [lia | intros d []]. }
    destruct (str_in "log2FC" (Frame.columns df2)); [now right |].
    destruct (find (fun c => looks_like_log2fc (fst c)) df2) as [c|] eqn:F;
      [| now right].
    destruct (Frame.getitem (fst c) df2) as [| data | labels] eqn:G;
      [now left | | now left].
    right. exists [data]. rewrite map_app, H2. simpl.
    split; [reflexivity |]. split; [lia |].
    intros d [<- | []]. rewrite <- H2.
    unfold Frame.getitem in G.
    destruct (filter (fun c0 : string * D => String.eqb (fst c0) (fst c)) df2)
      as [|x [|y l]] eqn:Ef; try discriminate.
    injection G as <-.
    assert (Hx : In x (filter (fun c0 : string * D =>
                                 String.eqb (fst c0) (fst c)) df2))
      by (rewrite Ef; now left).
    apply filter_In in Hx. now apply in_map. }
  destruct (str_in "gene" (Frame.columns df1)).
  - now apply Htail.
  - destruct df1 as [|c0 rest] eqn:E; [now left |].
    apply Htail. now rewrite DegsFacts.data_rename.
Qed.

(** X14.  Normalising twice is normalising once: a table that has been
    through [load_degs] comes back unchanged.  In particular a frame with
    a gene and a log2FC column, and without the labels index and
    log2FoldChange, is returned as it is. *)
Theorem load_degs_idempotent {D : Type} (empty : D) (df : Frame.t D) :
  load_degs empty (load_degs empty df) = load_degs empty df /\
  (In "gene" (Frame.columns df) -> In "log2FC" (Frame.columns df) ->
   ~ In "index" (Frame.columns df) ->
   ~ In "log2FoldChange" (Frame.columns df) ->
   load_degs empty df = df).
Proof.
  split.
  - apply DegsNormal.normalised_fixed, DegsNormal.load_degs_normalised.
  - intros H1 H2 H3 H4. apply DegsNormal.normalised_fixed.
    unfold normalised. tauto.
Qed.

Module DegsLayout.
Import PyDict PyDictFacts OfPairs DegsFacts.

Section Columns.
Context {D : Type}.
Implicit Types (df : Frame.t D).

Lemma get_rename_new (old new : string) df :
  ~ In new (Frame.columns df) ->
  get new (Frame.rename [(old, new)] df) = get old df.
Proof.
  unfold Frame.columns, Frame.rename.
  induction df as [|[l d] df IH]; simpl; [reflexivity |].
  intros H. destruct (String.eqb_spec l old) as [-> | Hne].
  - now rewrite !String.eqb_refl.
  - destruct (String.eqb_spec new l) as [-> | Hne'].
    + exfalso. apply H. now left.
    + destruct (String.eqb_spec old l) as [E | _]; [congruence |].
      apply IH. intros Hin. apply H. now right.
Qed.

Lemma get_rename_other (name old new : string) df :
  name <> old -> name <> new ->
  get name (Frame.rename [(old, new)] df) = get name df.
Proof.
  intros H1 H2. unfold Frame.rename.
  induction df as [|[l d] df IH]; simpl; [reflexivity |].
  destruct (String.eqb_spec l old) as [-> | Hne].
  - destruct (String.eqb_spec name new) as [E | _]; [congruence |].
    destruct (String.eqb_spec name old) as [E | _]; [congruence |].
    exact IH.
  - destruct (String.eqb_spec name l); [reflexivity | exact IH].
Qed.

Lemma In_relabel (old new x : string) (l : list string) :
  In x (map (relabel old new) l) -> x = new \/ In x l.
Proof.
  rewrite in_map_iff. intros [y [Hy Hin]]. unfold relabel in Hy.
  destruct (String.eqb y old); subst; auto.
Qed.

Lemma NoDup_relabel (old new : string) (l : list string) :
  NoDup l -> ~ In new l -> NoDup (map (relabel old new) l).
Proof.
  induction l as [|x l IH]; simpl; intros Hnd Hnew; [constructor |].
  inversion Hnd as [|? ? Hx Hl]; subst.
  constructor; [| apply IH; [assumption | tauto]].
  intros Hin. apply in_map_iff in Hin. destruct Hin as [y [Hy Hyl]].
  unfold relabel in Hy.
  destruct (String.eqb_spec y old) as [Hyo | Hyo],
           (String.eqb_spec x old) as [Hxo | Hxo].
  - apply Hx. congruence.
  - apply Hnew. left. congruence.
  - apply Hnew. right. congruence.
  - apply Hx. congruence.
Qed.

Lemma NoDup_rename (old new : string) df :
  NoDup (Frame.columns df) -> ~ In new (Frame.columns df) ->
  NoDup (Frame.columns (Frame.rename [(old, new)] df)).
Proof.
  intros H1 H2. rewrite columns_rename_single. now apply NoDup_relabel.
Qed.

Lemma get_Some_In (name : string) (d : D) df :
  get name df = Some d -> In name (Frame.columns df).
Proof.
  intros H. apply mem_keys. unfold mem. now rewrite H.
Qed.

End Columns.
End DegsLayout.

(** X15.  A DESeq2 table with distinct labels that has the columns index
    and log2FoldChange, and no gene or log2FC column, comes out with the
    same data, its index column being the one and only gene column and
    its log2FoldChange column the one and only log2FC column. *)
Theorem load_degs_deseq_layout {D : Type} (empty : D) (df : Frame.t D)
    (g fc : D) :
  NoDup (Frame.columns df) ->
  ~ In "gene" (Frame.columns df) -> ~ In "log2FC" (Frame.columns df) ->
  PyDict.get "index" df = Some g ->
  PyDict.get "log2FoldChange" df = Some fc ->
  map snd (load_degs empty df) = map snd df /\
  Frame.getitem "gene" (load_degs empty df) = Frame.Column g /\
  Frame.getitem "log2FC" (load_degs empty df) = Frame.Column fc.
Proof.
  intros Hnd Hgene Hfc Hi Hl.
  set (df' := Frame.rename [("index", "gene")] df).
  set (R := Frame.rename [("log2FoldChange", "log2FC")] df').
  assert (Hnd' : NoDup (Frame.columns df'))
    by now apply DegsLayout.NoDup_rename.
  assert (Hfc' : ~ In "log2FC" (Frame.columns df')).
  { unfold df'. rewrite DegsFacts.columns_rename_single. intros H.
    apply DegsLayout.In_relabel in H. destruct H; [discriminate | auto]. }
  assert (HndR : NoDup (Frame.columns R))
    by now apply DegsLayout.NoDup_rename.
  assert (Hg' : PyDict.get "gene" df' = Some g)
    by (unfold df'; now rewrite DegsLayout.get_rename_new).
  assert (Hl' : PyDict.get "log2FoldChange" df' = Some fc).
  { unfold df'. rewrite DegsLayout.get_rename_other;
      [assumption | discriminate | discriminate]. }
  assert (HgR : PyDict.get "gene" R = Some g).
  { unfold R. rewrite DegsLayout.get_rename_other;
      [assumption | discriminate | discriminate]. }
  assert (HlR : PyDict.get "log2FC" R = Some fc)
    by (unfold R; now rewrite DegsLayout.get_rename_new).
  assert (E : load_degs empty df = R).
  { unfold load_degs. cbv zeta. rewrite DegsFacts.apply_column_mapping_eq.
    fold df'. fold R.
    rewrite (proj2 (str_in_In _ _) (DegsLayout.get_Some_In _ _ _ HgR)).
    now rewrite (proj2 (str_in_In _ _) (DegsLayout.get_Some_In _ _ _ HlR)). }
  rewrite E. split; [| split].
  - unfold R, df'. now rewrite !DegsFacts.data_rename.
  - now apply FrameFacts.getitem_unique.
  - now apply FrameFacts.getitem_unique.
Qed.

Lemma load_degs_deseq_layout_witness :
  map snd (load_degs [] sample_deseq_frame) = map snd sample_deseq_frame /\
  Frame.getitem "gene" (load_degs [] sample_deseq_frame)
  = Frame.Column ["TP53"; "MYC"] /\
  Frame.getitem "log2FC" (load_degs [] sample_deseq_frame)
  = Frame.Column ["2.5"; "-1.5"].
Proof.
  apply load_degs_deseq_layout.
  - simpl. repeat constructor; simpl; intuition discriminate.
  - simpl. intuition discriminate.
  - simpl. intuition discriminate.
  - reflexivity.
  - reflexivity.
Defined.

(** X16.  A frame with distinct labels and no column called gene, index
    or log2FoldChange gets its first column as the one gene column,
    whatever that column is called, a fold-change column included. *)
Theorem load_degs_first_column_is_gene {D : Type} (empty : D)
    (n0 : string) (d0 : D) (rest : Frame.t D) :
  let df := (n0, d0) :: rest in
  NoDup (Frame.columns df) ->
  ~ In "gene" (Frame.columns df) -> ~ In "index" (Frame.columns df) ->
  ~ In "log2FoldChange" (Frame.columns df) ->
  Frame.getitem "gene" (load_degs empty df) = Frame.Column d0.
Proof.
  cbv zeta. intros Hnd Hgene Hidx Hl2.
  set (df2 := Frame.rename [(n0, "gene")] ((n0, d0) :: rest)).
  assert (Hnd2 : NoDup (Frame.columns df2))
    by now apply DegsLayout.NoDup_rename.
  assert (Hg2 : PyDict.get "gene" df2 = Some d0).
  { unfold df2. rewrite DegsLayout.get_rename_new by assumption.
    simpl. now rewrite String.eqb_refl. }
  unfold load_degs. cbv zeta.
  rewrite (DegsFacts.apply_column_mapping_fixed _ Hidx Hl2).
  rewrite (proj2 (str_in_false _ _) Hgene).
  change (Frame.rename [(fst (n0, d0), "gene")] ((n0, d0) :: rest))
    with df2.
  destruct (str_in "log2FC" (Frame.columns df2)) eqn:E.
  - now apply FrameFacts.getitem_unique.
  - apply str_in_false in E.
    destruct (find (fun c => looks_like_log2fc (fst c)) df2) as [c|] eqn:F.
    + apply find_some in F. destruct F as [Hc _]. destruct c as [l d].
      assert (Hget : PyDict.get l df2 = Some d)
        by now apply PyDictFacts.In_get_NoDup.
      cbn [fst]. rewrite (FrameFacts.getitem_unique l d df2 Hnd2 Hget).
      apply FrameFacts.getitem_unique.
      * rewrite DegsFacts.columns_app. cbn [fst].
        apply NoDup_app; [assumption | repeat constructor; intros [] |].
        intros a Ha [<- | []]. contradiction.
      * rewrite OfPairs.get_app. now rewrite Hg2.
    + now apply FrameFacts.getitem_unique.
Qed.

Lemma load_degs_first_column_is_gene_witness :
  Frame.getitem "gene"
    (load_degs [] [("LOG2FOLD", ["2.5"]); ("x", ["TP53"])])
  = Frame.Column ["2.5"].
Proof.
  apply (load_degs_first_column_is_gene [] "LOG2FOLD" ["2.5"]
           [("x", ["TP53"])]).
  - simpl. repeat constructor; simpl; intuition discriminate.
  - simpl. intuition discriminate.
  - simpl. intuition discriminate.
  - simpl. intuition discriminate.
Defined.

(** * Beyond the claims: the top genes sent to STRING *)

Module TopRows.
Import SortFacts.

Lemma stable_sort_by_abs_admissible {A : Type} :
  sorts_descending (fun r : A * float => fabs (snd r)) stable_sort_by_abs.
Proof.
  exact (stable_sort_descending (fun r : A * float => fabs (snd r))).
Qed.

Lemma reverse_sort_by_abs_admissible {A : Type} :
  sorts_descending (fun r : A * float => fabs (snd r)) reverse_sort_by_abs.
Proof.
  exact (reverse_sort_descending (fun r : A * float => fabs (snd r))).
Qed.

Section Rows.
Context {A : Type}.
Variable mask : float -> bool.
Variable rows : list (A * float).
Variable sort_by_abs : list (A * float) -> list (A * float).
Hypothesis library_sort :
  sorts_descending (fun r : A * float => fabs (snd r)) sort_by_abs.

Lemma top_genes_length (n : nat) (l : list (A * float)) :
  List.length (top_genes mask n l) <= n.
Proof.
  unfold top_genes. rewrite length_map. apply firstn_le_length.
Qed.

Lemma top_genes_few_ahead (n : nat) (g : A) :
  In g (top_genes mask n (sort_by_abs rows)) ->
  exists fc, In (g, fc) rows /\ mask fc = true /\
             rows_ahead mask rows (g, fc) < n.
Proof.
  unfold top_genes. rewrite in_map_iff. intros [[g' fc] [Hg Hr]].
  simpl in Hg. subst g'. exists fc.
  destruct (library_sort rows) as [Hperm Hsorted].
  pose proof (firstn_incl_In _ _ _ Hr) as Hin. apply filter_In in Hin.
  destruct Hin as [Hin Hmask]. simpl in Hmask.
  split; [exact (Permutation_in _ Hperm Hin) |]. split; [exact Hmask |].
  unfold rows_ahead.
  exact (head_few_ahead before_by_abs (fun r => mask (snd r)) rows
           (sort_by_abs rows) Hperm Hsorted n (g, fc) Hr).
Qed.

Lemma few_not_behind_top_genes (n : nat) (g : A) (fc : float) :
  In (g, fc) rows -> mask fc = true ->
  rows_not_behind mask rows (g, fc) <= n ->
  In g (top_genes mask n (sort_by_abs rows)).
Proof.
  intros Hin Hmask Hcount. unfold top_genes.
  apply in_map_iff. exists (g, fc). split; [reflexivity |].
  destruct (library_sort rows) as [Hperm Hsorted].
  apply (few_not_behind_head before_by_abs (fun r => mask (snd r)) rows
           (sort_by_abs rows) Hperm Hsorted n (g, fc)).
  - apply desc_na_last_refl.
  - exact Hin.
  - exact Hmask.
  - exact Hcount.
Qed.

End Rows.
End TopRows.

(** The two ways a frame yields its gene and fold-change columns: by
    name, or by position when the names are not both there. *)
Lemma load_deg_genes_resolved
    (sort_by_abs : list (cell * float) -> list (cell * float))
    (df : Frame.t (list cell)) (top_n : nat)
    (genes cells : list cell) (log2FC : list float) :
  NoDup (Frame.columns df) ->
  (PyDict.get "gene" df = Some genes /\
   PyDict.get "log2FC" df = Some cells) \/
  (~ (In "gene" (Frame.columns df) /\ In "log2FC" (Frame.columns df)) /\
   exists n0 n1 rest,
     df = (n0, genes) :: (n1, cells) :: rest /\
     ~ In "gene" (Frame.columns rest) /\
     ~ In "log2FC" (Frame.columns rest)) ->
  numeric cells = Some log2FC ->
  load_deg_genes sort_by_abs df top_n =
  (top_genes (fun fc => fgt fc (of_Z 0)) top_n
     (sort_by_abs (combine genes log2FC)),
   top_genes (fun fc => flt fc (of_Z 0)) top_n
     (sort_by_abs (combine genes log2FC))).
Proof.
  intros Hnd Hres Hnum. unfold load_deg_genes.
  destruct Hres as [[Hg Hf] | [Hnot (n0 & n1 & rest & -> & Hrg & Hrf)]].
  - rewrite (proj2 (str_in_In _ _) (DegsLayout.get_Some_In _ _ _ Hg)).
    rewrite (proj2 (str_in_In _ _) (DegsLayout.get_Some_In _ _ _ Hf)).
    cbn [negb orb].
    rewrite (FrameFacts.getitem_unique _ _ _ Hnd Hf).
    rewrite (FrameFacts.getitem_unique _ _ _ Hnd Hg).
    now rewrite Hnum.
  - assert (Hcond :
      negb (str_in "gene"
              (Frame.columns ((n0, genes) :: (n1, cells) :: rest)))
      || negb (str_in "log2FC"
                 (Frame.columns ((n0, genes) :: (n1, cells) :: rest)))
      = true).
    { destruct (str_in "gene" _) eqn:E1; [| reflexivity].
      destruct (str_in "log2FC" _) eqn:E2; [| reflexivity].
      exfalso. apply Hnot. split; now apply str_in_In. }
    rewrite Hcond. cbn [snd].
    inversion Hnd as [|? ? _ Hnd1]; subst.
    inversion Hnd1 as [|? ? _ Hrest]; subst.
    assert (Hnd' : NoDup (Frame.columns
                            (("gene", genes) :: ("log2FC", cells) :: rest))).
    { cbn [Frame.columns map fst]. constructor.
      - intros [H | H]; [discriminate | contradiction].
      - constructor; assumption. }
    rewrite (FrameFacts.getitem_unique "log2FC" cells _ Hnd')
      by reflexivity.
    rewrite (FrameFacts.getitem_unique "gene" genes _ Hnd')
      by reflexivity.
    now rewrite Hnum.
Qed.

(** X17.  From a frame with distinct labels whose gene and fold-change
    columns are found, by name or else as the first two columns, and whose
    fold-changes are numbers, whichever sort the library runs (a
    rearrangement of the rows in descending order of absolute fold-change,
    missing values last): the up list is the genes of the first [top_n]
    rows above 0 of the sorted table, the down list those of the first
    [top_n] rows below 0.  The order of the rows that tie is the
    library's; whatever it is, a gene with a row above 0 is in the up list
    when at most [top_n] rows above 0 have an absolute fold-change that is
    not smaller (the row itself counted), and every gene of the up list
    has a row above 0 with fewer than [top_n] rows above 0 of larger
    absolute fold-change; likewise for the down list and the rows below 0.
    Neither list is longer than [top_n]; a gene whose rows are all at 0 or
    without a value is in neither. *)
Theorem top_deg_genes
    (sort_by_abs : list (cell * float) -> list (cell * float))
    (df : Frame.t (list cell)) (top_n : nat)
    (genes cells : list cell) (log2FC : list float) :
  sorts_descending (fun r : cell * float => fabs (snd r)) sort_by_abs ->
  NoDup (Frame.columns df) ->
  (PyDict.get "gene" df = Some genes /\
   PyDict.get "log2FC" df = Some cells) \/
  (~ (In "gene" (Frame.columns df) /\ In "log2FC" (Frame.columns df)) /\
   exists n0 n1 rest,
     df = (n0, genes) :: (n1, cells) :: rest /\
     ~ In "gene" (Frame.columns rest) /\
     ~ In "log2FC" (Frame.columns rest)) ->
  numeric cells = Some log2FC ->
  let rows := combine genes log2FC in
  let up := fun fc => fgt fc (of_Z 0) in
  let down := fun fc => flt fc (of_Z 0) in
  let up_genes := fst (load_deg_genes sort_by_abs df top_n) in
  let down_genes := snd (load_deg_genes sort_by_abs df top_n) in
  up_genes = top_genes up top_n (sort_by_abs rows) /\
  down_genes = top_genes down top_n (sort_by_abs rows) /\
  (forall g fc, In (g, fc) rows -> up fc = true ->
                rows_not_behind up rows (g, fc) <= top_n ->
                In g up_genes) /\
  (forall g, In g up_genes ->
             exists fc, In (g, fc) rows /\ up fc = true /\
                        rows_ahead up rows (g, fc) < top_n) /\
  (forall g fc, In (g, fc) rows -> down fc = true ->
                rows_not_behind down rows (g, fc) <= top_n ->
                In g down_genes) /\
  (forall g, In g down_genes ->
             exists fc, In (g, fc) rows /\ down fc = true /\
                        rows_ahead down rows (g, fc) < top_n) /\
  List.length up_genes <= top_n /\ List.length down_genes <= top_n.
Proof.
  intros Hsort Hnd Hres Hnum. cbv zeta.
  rewrite (load_deg_genes_resolved sort_by_abs df top_n genes cells log2FC
             Hnd Hres Hnum).
  cbn [fst snd].
  split; [reflexivity |]. split; [reflexivity |].
  split; [| split; [| split; [| split; [| split]]]].
  - intros g fc.
    exact (TopRows.few_not_behind_top_genes (fun x => fgt x (of_Z 0))
             (combine genes log2FC) sort_by_abs Hsort top_n g fc).
  - intros g.
    exact (TopRows.top_genes_few_ahead (fun x => fgt x (of_Z 0))
             (combine genes log2FC) sort_by_abs Hsort top_n g).
  - intros g fc.
    exact (TopRows.few_not_behind_top_genes (fun x => flt x (of_Z 0))
             (combine genes log2FC) sort_by_abs Hsort top_n g fc).
  - intros g.
    exact (TopRows.top_genes_few_ahead (fun x => flt x (of_Z 0))
             (combine genes log2FC) sort_by_abs Hsort top_n g).
  - apply TopRows.top_genes_length.
  - apply TopRows.top_genes_length.
Qed.

Lemma top_deg_genes_witness :
  let rows := combine [Str "A"; Str "B"; Str "C"; Str "D"]
                      [Fin (1 # 4); Fin (1 # 4); Fin (1 # 2); Fin (1 # 2)] in
  let up := fun fc => fgt fc (of_Z 0) in
  let down := fun fc => flt fc (of_Z 0) in
  let up_genes := fst (load_deg_genes stable_sort_by_abs tied_deg_frame 1) in
  let down_genes :=
    snd (load_deg_genes stable_sort_by_abs tied_deg_frame 1) in
  up_genes = top_genes up 1 (stable_sort_by_abs rows) /\
  down_genes = top_genes down 1 (stable_sort_by_abs rows) /\
  (forall g fc, In (g, fc) rows -> up fc = true ->
                rows_not_behind up rows (g, fc) <= 1 -> In g up_genes) /\
  (forall g, In g up_genes ->
             exists fc, In (g, fc) rows /\ up fc = true /\
                        rows_ahead up rows (g, fc) < 1) /\
  (forall g fc, In (g, fc) rows -> down fc = true ->
                rows_not_behind down rows (g, fc) <= 1 -> In g down_genes) /\
  (forall g, In g down_genes ->
             exists fc, In (g, fc) rows /\ down fc = true /\
                        rows_ahead down rows (g, fc) < 1) /\
  List.length up_genes <= 1 /\ List.length down_genes <= 1.
Proof.
  apply (top_deg_genes stable_sort_by_abs tied_deg_frame 1
           [Str "A"; Str "B"; Str "C"; Str "D"]
           [Num (Fin (1 # 4)); Num (Fin (1 # 4)); Num (Fin (1 # 2));
            Num (Fin (1 # 2))]).
  - exact TopRows.stable_sort_by_abs_admissible.
  - simpl. repeat constructor; simpl; intuition discriminate.
  - left. split; reflexivity.
  - reflexivity.
Defined.

(** Columns taken by position, a missing value and a row at zero: E is
    the top gene above 0 and B the top gene below. *)
Example scenario_top_genes :
  load_deg_genes stable_sort_by_abs sample_deg_frame 1
  = ([Str "E"], [Str "B"]).
Proof. reflexivity. Qed.

(** C and D tie for the first place: the stable sort returns C, the stable
    sort of the table read from the bottom returns D, and either may be
    what the library does. *)
Example scenario_tied_top_gene :
  load_deg_genes stable_sort_by_abs tied_deg_frame 1 = ([Str "C"], [])
  /\ load_deg_genes reverse_sort_by_abs tied_deg_frame 1 = ([Str "D"], []).
Proof. split; reflexivity. Qed.

(** X18.  [load_deg_genes] gives two empty lists, and no error, for a
    frame of fewer than two columns, and for a frame whose log2FC column
    holds text. *)
Theorem load_deg_genes_failures
    (sort_by_abs : list (cell * float) -> list (cell * float))
    (df : Frame.t (list cell)) (top_n : nat) :
  (List.length df < 2 -> load_deg_genes sort_by_abs df top_n = ([], [])) /\
  (forall cells,
     NoDup (Frame.columns df) -> In "gene" (Frame.columns df) ->
     PyDict.get "log2FC" df = Some cells -> numeric cells = None ->
     load_deg_genes sort_by_abs df top_n = ([], [])).
Proof.
  split.
  - intros Hlen. unfold load_deg_genes.
    destruct df as [|[n d] [|c df]]; simpl in Hlen; try lia.
    + reflexivity.
    + cbn [Frame.columns map fst str_in existsb].
      destruct (String.eqb "gene" n) eqn:E1; [| reflexivity].
      destruct (String.eqb "log2FC" n) eqn:E2; [| reflexivity].
      apply String.eqb_eq in E1. apply String.eqb_eq in E2.
      subst. discriminate.
  - intros cells Hnd Hg Hf Hnum. unfold load_deg_genes.
    rewrite (proj2 (str_in_In _ _) Hg).
    rewrite (proj2 (str_in_In _ _) (DegsLayout.get_Some_In _ _ _ Hf)).
    cbn [negb orb].
    rewrite (FrameFacts.getitem_unique _ _ _ Hnd Hf).
    destruct (Frame.getitem "gene" df); try reflexivity.
    now rewrite Hnum.
Qed.

(** * The text of a label *)

Module LabelText.

Lemma floor_bounds (y : Q) :
  (inject_Z (Qfloor y) <= y)%Q /\ (y < inject_Z (Qfloor y) + 1)%Q.
Proof.
  split.
  - apply Qfloor_le.
  - pose proof (Qlt_floor y) as H.
    rewrite inject_Z_plus in H. exact H.
Qed.

Lemma round_half_even_near (y : Q) :
  (inject_Z (round_half_even y) - (1 # 2) <= y)%Q /\
  (y <= inject_Z (round_half_even y) + (1 # 2))%Q.
Proof.
  unfold round_half_even.
  destruct (floor_bounds y) as [Hlo Hhi].
  assert (Hplus : (inject_Z (Qfloor y + 1) == inject_Z (Qfloor y) + 1)%Q)
    by (rewrite inject_Z_plus; reflexivity).
  set (f := Qfloor y) in *.
  destruct (Qcompare (y - inject_Z f) (1 # 2)) eqn:Ec.
  - apply Qeq_alt in Ec.
    destruct (Z.even f); [| rewrite Hplus]; split; lra.
  - apply Qlt_alt in Ec. split; lra.
  - apply Qgt_alt in Ec. rewrite Hplus. split; lra.
Qed.

Lemma round_half_even_nonneg (y : Q) :
  (0 <= y)%Q -> (0 <= round_half_even y)%Z.
Proof.
  intros Hy. unfold round_half_even.
  assert (Hf : (0 <= Qfloor y)%Z).
  { change 0%Z with (Qfloor (inject_Z 0)) at 1.
    - apply Qfloor_resp_le. exact Hy. }
  destruct (Qcompare _ _); [destruct (Z.even _) | |]; lia.
Qed.

Lemma round_half_even_zero (y : Q) :
  (0 <= y)%Q -> (round_half_even y = 0%Z <-> (y <= 1 # 2)%Q).
Proof.
  intros Hy. split.
  - intros H0. pose proof (round_half_even_near y) as [_ Hup].
    rewrite H0 in Hup. unfold inject_Z in Hup. lra.
  - intros Hle.
    assert (Hf : Qfloor y = 0%Z).
    { pose proof (Qfloor_le y) as Hlo.
      pose proof (Qlt_floor y) as Hhi.
      assert (H1 : (0 <= Qfloor y)%Z).
      { change 0%Z with (Qfloor (inject_Z 0)) at 1.
        apply Qfloor_resp_le. exact Hy. }
      assert (H2 : (Qfloor y < 1)%Z).
      { rewrite Zlt_Qlt. apply Qle_lt_trans with y; [exact Hlo |].
        apply Qle_lt_trans with (1 # 2)%Q; [exact Hle | reflexivity]. }
      lia. }
    unfold round_half_even. rewrite Hf.
    destruct (Qcompare (y - inject_Z 0) (1 # 2)) eqn:Ec.
    + reflexivity.
    + reflexivity.
    + apply Qgt_alt in Ec. exfalso. unfold inject_Z in Ec. lra.
Qed.

Lemma Qabs_not_negative (q : Q) : Qltb (Qabs q) 0 = false.
Proof.
  destruct (Qltb (Qabs q) 0) eqn:E; [| reflexivity].
  apply PyFloatFacts.Qltb_lt in E.
  pose proof (Qabs_nonneg q) as H. exfalso.
  now apply (Qlt_not_le _ _ E).
Qed.

Lemma Qabs_Qabs (q : Q) : Qabs (Qabs q) = Qabs q.
Proof.
  destruct q as [n d]. unfold Qabs. now rewrite Z.abs_idemp.
Qed.

End LabelText.

(** X19.  Label text of a node with a finite fold-change [q]: the second
    line carries the up arrow exactly when [q] is positive (zero and
    negative values get the down arrow) and the unsigned digits of a whole
    number [h] of hundredths that is within one half of [100 * |q|]; the
    digits are [0.00] exactly when [|q|] is at most [0.005].  A node
    without a fold-change is labelled with its name alone. *)
Theorem label_text_value (fold_changes : PyDict.dict float) (node : string) :
  (PyDict.get node fold_changes = None ->
   make_label fold_changes node = mkLabel node None) /\
  (forall q, PyDict.get node fold_changes = Some (Fin q) ->
   exists (d : direction) (h : Z),
     make_label fold_changes node
       = mkLabel node (Some (d, hundredths_text h)) /\
     (d = ArrowUp <-> (0 < q)%Q) /\
     (0 <= h)%Z /\
     (inject_Z h - (1 # 2) <= Qabs q * 100)%Q /\
     (Qabs q * 100 <= inject_Z h + (1 # 2))%Q /\
     (h = 0%Z <-> (Qabs q <= 1 # 200)%Q)).
Proof.
  split.
  - intros Hn. unfold make_label. rewrite Hn. reflexivity.
  - intros q Hq.
    assert (Hy : (0 <= Qabs q * 100)%Q).
    { pose proof (Qabs_nonneg q). lra. }
    exists (if fgt (Fin q) (of_Z 0) then ArrowUp else ArrowDown),
           (round_half_even (Qabs q * 100)).
    split; [| split; [| split; [| split; [| split]]]].
    + unfold make_label. rewrite Hq. cbn [fabs format_2f].
      rewrite LabelText.Qabs_not_negative, LabelText.Qabs_Qabs.
      reflexivity.
    + unfold fgt, of_Z.
      destruct (flt (Fin (inject_Z 0)) (Fin q)) eqn:E.
      * apply PyFloatFacts.flt_Fin in E. split; [intros _; exact E | reflexivity].
      * split; [discriminate |].
        intros Hpos. apply (proj2 (PyFloatFacts.flt_Fin (inject_Z 0) q)) in Hpos.
        congruence.
    + apply LabelText.round_half_even_nonneg. exact Hy.
    + apply LabelText.round_half_even_near.
    + apply LabelText.round_half_even_near.
    + rewrite (LabelText.round_half_even_zero _ Hy). split; intros H; lra.
Qed.
